(** * HailoRT: latency meter and network-group scheduler defaults

    A shallow embedding of [hailort/common/latency_meter.hpp] and of the
    constants and constructor of
    [hailort/libhailort/src/network_group_scheduler.hpp], with the properties
    the specification states about them; then of the checks of
    [hailort/libhailort/src/inference_pipeline.cpp] and of the CSV writers of
    [hailort/hailortcli/infer_stats_printer.cpp], with properties read off
    the code.

    Conventions.
    - [std::chrono::nanoseconds] ([LatencyMeter::duration]) is a signed 64-bit
      tick count; it is embedded as [Z], and the sum and the difference of two
      durations are taken modulo 2^64 into the signed range ([duration_add],
      [duration_sub]), as the two's complement machines the library is built
      for compute them.  (C++ leaves signed overflow undefined; a statement
      about exact sums bounds its values.)
    - [size_t] ([m_latency_count]) is 64 bits wide, as on the 64-bit targets
      of the library; it is embedded as [N].  The counter moves by one per
      matched sample and is not wrapped (2^64 samples are needed for that).
    - [uint32_t] channel indices are [N] keys of a [gmap];
      [std::unordered_map] fixes no iteration order, and [update_latency]
      needs none ([scan_ends_perm]): the embedding walks [map_to_list].
    - The mutex only serialises the calls; every operation is embedded as the
      state transformer it is while it holds the lock. *)

From Stdlib Require Import ZArith List Lia Bool.
From stdpp Require Import base option list gmap fin_maps fin_sets strings
  sorting.

Local Open Scope Z_scope.

(** ** CircularArray *)

Module CircularArray.

(** Modelled from the spec: [common/circular_buffer.hpp], which declares
    [CircularArray<T>], is not among the sources.  The specification
    describes it as "an ordered circular buffer ... (fixed capacity)" to
    which a timestamp is appended, "oldest evicted on overflow".  The
    buffer is embedded as its capacity and the queued timestamps, oldest
    first. *)
Record t : Type := mk {
  capacity : nat;
  items : list Z
}.

Definition make (storage_size : nat) : t :=
  {| capacity := storage_size; items := [] |}.

Definition empty (b : t) : bool :=
  match items b with
  | [] => true
  | _ :: _ => false
  end.

Definition full (b : t) : bool :=
  (capacity b <=? length (items b))%nat.

(** [front] is only read by the meter after [empty] answered [false]. *)
Definition front (b : t) : Z := hd 0 (items b).

Definition pop_front (b : t) : t :=
  {| capacity := capacity b; items := tl (items b) |}.

Definition push_back (x : Z) (b : t) : t :=
  let l := items b ++ [x] in
  {| capacity := capacity b;
     items := if (length l <=? capacity b)%nat then l else tl l |}.

End CircularArray.

Abbreviation TimestampsArray := CircularArray.t.

(** ** Status codes and [Expected] *)

(** The members of [hailo_status] the embedded code and the specification
    name. *)
Inductive hailo_status : Type :=
| HAILO_SUCCESS
| HAILO_NOT_FOUND
| HAILO_NOT_AVAILABLE.

Inductive Expected (A : Type) : Type :=
| Value (a : A)
| Unexpected (status : hailo_status).
Arguments Value {A} a.
Arguments Unexpected {A} status.

Definition make_unexpected {A : Type} (status : hailo_status) : Expected A :=
  Unexpected status.

(** ** Arithmetic of [duration / size_t]

    [m_latency_sum / m_latency_count] divides a [duration<int64_t, nano>] by a
    [size_t].  The operator of [<chrono>] computes in the common type of the
    two representations ([time.duration.nonmember]: it returns
    [CD(CD(d).count() / s)] with [CD = duration<common_type_t<Rep1, Rep2>,
    Period>]), which for [int64_t] and [size_t] is the unsigned 64-bit type;
    the quotient is then converted back to [duration].  Both conversions are
    modulo 2^64. *)

Definition to_uint64 (x : Z) : Z := x mod 2 ^ 64.

Definition to_int64 (x : Z) : Z := (x + 2 ^ 63) mod 2 ^ 64 - 2 ^ 63.

Definition duration_div (d : Z) (s : N) : Z :=
  to_int64 (to_uint64 d / Z.of_N s).

(** [operator-] and [operator+=] of two [duration]s work on the [int64_t]
    tick counts ([end - start] and [m_latency_sum += ...] in
    [update_latency]). *)
Definition duration_sub (a b : Z) : Z := to_int64 (a - b).

Definition duration_add (a b : Z) : Z := to_int64 (a + b).

(** ** LatencyMeter *)

Record LatencyMeter : Type := mkLatencyMeter {
  m_start_timestamps : TimestampsArray;
  m_end_timestamps_per_channel : gmap N TimestampsArray;
  m_latency_count : N;
  m_latency_sum : Z
}.

(** [std::unordered_map::emplace]: inserts unless the key is present. *)
Definition emplace (ch : N) (b : TimestampsArray)
    (m : gmap N TimestampsArray) : gmap N TimestampsArray :=
  match m !! ch with
  | Some _ => m
  | None => <[ch := b]> m
  end.

(** The constructor. *)
Definition new_LatencyMeter (output_channels : gset N)
    (timestamps_list_length : nat) : LatencyMeter :=
  {| m_start_timestamps := CircularArray.make timestamps_list_length;
     m_end_timestamps_per_channel :=
       set_fold (fun ch m =>
                   emplace ch (CircularArray.make timestamps_list_length) m)
                ∅ output_channels;
     m_latency_count := 0%N;
     m_latency_sum := 0 |}.

(** The first loop of [update_latency]: it walks the channels with the
    running maximum [end_], and leaves ([None]) at the first channel whose
    buffer is empty. *)
Fixpoint scan_ends (end_ : Z) (l : list (N * TimestampsArray)) : option Z :=
  match l with
  | [] => Some end_
  | (_, end_timestamps) :: l' =>
      if CircularArray.empty end_timestamps then None
      else scan_ends (Z.max end_ (CircularArray.front end_timestamps)) l'
  end.

(** The tail of [update_latency], once a start and an end of every channel
    are there: accumulate, then pop the fronts. *)
Definition consume_sample (start end_ : Z) (st : LatencyMeter) : LatencyMeter :=
  {| m_start_timestamps := CircularArray.pop_front (m_start_timestamps st);
     m_end_timestamps_per_channel :=
       CircularArray.pop_front <$> m_end_timestamps_per_channel st;
     m_latency_count := (m_latency_count st + 1)%N;
     m_latency_sum :=
       duration_add (m_latency_sum st) (duration_sub end_ start) |}.

Definition update_latency (st : LatencyMeter) : LatencyMeter :=
  if CircularArray.empty (m_start_timestamps st) then st
  else
    let start := CircularArray.front (m_start_timestamps st) in
    match scan_ends 0 (map_to_list (m_end_timestamps_per_channel st)) with
    | None => st
    | Some end_ => consume_sample start end_ st
    end.

Definition add_start_sample (timestamp : Z) (st : LatencyMeter) : LatencyMeter :=
  update_latency
    {| m_start_timestamps :=
         CircularArray.push_back timestamp (m_start_timestamps st);
       m_end_timestamps_per_channel := m_end_timestamps_per_channel st;
       m_latency_count := m_latency_count st;
       m_latency_sum := m_latency_sum st |}.

(** How a call of a [void] member ends.  [add_end_sample] has no status to
    return: its first statement is an [assert], which stops the process when
    it fails and assertions are compiled in; with [NDEBUG] the assertion is
    gone and [unordered_map::at] throws [std::out_of_range], the meter being
    left as [st]. *)
Inductive completion : Type :=
| Returns (st : LatencyMeter)
| AssertionFailed
| ThrowsOutOfRange (st : LatencyMeter).

Definition add_end_sample (ndebug : bool) (channel_index : N) (timestamp : Z)
    (st : LatencyMeter) : completion :=
  if negb ndebug
     && negb (bool_decide
                (is_Some (m_end_timestamps_per_channel st !! channel_index)))
  then AssertionFailed
  else
    match m_end_timestamps_per_channel st !! channel_index with
    | None => ThrowsOutOfRange st
    | Some end_timestamps =>
        Returns
          (update_latency
             {| m_start_timestamps := m_start_timestamps st;
                m_end_timestamps_per_channel :=
                  <[channel_index :=
                      CircularArray.push_back timestamp end_timestamps]>
                    (m_end_timestamps_per_channel st);
                m_latency_count := m_latency_count st;
                m_latency_sum := m_latency_sum st |})
    end.

Definition get_latency (clear : bool) (st : LatencyMeter)
    : Expected Z * LatencyMeter :=
  if (m_latency_count st =? 0)%N then (make_unexpected HAILO_NOT_AVAILABLE, st)
  else
    let latency := duration_div (m_latency_sum st) (m_latency_count st) in
    (Value latency,
     if clear then
       {| m_start_timestamps := m_start_timestamps st;
          m_end_timestamps_per_channel := m_end_timestamps_per_channel st;
          m_latency_count := 0%N;
          m_latency_sum := 0 |}
     else st).

(** ** Sequences of calls *)

Inductive op : Type :=
| AddStart (timestamp : Z)
| AddEnd (channel_index : N) (timestamp : Z)
| GetLatency (clear : bool).

#[global] Instance op_eq_dec : EqDecision op.
Proof. solve_decision. Defined.

Definition step (ndebug : bool) (o : op) (st : LatencyMeter) : completion :=
  match o with
  | AddStart timestamp => Returns (add_start_sample timestamp st)
  | AddEnd channel_index timestamp =>
      add_end_sample ndebug channel_index timestamp st
  | GetLatency clear => Returns (get_latency clear st).2
  end.

(** A caller that catches [std::out_of_range] goes on with the meter as the
    throwing call left it; a failed assertion ends the process ([None]). *)
Fixpoint run (ndebug : bool) (ops : list op) (st : LatencyMeter)
    : option LatencyMeter :=
  match ops with
  | [] => Some st
  | o :: ops' =>
      match step ndebug o st with
      | Returns st' => run ndebug ops' st'
      | ThrowsOutOfRange st' => run ndebug ops' st'
      | AssertionFailed => None
      end
  end.

(** The buffer a call appends to has a free slot. *)
Definition push_fits (o : op) (st : LatencyMeter) : bool :=
  match o with
  | AddStart _ => negb (CircularArray.full (m_start_timestamps st))
  | AddEnd channel_index _ =>
      match m_end_timestamps_per_channel st !! channel_index with
      | Some end_timestamps => negb (CircularArray.full end_timestamps)
      | None => true
      end
  | GetLatency _ => true
  end.

(** No call of the sequence, run from [st], overflows a buffer. *)
Fixpoint no_overflow (ndebug : bool) (ops : list op) (st : LatencyMeter)
    : bool :=
  match ops with
  | [] => true
  | o :: ops' =>
      push_fits o st
      && match step ndebug o st with
         | Returns st' => no_overflow ndebug ops' st'
         | ThrowsOutOfRange st' => no_overflow ndebug ops' st'
         | AssertionFailed => true
         end
  end.

(** Every [add_end_sample] of the sequence names a channel of the set. *)
Definition known_channel (output_channels : gset N) (o : op) : bool :=
  match o with
  | AddEnd channel_index _ => bool_decide (channel_index ∈ output_channels)
  | _ => true
  end.

(** No [get_latency(true)] in the sequence. *)
Definition no_clear (o : op) : bool :=
  match o with
  | GetLatency true => false
  | _ => true
  end.

(** ** What a sequence of calls fed, per buffer *)

Fixpoint starts (ops : list op) : list Z :=
  match ops with
  | [] => []
  | AddStart timestamp :: ops' => timestamp :: starts ops'
  | _ :: ops' => starts ops'
  end.

Fixpoint ends (ch : N) (ops : list op) : list Z :=
  match ops with
  | [] => []
  | AddEnd channel_index timestamp :: ops' =>
      if (channel_index =? ch)%N then timestamp :: ends ch ops'
      else ends ch ops'
  | _ :: ops' => ends ch ops'
  end.

(** The number of matched samples: the starts for which every channel has
    supplied its end, in frame order. *)
Definition matched (output_channels : gset N) (ops : list op) : nat :=
  foldr (fun ch n => Nat.min (length (ends ch ops)) n)
        (length (starts ops)) (elements output_channels).

(** The end of frame [i] as [update_latency] takes it: the largest of zero
    and the [i]-th end timestamps of the channels. *)
Definition max_end (output_channels : gset N) (ops : list op) (i : nat) : Z :=
  foldr (fun ch m => Z.max m (nth i (ends ch ops) 0))
        0 (elements output_channels).

(** The end of frame [i] as the largest [i]-th end timestamp of the
    channels ([None] for no channel at all). *)
Definition last_end (output_channels : gset N) (ops : list op) (i : nat)
    : option Z :=
  match elements output_channels with
  | [] => None
  | ch :: chs =>
      Some (foldr (fun ch' m => Z.max m (nth i (ends ch' ops) 0))
                  (nth i (ends ch ops) 0) chs)
  end.

Definition sum_latencies (end_of : nat -> Z) (ops : list op) (n : nat) : Z :=
  foldr Z.add 0 (map (fun i => end_of i - nth i (starts ops) 0) (seq 0 n)).

(** The sum the specification states for the matched samples: "the sum of
    [(max_end_i − start_i)]", the end of a sample being the largest end
    timestamp of the channels.  (A meter with a channel has one; the default
    is there for the meter without.) *)
Definition claimed_latency_sum (output_channels : gset N) (ops : list op) : Z :=
  sum_latencies (fun i => default 0 (last_end output_channels ops i)) ops
                (matched output_channels ops).

(** ** [update_latency], seen as one round

    What the scan of [update_latency] ends with when it meets no empty
    buffer: the largest of zero and the fronts of the channels' buffers
    ([update_latency_round]). *)

Definition max_end_front (st : LatencyMeter) : Z :=
  foldr Z.max 0
        (map (fun kb => CircularArray.front kb.2)
             (map_to_list (m_end_timestamps_per_channel st))).

(** ** The correlation algorithm as the specification words it

    "while the start buffer and every channel's buffer are non-empty, pop one
    start and the frontmost end of each channel; one sample's latency is
    [(max over channels of end_front) − start_front].  Accumulate into
    [latency_sum] and increment [latency_count]."  The state of the
    specification has the fields of the meter; it gives [latency_sum] no
    width, and the sum is accumulated exactly. *)

Definition all_nonempty (st : LatencyMeter) : bool :=
  negb (CircularArray.empty (m_start_timestamps st))
  && bool_decide (map_Forall (fun _ b => CircularArray.empty b = false)
                             (m_end_timestamps_per_channel st)).

(** "max over channels of end_front": the largest front of the channels'
    buffers; there is none when there is no channel. *)
Definition end_front (st : LatencyMeter) : option Z :=
  match map (fun kb => CircularArray.front kb.2)
            (map_to_list (m_end_timestamps_per_channel st)) with
  | [] => None
  | e :: es => Some (foldr Z.max e es)
  end.

(** One round of the loop.  For a meter without channels the specification
    names no end of a sample; the round is then made total with the end 0. *)
Definition spec_round (st : LatencyMeter) : LatencyMeter :=
  let start_front := CircularArray.front (m_start_timestamps st) in
  let latency := default 0 (end_front st) - start_front in
  {| m_start_timestamps := CircularArray.pop_front (m_start_timestamps st);
     m_end_timestamps_per_channel :=
       CircularArray.pop_front <$> m_end_timestamps_per_channel st;
     m_latency_count := (m_latency_count st + 1)%N;
     m_latency_sum := m_latency_sum st + latency |}.

Fixpoint update_loop (fuel : nat) (st : LatencyMeter) : LatencyMeter :=
  match fuel with
  | O => st
  | S fuel' =>
      if all_nonempty st then update_loop fuel' (spec_round st) else st
  end.

(** Every round pops a start, so the length of the start buffer is fuel
    enough ([update_spec_exits]). *)
Definition update_spec (st : LatencyMeter) : LatencyMeter :=
  update_loop (length (CircularArray.items (m_start_timestamps st))) st.

(** "appends [t] to the start buffer ..., then runs [update()]". *)
Definition spec_add_start_sample (timestamp : Z) (st : LatencyMeter)
    : LatencyMeter :=
  update_spec
    {| m_start_timestamps :=
         CircularArray.push_back timestamp (m_start_timestamps st);
       m_end_timestamps_per_channel := m_end_timestamps_per_channel st;
       m_latency_count := m_latency_count st;
       m_latency_sum := m_latency_sum st |}.

(** "appends [t] to that channel's buffer, then runs [update()].  Fails with
    unknown-channel if the channel is not in the constructor-supplied
    set." *)
Definition spec_add_end_sample (channel_index : N) (timestamp : Z)
    (st : LatencyMeter) : hailo_status * LatencyMeter :=
  match m_end_timestamps_per_channel st !! channel_index with
  | None => (HAILO_NOT_FOUND, st)
  | Some end_timestamps =>
      (HAILO_SUCCESS,
       update_spec
         {| m_start_timestamps := m_start_timestamps st;
            m_end_timestamps_per_channel :=
              <[channel_index :=
                  CircularArray.push_back timestamp end_timestamps]>
                (m_end_timestamps_per_channel st);
            m_latency_count := m_latency_count st;
            m_latency_sum := m_latency_sum st |})
  end.

(** "returns [latency_sum / latency_count] (nanoseconds).  Fails with
    not-available if [latency_count == 0].  If [clear], resets sum and count
    atomically with the return." *)
Definition spec_get_latency (clear : bool) (st : LatencyMeter)
    : Expected Z * LatencyMeter :=
  if (m_latency_count st =? 0)%N then (Unexpected HAILO_NOT_AVAILABLE, st)
  else
    (Value (Z.quot (m_latency_sum st) (Z.of_N (m_latency_count st))),
     if clear then
       {| m_start_timestamps := m_start_timestamps st;
          m_end_timestamps_per_channel := m_end_timestamps_per_channel st;
          m_latency_count := 0%N;
          m_latency_sum := 0 |}
     else st).

(** The state after a call; a failed call leaves it as it was. *)
Definition spec_step (o : op) (st : LatencyMeter) : LatencyMeter :=
  match o with
  | AddStart timestamp => spec_add_start_sample timestamp st
  | AddEnd channel_index timestamp =>
      (spec_add_end_sample channel_index timestamp st).2
  | GetLatency clear => (spec_get_latency clear st).2
  end.

Fixpoint spec_run (ops : list op) (st : LatencyMeter) : LatencyMeter :=
  match ops with
  | [] => st
  | o :: ops' => spec_run ops' (spec_step o st)
  end.

(** The meter [st] against the state [spec_st] of the specification's
    algorithm: the same buffers, the same count, and the meter's sum is the
    specification's as a 64-bit tick count. *)
Definition agrees (st spec_st : LatencyMeter) : Prop :=
  m_start_timestamps st = m_start_timestamps spec_st
  /\ m_end_timestamps_per_channel st = m_end_timestamps_per_channel spec_st
  /\ m_latency_count st = m_latency_count spec_st
  /\ m_latency_sum st = to_int64 (m_latency_sum spec_st).

(** No end timestamp queued in the meter is negative. *)
Definition nonnegative_ends (st : LatencyMeter) : Prop :=
  map_Forall (fun _ b => Forall (fun t => 0 <= t) (CircularArray.items b))
             (m_end_timestamps_per_channel st).

(** No sample set is waiting to be matched: the start buffer is empty or the
    buffer of some channel is. *)
Definition settled (st : LatencyMeter) : Prop :=
  CircularArray.empty (m_start_timestamps st) = true
  \/ exists ch b, m_end_timestamps_per_channel st !! ch = Some b
                  /\ CircularArray.empty b = true.

(** ** The meter against what it was fed

    [tracks output_channels cap ops n st]: after the calls [ops], of which [n]
    samples have been consumed, every buffer of [st] holds what was fed to it
    less its first [n] timestamps, and the accumulators hold those [n]
    samples, the sum as a 64-bit tick count. *)
Definition tracks (output_channels : gset N) (cap : nat) (ops : list op)
    (n : nat) (st : LatencyMeter) : Prop :=
  m_start_timestamps st = CircularArray.mk cap (drop n (starts ops))
  /\ (forall ch,
        m_end_timestamps_per_channel st !! ch
        = if bool_decide (ch ∈ output_channels)
          then Some (CircularArray.mk cap (drop n (ends ch ops)))
          else None)
  /\ m_latency_count st = N.of_nat n
  /\ m_latency_sum st
     = to_int64 (sum_latencies (max_end output_channels ops) ops n).

(** [n] is the least of the number of starts and the numbers of ends of the
    channels. *)
Definition is_matched (output_channels : gset N) (ops : list op) (n : nat)
    : Prop :=
  (n <= length (starts ops))%nat
  /\ (forall ch, ch ∈ output_channels -> (n <= length (ends ch ops))%nat)
  /\ (n = length (starts ops)
      \/ exists ch, ch ∈ output_channels /\ n = length (ends ch ops)).

(** ** The scenario of the specification: channels 7 and 9, capacity 8 *)

(** All the ways to interleave two sequences of calls, each kept in order. *)
Fixpoint interleave (xs : list op) : list op -> list (list op) :=
  fix inner (ys : list op) : list (list op) :=
    match xs, ys with
    | [], _ => [ys]
    | _, [] => [xs]
    | x :: xs', y :: ys' =>
        map (cons x) (interleave xs' ys) ++ map (cons y) (inner ys')
    end.

Definition scenario_channels : gset N := {[ 7%N; 9%N ]}.

Definition scenario_starts : list op :=
  [AddStart 100; AddStart 200; AddStart 300].
Definition scenario_ends7 : list op :=
  [AddEnd 7 150; AddEnd 7 280; AddEnd 7 360].
Definition scenario_ends9 : list op :=
  [AddEnd 9 170; AddEnd 9 260; AddEnd 9 400].

(** Every order of the nine calls that keeps the starts in order and each
    channel's ends in order. *)
Definition scenario_feeds : list (list op) :=
  concat (map (interleave scenario_ends9)
              (interleave scenario_starts scenario_ends7)).

Definition scenario_ok (ndebug : bool) (ops : list op) : bool :=
  match run ndebug ops (new_LatencyMeter scenario_channels 8) with
  | Some st =>
      (m_latency_count st =? 3)%N
      && (m_latency_sum st =? 250)
      && match (get_latency false st).1 with
         | Value latency => latency =? 83
         | Unexpected _ => false
         end
  | None => false
  end.

(** ** NetworkGroupScheduler *)

Definition DEFAULT_SCHEDULER_TIMEOUT : Z := 0.  (* milliseconds *)
Definition DEFAULT_SCHEDULER_MIN_THRESHOLD : N := 1.

Definition UINT32_MAX : N := 4294967295.
Definition INVALID_NETWORK_GROUP_HANDLE : N := UINT32_MAX.

(** [hailo_scheduling_algorithm_t] comes from [hailo/hailort.h]; the header
    embedded here names its round-robin member. *)
Inductive hailo_scheduling_algorithm_t : Type :=
| HAILO_SCHEDULING_ALGORITHM_NONE
| HAILO_SCHEDULING_ALGORITHM_ROUND_ROBIN.

(** The members the constructor initialises, in declaration order, and the
    per-stream counter maps, which it leaves default-constructed. *)
Record NetworkGroupScheduler : Type := mkNetworkGroupScheduler {
  m_is_switching_network_group : bool;
  m_current_network_group : N;
  m_next_network_group : N;
  m_algorithm : hailo_scheduling_algorithm_t;
  m_has_current_ng_finished : bool;
  m_is_currently_transferring_batch : bool;
  m_requested_write : gmap N (gmap string N);
  m_written_buffer : gmap N (gmap string N);
  m_finished_sent_pending_buffer : gmap N (gmap string N);
  m_finished_read : gmap N (gmap string N);
  m_forced_idle_state : bool
}.

Definition new_NetworkGroupScheduler (algorithm : hailo_scheduling_algorithm_t)
    : NetworkGroupScheduler :=
  {| m_is_switching_network_group := true;
     m_current_network_group := INVALID_NETWORK_GROUP_HANDLE;
     m_next_network_group := INVALID_NETWORK_GROUP_HANDLE;
     m_algorithm := algorithm;
     m_has_current_ng_finished := true;
     m_is_currently_transferring_batch := false;
     m_requested_write := ∅;
     m_written_buffer := ∅;
     m_finished_sent_pending_buffer := ∅;
     m_finished_read := ∅;
     m_forced_idle_state := false |}.

Definition new_NetworkGroupSchedulerRoundRobin : NetworkGroupScheduler :=
  new_NetworkGroupScheduler HAILO_SCHEDULING_ALGORITHM_ROUND_ROBIN.

(** ** Runs without clearing

    The same call, but for [get_latency], which is asked not to clear. *)
Definition declear (o : op) : op :=
  match o with
  | GetLatency _ => GetLatency false
  | _ => o
  end.

(** Two meters with the same buffers (the accumulators may differ). *)
Definition same_buffers (st st' : LatencyMeter) : Prop :=
  m_start_timestamps st = m_start_timestamps st'
  /\ m_end_timestamps_per_channel st = m_end_timestamps_per_channel st'.

(** [update_latency] with the channels walked in the order [order]. *)
Definition update_latency_in_order (order : list (N * TimestampsArray))
    (st : LatencyMeter) : LatencyMeter :=
  if CircularArray.empty (m_start_timestamps st) then st
  else
    let start := CircularArray.front (m_start_timestamps st) in
    match scan_ends 0 order with
    | None => st
    | Some end_ => consume_sample start end_ st
    end.

(** ** InferVStreams ([libhailort/src/inference_pipeline.cpp])

    [std::map<std::string, T>] arguments are walked in key order; they are
    embedded as the list of their bindings in that order.  The two member
    maps are only looked up, indexed and sized, and are [gmap]s.  [size_t]
    counters are [N]; a counter that moves by one per element is not wrapped,
    the product [batch_count * frame_size] is. *)

Module InferVStreams.

(** The members of [hailo_status] the file names; [HAILO_STATUS code] is any
    other member, as the read or write of a stream may return. *)
Inductive status : Type :=
| HAILO_SUCCESS
| HAILO_INVALID_ARGUMENT
| HAILO_NOT_FOUND
| HAILO_STREAM_INTERNAL_ABORT
| HAILO_STATUS (code : N).

#[global] Instance status_eq_dec : EqDecision status.
Proof. solve_decision. Defined.

Inductive Expected (A : Type) : Type :=
| Value (a : A)
| Unexpected (s : status).
Arguments Value {A} a.
Arguments Unexpected {A} s.

(** What the file reads of an [InputVStream] or an [OutputVStream]. *)
Record VStream : Type := mkVStream {
  name : string;
  network_name : string;
  get_frame_size : N
}.

(** What the file reads of a [MemoryView]: its size. *)
Record MemoryView : Type := mkMemoryView {
  MemoryView_size : N
}.

Record t : Type := mk {
  m_inputs : list VStream;
  m_outputs : list VStream;
  m_is_multi_context : bool;
  m_network_name_to_input_count : gmap string N;
  m_network_name_to_output_count : gmap string N
}.

(** One round of a constructor loop: [++count[network]] if the network is
    in the map, [emplace(network, 1)] if not. *)
Definition count_network (m : gmap string N) (v : VStream) : gmap string N :=
  match m !! network_name v with
  | Some c => <[network_name v := (c + 1)%N]> m
  | None => <[network_name v := 1%N]> m
  end.

Definition new (inputs outputs : list VStream) (is_multi_context : bool) : t :=
  {| m_inputs := inputs;
     m_outputs := outputs;
     m_is_multi_context := is_multi_context;
     m_network_name_to_input_count := foldl count_network ∅ inputs;
     m_network_name_to_output_count := foldl count_network ∅ outputs |}.

(** The loop of [get_input_by_name] and of [get_output_by_name]. *)
Fixpoint find_by_name (vstreams : list VStream) (nm : string)
    : Expected VStream :=
  match vstreams with
  | [] => Unexpected HAILO_NOT_FOUND
  | v :: rest =>
      if String.eqb (name v) nm then Value v else find_by_name rest nm
  end.

Definition get_input_by_name (self : t) (nm : string) : Expected VStream :=
  find_by_name (m_inputs self) nm.

Definition get_output_by_name (self : t) (nm : string) : Expected VStream :=
  find_by_name (m_outputs self) nm.

(** [verify_network_inputs_and_outputs], first loop: one more input for the
    network of each named input vstream. *)
Definition count_input (m : gmap string (N * N)) (network : string)
    : gmap string (N * N) :=
  match m !! network with
  | Some (inputs, outputs) => <[network := ((inputs + 1)%N, outputs)]> m
  | None => <[network := (1%N, 0%N)]> m
  end.

Fixpoint count_inputs (self : t) (views : list (string * MemoryView))
    (m : gmap string (N * N)) : Expected (gmap string (N * N)) :=
  match views with
  | [] => Value m
  | (nm, _) :: rest =>
      match get_input_by_name self nm with
      | Unexpected s => Unexpected s
      | Value input_vstream =>
          count_inputs self rest (count_input m (network_name input_vstream))
      end
  end.

(** Second loop: the same for the named output vstreams. *)
Definition count_output (m : gmap string (N * N)) (network : string)
    : gmap string (N * N) :=
  match m !! network with
  | Some (inputs, outputs) => <[network := (inputs, (outputs + 1)%N)]> m
  | None => <[network := (0%N, 1%N)]> m
  end.

Fixpoint count_outputs (self : t) (views : list (string * MemoryView))
    (m : gmap string (N * N)) : Expected (gmap string (N * N)) :=
  match views with
  | [] => Value m
  | (nm, _) :: rest =>
      match get_output_by_name self nm with
      | Unexpected s => Unexpected s
      | Value output_vstream =>
          count_outputs self rest
            (count_output m (network_name output_vstream))
      end
  end.

(** [std::map::operator[]]: the value at the key, which is inserted with
    the value 0 when it is not there. *)
Definition index (network : string) (m : gmap string N)
    : N * gmap string N :=
  match m !! network with
  | Some c => (c, m)
  | None => (0%N, <[network := 0%N]> m)
  end.

(** The bindings of a [std::map<std::string, V>] as a range-for meets them:
    by increasing key, [std::string] being ordered byte by byte. *)
Definition key_le {V : Type} (a b : string * V) : Prop :=
  String.leb a.1 b.1 = true.

#[global] Instance key_le_dec {V : Type} : RelDecision (@key_le V).
Proof. intros a b. unfold key_le. apply _. Defined.

Definition in_key_order {V : Type} (m : gmap string V) : list (string * V) :=
  merge_sort key_le (map_to_list m).

(** Third loop: the counts of every network met against the counts of the
    constructor, read with [operator[]]. *)
Fixpoint check_counts (counts : list (string * (N * N))) (self : t)
    : status * t :=
  match counts with
  | [] => (HAILO_SUCCESS, self)
  | (network, (inputs, outputs)) :: rest =>
      let (input_count, input_counts) :=
        index network (m_network_name_to_input_count self) in
      let self1 :=
        {| m_inputs := m_inputs self;
           m_outputs := m_outputs self;
           m_is_multi_context := m_is_multi_context self;
           m_network_name_to_input_count := input_counts;
           m_network_name_to_output_count :=
             m_network_name_to_output_count self |} in
      if negb (inputs =? input_count)%N then (HAILO_INVALID_ARGUMENT, self1)
      else
        let (output_count, output_counts) :=
          index network (m_network_name_to_output_count self1) in
        let self2 :=
          {| m_inputs := m_inputs self1;
             m_outputs := m_outputs self1;
             m_is_multi_context := m_is_multi_context self1;
             m_network_name_to_input_count :=
               m_network_name_to_input_count self1;
             m_network_name_to_output_count := output_counts |} in
        if negb (outputs =? output_count)%N
        then (HAILO_INVALID_ARGUMENT, self2)
        else check_counts rest self2
  end.

Definition verify_network_inputs_and_outputs (self : t)
    (inputs_name_mem_view_map outputs_name_mem_view_map
       : list (string * MemoryView)) : status * t :=
  match count_inputs self inputs_name_mem_view_map ∅ with
  | Unexpected s => (s, self)
  | Value counts1 =>
      match count_outputs self outputs_name_mem_view_map counts1 with
      | Unexpected s => (s, self)
      | Value input_output_count_per_network =>
          if negb (negb (m_is_multi_context self)
                   || (size input_output_count_per_network
                       =? size (m_network_name_to_input_count self))%nat)
          then (HAILO_INVALID_ARGUMENT, self)
          else check_counts (in_key_order input_output_count_per_network) self
      end
  end.

(** [verify_vstream_params_in_vstream_infos]; of a [hailo_vstream_info_t]
    the name is read. *)
Fixpoint verify_vstream_params_in_vstream_infos {P : Type}
    (params : list (string * P)) (vstream_infos : list string) : status :=
  match params with
  | [] => HAILO_SUCCESS
  | (nm, _) :: rest =>
      let found :=
        existsb (fun vstream_info_name => String.eqb vstream_info_name nm)
                vstream_infos in
      if negb found then HAILO_NOT_FOUND
      else verify_vstream_params_in_vstream_infos rest vstream_infos
  end.

(** One loop of [verify_memory_view_size]; the product is the one of
    [size_t]. *)
Fixpoint check_memory_view_sizes (vstreams : list VStream)
    (views : list (string * MemoryView)) (batch_count : N) : status :=
  match views with
  | [] => HAILO_SUCCESS
  | (nm, view) :: rest =>
      match find_by_name vstreams nm with
      | Unexpected s => s
      | Value vstream =>
          if negb ((batch_count * get_frame_size vstream) mod 2 ^ 64
                   =? MemoryView_size view)%N
          then HAILO_INVALID_ARGUMENT
          else check_memory_view_sizes vstreams rest batch_count
      end
  end.

Definition verify_memory_view_size (self : t)
    (inputs_name_mem_view_map outputs_name_mem_view_map
       : list (string * MemoryView)) (batch_count : N) : status :=
  match check_memory_view_sizes (m_inputs self) inputs_name_mem_view_map
                                batch_count with
  | HAILO_SUCCESS =>
      check_memory_view_sizes (m_outputs self) outputs_name_mem_view_map
                              batch_count
  | s => s
  end.

(** The end of [infer]: the statuses of the threads are collected, an
    aborted stream is passed over, and the last failure met is returned. *)
Fixpoint wait_for_results (results : list status) (error_status : status)
    : status :=
  match results with
  | [] => error_status
  | s :: rest =>
      if bool_decide (s = HAILO_STREAM_INTERNAL_ABORT)
      then wait_for_results rest error_status
      else if bool_decide (s <> HAILO_SUCCESS)
           then wait_for_results rest s
           else wait_for_results rest error_status
  end.

Definition infer_status (results : list status) : status :=
  let error_status := wait_for_results results HAILO_SUCCESS in
  if bool_decide (error_status <> HAILO_SUCCESS) then error_status
  else HAILO_SUCCESS.

(** [InferVStreams::create], up to the construction of the vstreams.

    What [create] asks of the network group: the names of its networks, the
    names of the input and of the output vstreams of a network, the names of
    all its input vstreams, and whether it is multi-context.  Each query but
    the last may fail with a status. *)
Record ConfiguredNetworkGroup : Type := mkConfiguredNetworkGroup {
  get_network_infos : Expected (list string);
  get_input_vstream_infos : string -> Expected (list string);
  get_output_vstream_infos : string -> Expected (list string);
  get_all_input_vstream_infos : Expected (list string);
  multi_context : bool
}.

(** [contains(params, name)] on a [std::map]. *)
Definition contains {P : Type} (params : list (string * P)) (nm : string)
    : bool :=
  existsb (fun p => String.eqb p.1 nm) params.

(** The counter of one inner loop: the vstream infos whose name is a key of
    the parameters. *)
Definition count_found {P : Type} (params : list (string * P))
    (vstream_infos : list string) : N :=
  N.of_nat (length (List.filter (contains params) vstream_infos)).

(** The loop over the networks, with the two totals. *)
Fixpoint check_networks {P : Type} (net_group : ConfiguredNetworkGroup)
    (input_params output_params : list (string * P))
    (network_infos : list string) (total_inputs_found total_outputs_found : N)
    : Expected (N * N) :=
  match network_infos with
  | [] => Value (total_inputs_found, total_outputs_found)
  | network :: rest =>
      match get_input_vstream_infos net_group network with
      | Unexpected s => Unexpected s
      | Value input_vstream_infos_per_network =>
          let input_counter :=
            count_found input_params input_vstream_infos_per_network in
          match get_output_vstream_infos net_group network with
          | Unexpected s => Unexpected s
          | Value output_vstream_infos_per_network =>
              let output_counter :=
                count_found output_params output_vstream_infos_per_network in
              let continue :=
                check_networks net_group input_params output_params rest
                  (total_inputs_found + input_counter)%N
                  (total_outputs_found + output_counter)%N in
              if negb (0 =? input_counter)%N || negb (0 =? output_counter)%N
              then
                if negb (input_counter
                         =? N.of_nat (length input_vstream_infos_per_network))%N
                then Unexpected HAILO_INVALID_ARGUMENT
                else if negb (output_counter
                              =? N.of_nat
                                   (length output_vstream_infos_per_network))%N
                     then Unexpected HAILO_INVALID_ARGUMENT
                     else continue
              else
                if negb (negb (multi_context net_group))
                then Unexpected HAILO_INVALID_ARGUMENT
                else continue
          end
      end
  end.

(** [verify_vstream_params_in_vstream_infos] on the result of a query for
    vstream infos: the query may have failed, and so may the check. *)
Definition check_params {P : Type} (params : list (string * P))
    (all_vstream_infos : Expected (list string)) : Expected unit :=
  match all_vstream_infos with
  | Unexpected s => Unexpected s
  | Value vstream_infos =>
      let status :=
        verify_vstream_params_in_vstream_infos params vstream_infos in
      if bool_decide (status <> HAILO_SUCCESS) then Unexpected status
      else Value tt
  end.

(** [create] before it builds the vstreams: [Value tt] when it goes on to
    build them, and the status it leaves with otherwise.  Both sets of
    parameters are checked against the input vstream infos of the group. *)
Definition create_checks {P : Type} (net_group : ConfiguredNetworkGroup)
    (input_params output_params : list (string * P)) : Expected unit :=
  match get_network_infos net_group with
  | Unexpected s => Unexpected s
  | Value network_infos =>
      match check_networks net_group input_params output_params
                           network_infos 0 0 with
      | Unexpected s => Unexpected s
      | Value (total_inputs_found, total_outputs_found) =>
          match
            (if negb (total_inputs_found
                      =? N.of_nat (length input_params))%N
             then check_params input_params
                               (get_all_input_vstream_infos net_group)
             else Value tt)
          with
          | Unexpected s => Unexpected s
          | Value _ =>
              if negb (total_outputs_found
                       =? N.of_nat (length output_params))%N
              then check_params output_params
                                (get_all_input_vstream_infos net_group)
              else Value tt
          end
      end
  end.

End InferVStreams.

(** *** What [verify_network_inputs_and_outputs] counts *)

(** The network of the vstream a name finds. *)
Definition network_of (vstreams : list InferVStreams.VStream) (nm : string)
    : option string :=
  match InferVStreams.find_by_name vstreams nm with
  | InferVStreams.Value v => Some (InferVStreams.network_name v)
  | InferVStreams.Unexpected _ => None
  end.

(** How many of the named buffers name a vstream of the network [net]. *)
Definition provided (vstreams : list InferVStreams.VStream)
    (views : list (string * InferVStreams.MemoryView)) (net : string) : N :=
  N.of_nat
    (length (filter (fun nv => network_of vstreams nv.1 = Some net) views)).

(** The networks of the vstreams the named buffers find. *)
Definition networks_met (self : InferVStreams.t)
    (inputs outputs : list (string * InferVStreams.MemoryView))
    : gset string :=
  list_to_set
    (omap (fun nv => network_of (InferVStreams.m_inputs self) nv.1) inputs
     ++ omap (fun nv => network_of (InferVStreams.m_outputs self) nv.1)
             outputs).

(** The count a map holds for a network, 0 for a network it has not. *)
Definition count_of (m : gmap string N) (net : string) : N :=
  default 0%N (m !! net).

(** [m'] is [m] with, at most, some keys added at the value 0. *)
Definition adds_zeros (m m' : gmap string N) : Prop :=
  forall net, m' !! net = m !! net
              \/ (m !! net = None /\ m' !! net = Some 0%N).

(** ** InferStatsPrinter ([hailortcli/infer_stats_printer.cpp])

    What a function writes to a stream is embedded as the list of the things
    it writes with [<<], in order; [written] gives the characters.  The
    characters of a number are left to the stream: a written number is a
    token that carries the value, and its text is a parameter of
    [written]. *)

Module InferStatsPrinter.

Section Printer.

(** [double]; the text of a status, [hailo_get_status_message]; and the
    constants of headers that are not among the sources. *)
Variable double : Type.
Variable hailo_get_status_message : N -> string.
Variable HAILO_SUCCESS : N.
Variable NO_INDEX : N.
Variable DEFAULT_PRECISION : N.

Inductive token : Type :=
| Lit (s : string)                       (* a string literal of the source *)
| Str (s : string)                       (* a [std::string] value *)
| Int (n : N)                            (* an unsigned integer *)
| Dbl (x : double)                       (* a [double] *)
| Fixed (precision : N) (x : double)     (* a [double] in fixed notation *)
| Ms (latency : Z)                       (* [latency_result_to_ms] of a latency *)
| Endl.

(** A measurement: minimum, average and maximum. *)
Record measurement : Type := mkMeasurement {
  min_value : double;
  average_value : double;
  max_value : double
}.

(** What the file reads of a [NetworkGroupInferResult]: the value of each
    statistic if there is one, and for each kind of measurement the map from
    device to measurement, a null pointer being [None]. *)
Record NetworkGroupInferResult : Type := mkResult {
  fps : option double;
  frames_count : option N;
  send_data_rate_mbit_sec : option double;
  recv_data_rate_mbit_sec : option double;
  hw_latency : option Z;
  overall_latency : option Z;
  m_power_measurements : list (string * option measurement);
  m_current_measurements : list (string * option measurement);
  m_temp_measurements : list (string * option measurement)
}.

(** [Expected<NetworkGroupInferResult>], with its status as a number. *)
Inductive Expected (A : Type) : Type :=
| Value (a : A)
| Unexpected (status : N).
Arguments Value {A} a.
Arguments Unexpected {A} status.

Definition status {A : Type} (e : Expected A) : N :=
  match e with
  | Value _ => HAILO_SUCCESS
  | Unexpected s => s
  end.

(** [if (auto x = ...) stream << x.value();] *)
Definition if_value {A : Type} (write : A -> token) (x : option A)
    : list token :=
  match x with
  | Some a => [write a]
  | None => []
  end.

(** The three columns of a kind of measurement. *)
Definition measurement_columns (measurements : list (string * option measurement))
    : list token :=
  if (length measurements =? 1)%nat then
    flat_map (fun pair =>
                match pair.2 with
                | Some data =>
                    [Lit ","; Dbl (min_value data);
                     Lit ","; Dbl (average_value data);
                     Lit ","; Dbl (max_value data)]
                | None => [Lit ",,,"]
                end)
             measurements
  else [Lit ",,,"].

Definition print_csv_header : list token :=
  [Lit "net_name,status,status_description,fps,num_of_frames,send_rate,recv_rate,hw_latency,overall_latency,min_power,average_power,max_power,min_current,average_current,max_current,min_temp,average_temp,max_temp";
   Endl].

Definition print_benchmark_csv_header : list token :=
  [Lit "net_name,fps,hw_only_fps,num_of_frames,num_of_frames_hw_only,hw_latency,overall_latency,min_power,average_power,max_power";
   Endl].

Definition print_csv (network_group_name : string)
    (inference_result : Expected NetworkGroupInferResult) : list token :=
  let status_description :=
    hailo_get_status_message (status inference_result) in
  [Str network_group_name; Lit ","; Int (status inference_result); Lit ",";
   Str status_description]
  ++ match inference_result with
     | Unexpected _ => [Lit ",,,,,,,,,,,"]
     | Value result =>
         [Lit ","]
         ++ if_value Dbl (fps result) ++ [Lit ","]
         ++ if_value Int (frames_count result) ++ [Lit ","]
         ++ if_value Dbl (send_data_rate_mbit_sec result) ++ [Lit ","]
         ++ if_value Dbl (recv_data_rate_mbit_sec result) ++ [Lit ","]
         ++ if_value Ms (hw_latency result) ++ [Lit ","]
         ++ if_value Ms (overall_latency result)
         ++ measurement_columns (m_power_measurements result)
         ++ measurement_columns (m_current_measurements result)
         ++ measurement_columns (m_temp_measurements result)
     end
  ++ [Endl].

Definition print_benchmark_csv (network_group_name : string)
    (hw_inference_result streaming_inference_result hw_latency_result
       : NetworkGroupInferResult) : list token :=
  [Str network_group_name; Lit ","]
  ++ if_value Dbl (fps streaming_inference_result) ++ [Lit ","]
  ++ if_value Dbl (fps hw_inference_result) ++ [Lit ","]
  ++ if_value Int (frames_count streaming_inference_result) ++ [Lit ","]
  ++ if_value Int (frames_count hw_inference_result) ++ [Lit ","]
  ++ if_value Ms (hw_latency hw_latency_result) ++ [Lit ","]
  ++ if_value Ms (overall_latency hw_latency_result)
  ++ measurement_columns (m_power_measurements streaming_inference_result)
  ++ [Endl].

(** [InferResultsFormatUtils::format_statistic] for a [double]: what the
    string it returns holds. *)
Definition format_statistic (statistic : option double) (precision : N)
    : token :=
  match statistic with
  | None => Lit "-"
  | Some x => Fixed precision x
  end.

(** What the file reads of an accumulator: its data type and the statistics
    of [accumulator->get()]. *)
Record Accumulator : Type := mkAccumulator {
  get_data_type : string;
  count : option N;
  mean : option double;
  min : option double;
  max : option double;
  var : option double;
  sd : option double;
  mean_sd : option double
}.

(** The header [print] writes to the pipeline statistics file. *)
Definition pipeline_stats_header : list token :=
  [Lit "net_name,vstream_name,param_type,element,mean,min,max,var,sd,mean_sd,index";
   Endl].

Definition write_accumulator_results (accumulator : Accumulator)
    (network_group_name vstream_name elem_name : string) (index : N)
    : list token :=
  if match count accumulator with
     | None => true
     | Some c => (c =? 0)%N
     end
  then []
  else
    [Str network_group_name; Lit ",";
     Str vstream_name; Lit ",";
     Str (get_data_type accumulator); Lit ",";
     Str elem_name; Lit ",";
     format_statistic (mean accumulator) DEFAULT_PRECISION; Lit ",";
     format_statistic (min accumulator) DEFAULT_PRECISION; Lit ",";
     format_statistic (max accumulator) DEFAULT_PRECISION; Lit ",";
     format_statistic (var accumulator) DEFAULT_PRECISION; Lit ",";
     format_statistic (sd accumulator) DEFAULT_PRECISION; Lit ",";
     format_statistic (mean_sd accumulator) DEFAULT_PRECISION; Lit ","]
    ++ (if negb (NO_INDEX =? index)%N then [Int index] else [])
    ++ [Endl].

(** [print_pipeline_elem_stats_csv] over the accumulators of each element of
    each vstream, written with their index in the element. *)
Definition print_pipeline_elem_stats_csv (network_group_name : string)
    (inference_result : list (string * list (string * list Accumulator)))
    : list token :=
  flat_map
    (fun vstream_name_results_pair =>
       flat_map
         (fun elem_name_accumulator_pair =>
            flat_map
              (fun ia =>
                 write_accumulator_results ia.2 network_group_name
                   vstream_name_results_pair.1 elem_name_accumulator_pair.1
                   (N.of_nat ia.1))
              (imap pair elem_name_accumulator_pair.2))
         vstream_name_results_pair.2)
    inference_result.

End Printer.

Arguments Value {A} a.
Arguments Unexpected {A} status.
Arguments Lit {double} s.
Arguments Str {double} s.
Arguments Int {double} n.
Arguments Ms {double} latency.
Arguments Endl {double}.

(** *** The characters written *)

Fixpoint count_char (c : Ascii.ascii) (s : string) : nat :=
  match s with
  | EmptyString => 0
  | String c' s' => (if Ascii.eqb c' c then 1 else 0) + count_char c s'
  end%nat.

Definition comma : Ascii.ascii := Ascii.ascii_of_nat 44.

(** The character [std::endl] writes. *)
Definition newline : Ascii.ascii := Ascii.ascii_of_nat 10.

Definition count_commas (s : string) : nat := count_char comma s.

Definition count_newlines (s : string) : nat := count_char newline s.

(** A text with no comma and no line end in it. *)
Definition plain (s : string) : Prop :=
  count_commas s = 0%nat /\ count_newlines s = 0%nat.

Section Written.

Variable double : Type.

(** The characters [operator<<] writes for a number: for an unsigned integer,
    for a [double] in the default and in the fixed notation, and for the
    milliseconds of a latency. *)
Variable number_text : token double -> string.

(** A string, literal or not, is written as it is, with no quoting or
    escaping. *)
Definition token_text (t : token double) : string :=
  match t with
  | Lit s => s
  | Str s => s
  | Endl => String newline EmptyString
  | _ => number_text t
  end.

Fixpoint written (out : list (token double)) : string :=
  match out with
  | [] => EmptyString
  | t :: out' => token_text t +:+ written out'
  end.

(** The column separators and the line ends among the characters written. *)
Definition separators (out : list (token double)) : nat :=
  count_commas (written out).

Definition lines (out : list (token double)) : nat :=
  count_newlines (written out).

(** Numbers are written with digits, a sign, a point and an exponent, as in
    the classic locale: no comma, no line end. *)
Definition plain_numbers : Prop :=
  forall t,
    match t with
    | Lit _ | Str _ | Endl => True
    | _ => plain (number_text t)
    end.

End Written.

(** The text of the lines [rows], each ended by a line end. *)
Definition unlines (rows : list string) : string :=
  foldr (fun row text => row +:+ String newline text) EmptyString rows.

(** The names [print_pipeline_elem_stats_csv] writes for its argument, and
    the accumulators it writes a line for. *)
Definition plain_names {double : Type}
    (inference_result : list (string * list (string * list (Accumulator double))))
    : Prop :=
  Forall (fun vstream =>
            plain vstream.1
            /\ Forall (fun elem =>
                         plain elem.1
                         /\ Forall (fun accumulator =>
                                      plain (get_data_type double accumulator))
                                   elem.2)
                      vstream.2)
         inference_result.

Definition has_count {double : Type} (accumulator : Accumulator double)
    : bool :=
  match count double accumulator with
  | None => false
  | Some c => negb (c =? 0)%N
  end.

Definition counted {double : Type}
    (inference_result : list (string * list (string * list (Accumulator double))))
    : nat :=
  length (filter (fun accumulator => has_count accumulator = true)
                 (flat_map (fun vstream => flat_map snd vstream.2)
                           inference_result)).

End InferStatsPrinter.

(** The counts of the literals the printers write between two columns. *)
Ltac count_literals :=
  change (InferStatsPrinter.separators _ _ []) with 0%nat;
  change (InferStatsPrinter.lines _ _ []) with 0%nat;
  change (InferStatsPrinter.count_commas ",") with 1%nat;
  change (InferStatsPrinter.count_newlines ",") with 0%nat;
  change (InferStatsPrinter.count_commas "-") with 0%nat;
  change (InferStatsPrinter.count_newlines "-") with 0%nat.

(** *** What [InferVStreams::create] counts *)

(** The vstream infos a query returned, none if it failed. *)
Definition infos_of (e : InferVStreams.Expected (list string)) : list string :=
  match e with
  | InferVStreams.Value l => l
  | InferVStreams.Unexpected _ => []
  end.

(** The vstream infos, over all the networks, whose name is a key of the
    parameters: each is counted once for each network that has it. *)
Definition total_found {P : Type} (params : list (string * P))
    (infos : string -> InferVStreams.Expected (list string))
    (network_infos : list string) : N :=
  N.of_nat
    (length (flat_map (fun network =>
                         List.filter (InferVStreams.contains params)
                                     (infos_of (infos network)))
                      network_infos)).

(** What a network is to the parameters when the loop of [create] passes
    it: named as a whole, or not named at all. *)
Definition network_all_or_nothing {P : Type}
    (net_group : InferVStreams.ConfiguredNetworkGroup)
    (input_params output_params : list (string * P)) (network : string)
    : Prop :=
  exists ins outs,
    InferVStreams.get_input_vstream_infos net_group network
    = InferVStreams.Value ins
    /\ InferVStreams.get_output_vstream_infos net_group network
       = InferVStreams.Value outs
    /\ ((Forall (fun nm => InferVStreams.contains input_params nm = true) ins
         /\ Forall (fun nm => InferVStreams.contains output_params nm = true)
                   outs
         /\ (ins <> [] \/ outs <> []))
        \/ (Forall (fun nm => InferVStreams.contains input_params nm = false)
                   ins
            /\ Forall (fun nm => InferVStreams.contains output_params nm
                                 = false) outs
            /\ InferVStreams.multi_context net_group = false)).

(** * Properties *)

(** ** 64-bit tick counts *)

Lemma to_int64_small (x : Z) : - 2 ^ 63 <= x < 2 ^ 63 -> to_int64 x = x.
Proof. intros Hx. unfold to_int64. rewrite Z.mod_small; lia. Qed.

Lemma to_int64_range (x : Z) : - 2 ^ 63 <= to_int64 x < 2 ^ 63.
Proof.
  unfold to_int64.
  pose proof (Z.mod_pos_bound (x + 2 ^ 63) (2 ^ 64) ltac:(lia)). lia.
Qed.

Lemma to_int64_shift (x k : Z) : to_int64 (x + k * 2 ^ 64) = to_int64 x.
Proof.
  unfold to_int64.
  replace (x + k * 2 ^ 64 + 2 ^ 63) with (x + 2 ^ 63 + k * 2 ^ 64) by lia.
  rewrite Z_mod_plus_full. reflexivity.
Qed.

Lemma to_int64_congruent (x : Z) : exists k, to_int64 x = x + k * 2 ^ 64.
Proof.
  exists (- ((x + 2 ^ 63) / 2 ^ 64)). unfold to_int64.
  pose proof (Z.div_mod (x + 2 ^ 63) (2 ^ 64) ltac:(lia)). lia.
Qed.

(** Wrapping the operands and the result is wrapping the result. *)
Lemma duration_add_sub (s e b : Z) :
  duration_add (to_int64 s) (duration_sub e b) = to_int64 (s + (e - b)).
Proof.
  unfold duration_add, duration_sub.
  destruct (to_int64_congruent s) as [k ->].
  destruct (to_int64_congruent (e - b)) as [k' ->].
  replace (s + k * 2 ^ 64 + (e - b + k' * 2 ^ 64))
    with (s + (e - b) + (k + k') * 2 ^ 64) by lia.
  apply to_int64_shift.
Qed.

(** ** CircularArray *)

Lemma empty_items (b : CircularArray.t) :
  CircularArray.empty b = true <-> CircularArray.items b = [].
Proof.
  unfold CircularArray.empty. destruct (CircularArray.items b); split; congruence.
Qed.

Lemma nonempty_items (b : CircularArray.t) :
  CircularArray.empty b = false <-> CircularArray.items b <> [].
Proof.
  unfold CircularArray.empty. destruct (CircularArray.items b); split; congruence.
Qed.

Lemma push_back_fits (x : Z) (b : CircularArray.t) :
  CircularArray.full b = false ->
  CircularArray.push_back x b
  = {| CircularArray.capacity := CircularArray.capacity b;
       CircularArray.items := CircularArray.items b ++ [x] |}.
Proof.
  unfold CircularArray.full, CircularArray.push_back. intros Hfull.
  apply Nat.leb_gt in Hfull. cbn zeta. rewrite length_app. cbn [length].
  destruct (Nat.leb_spec (length (CircularArray.items b) + 1)
                         (CircularArray.capacity b)) as [_ | Hgt];
    [reflexivity | lia].
Qed.

(** Appending to an empty buffer and popping leaves it empty, whatever the
    capacity. *)
Lemma pop_push_empty (x : Z) (b : CircularArray.t) :
  CircularArray.empty b = true ->
  CircularArray.empty (CircularArray.pop_front (CircularArray.push_back x b))
  = true.
Proof.
  intros Hb. apply empty_items in Hb. apply empty_items.
  unfold CircularArray.pop_front, CircularArray.push_back. cbn.
  rewrite Hb. cbn. destruct (CircularArray.capacity b); reflexivity.
Qed.

Lemma pop_front_length (b : CircularArray.t) :
  length (CircularArray.items (CircularArray.pop_front b))
  = pred (length (CircularArray.items b)).
Proof. cbn. destruct (CircularArray.items b); reflexivity. Qed.

(** ** The constructor *)

Lemma new_LatencyMeter_channels (output_channels : gset N) (len : nat) :
  m_end_timestamps_per_channel (new_LatencyMeter output_channels len)
  = gset_to_gmap (CircularArray.make len) output_channels.
Proof.
  cbn.
  apply (set_fold_ind_L
           (fun m X => m = gset_to_gmap (CircularArray.make len) X)).
  - symmetry. apply gset_to_gmap_empty.
  - intros ch X m Hch ->. unfold emplace.
    rewrite (proj2 (lookup_gset_to_gmap_None _ _ _) Hch).
    symmetry. apply gset_to_gmap_union_singleton.
Qed.

Lemma new_LatencyMeter_lookup (output_channels : gset N) (len : nat) (ch : N) :
  m_end_timestamps_per_channel (new_LatencyMeter output_channels len) !! ch
  = if bool_decide (ch ∈ output_channels)
    then Some (CircularArray.make len) else None.
Proof.
  rewrite new_LatencyMeter_channels, lookup_gset_to_gmap.
  case_bool_decide; [rewrite option_guard_True | rewrite option_guard_False];
    done.
Qed.

Lemma new_LatencyMeter_dom (output_channels : gset N) (len : nat) :
  dom (m_end_timestamps_per_channel (new_LatencyMeter output_channels len))
  = output_channels.
Proof. rewrite new_LatencyMeter_channels. apply dom_gset_to_gmap. Qed.

(** ** The scan of the channels *)

Lemma foldr_max_acc (e x : Z) (l : list Z) :
  foldr Z.max (Z.max e x) l = Z.max x (foldr Z.max e l).
Proof. induction l as [| y l IH]; cbn; [lia | rewrite IH; lia]. Qed.

Lemma scan_ends_None (e : Z) (l : list (N * CircularArray.t)) :
  scan_ends e l = None
  <-> exists kb, kb ∈ l /\ CircularArray.empty kb.2 = true.
Proof.
  revert e. induction l as [| [k b] l IH]; intros e; cbn.
  - split; [discriminate | intros (kb & Hin & _); inversion Hin].
  - destruct (CircularArray.empty b) eqn:Hb.
    + split; [intros _ | reflexivity]. exists (k, b). split; [left | exact Hb].
    + rewrite IH. split; intros (kb & Hin & Hkb).
      * exists kb. split; [right; exact Hin | exact Hkb].
      * inversion Hin; subst; [cbn in Hkb; congruence | eauto].
Qed.

Lemma scan_ends_Some (e r : Z) (l : list (N * CircularArray.t)) :
  scan_ends e l = Some r ->
  r = foldr Z.max e (map (fun kb => CircularArray.front kb.2) l).
Proof.
  revert e. induction l as [| [k b] l IH]; intros e; cbn.
  - congruence.
  - destruct (CircularArray.empty b); [discriminate |].
    intros H. apply IH in H. rewrite H. apply foldr_max_acc.
Qed.

(** The order in which the channels are walked does not matter. *)
Lemma scan_ends_perm (e : Z) (l l' : list (N * CircularArray.t)) :
  l ≡ₚ l' -> scan_ends e l = scan_ends e l'.
Proof.
  intros Hperm. revert e.
  induction Hperm as [| [k b] l l' _ IH | [k b] [k' b'] l | l l' l'' _ IH1 _ IH2];
    intros e; cbn.
  - reflexivity.
  - destruct (CircularArray.empty b); [reflexivity | apply IH].
  - destruct (CircularArray.empty b), (CircularArray.empty b'); try reflexivity.
    f_equal. lia.
  - rewrite IH1. apply IH2.
Qed.

Lemma all_nonempty_false (st : LatencyMeter) :
  all_nonempty st = false <-> settled st.
Proof.
  unfold all_nonempty, settled. rewrite andb_false_iff, negb_false_iff.
  rewrite bool_decide_eq_false. split.
  - intros [H | H]; [left; exact H | right].
    apply map_not_Forall in H; [| apply _].
    destruct H as (ch & b & Hch & Hb). exists ch, b.
    split; [exact Hch |]. destruct (CircularArray.empty b); congruence.
  - intros [H | (ch & b & Hch & Hb)]; [left; exact H | right].
    intros Hall. specialize (Hall ch b Hch). cbn in Hall. congruence.
Qed.

(** [update_latency] is one round: when the start buffer and the buffer of
    every channel hold a timestamp it consumes one sample, whose end is the
    largest of zero and the fronts of the channels. *)
Lemma update_latency_round (st : LatencyMeter) :
  update_latency st
  = if all_nonempty st then
      consume_sample (CircularArray.front (m_start_timestamps st))
                     (max_end_front st) st
    else st.
Proof.
  unfold update_latency, all_nonempty.
  destruct (CircularArray.empty (m_start_timestamps st)); [reflexivity |].
  cbn [negb andb].
  destruct (scan_ends 0 (map_to_list (m_end_timestamps_per_channel st)))
    as [r |] eqn:Hscan.
  - rewrite bool_decide_eq_true_2.
    + apply scan_ends_Some in Hscan. subst r. reflexivity.
    + intros ch b Hch. cbn.
      destruct (CircularArray.empty b) eqn:Hb; [| reflexivity].
      assert (scan_ends 0 (map_to_list (m_end_timestamps_per_channel st))
              = None) as Hnone; [| congruence].
      apply scan_ends_None. exists (ch, b).
      split; [apply elem_of_map_to_list; exact Hch | exact Hb].
  - rewrite bool_decide_eq_false_2; [reflexivity |].
    apply scan_ends_None in Hscan. destruct Hscan as ([ch b] & Hin & Hb).
    apply elem_of_map_to_list in Hin. intros Hall.
    specialize (Hall ch b Hin). cbn in Hall, Hb. congruence.
Qed.

(** ** No matchable sample set is left between two calls *)

Lemma settled_update_latency (st : LatencyMeter) :
  (all_nonempty st = true ->
   settled (consume_sample (CircularArray.front (m_start_timestamps st))
                        (max_end_front st) st)) ->
  settled (update_latency st).
Proof.
  intros H. rewrite update_latency_round.
  destruct (all_nonempty st) eqn:Hall; [auto | apply all_nonempty_false, Hall].
Qed.

Lemma settled_add_start_sample (timestamp : Z) (st : LatencyMeter) :
  settled st -> settled (add_start_sample timestamp st).
Proof.
  intros Hset. unfold add_start_sample. apply settled_update_latency.
  intros Hall. destruct Hset as [Hstart | (ch & b & Hch & Hb)].
  - left. cbn. apply pop_push_empty, Hstart.
  - exfalso. apply not_false_iff_true in Hall. apply Hall.
    apply all_nonempty_false. right. exists ch, b. cbn. auto.
Qed.

Lemma settled_add_end_sample (ndebug : bool) (ch : N) (timestamp : Z)
    (st st' : LatencyMeter) :
  settled st -> add_end_sample ndebug ch timestamp st = Returns st' -> settled st'.
Proof.
  intros Hset. unfold add_end_sample.
  destruct (_ && _); [discriminate |].
  destruct (m_end_timestamps_per_channel st !! ch) as [b |] eqn:Hch;
    [| discriminate].
  intros [= <-]. apply settled_update_latency. intros Hall.
  destruct Hset as [Hstart | (ch' & b' & Hch' & Hb')].
  - exfalso. apply not_false_iff_true in Hall. apply Hall.
    apply all_nonempty_false. left. exact Hstart.
  - destruct (decide (ch' = ch)) as [-> | Hne].
    + right. exists ch. eexists. cbn. split.
      * rewrite lookup_fmap, lookup_insert_eq. reflexivity.
      * apply pop_push_empty. congruence.
    + exfalso. apply not_false_iff_true in Hall. apply Hall.
      apply all_nonempty_false. right. exists ch', b'. cbn.
      rewrite lookup_insert_ne by congruence. auto.
Qed.

Lemma get_latency_buffers (clear : bool) (st : LatencyMeter) :
  m_start_timestamps (get_latency clear st).2 = m_start_timestamps st
  /\ m_end_timestamps_per_channel (get_latency clear st).2
     = m_end_timestamps_per_channel st.
Proof.
  unfold get_latency. destruct (m_latency_count st =? 0)%N; [auto |].
  destruct clear; auto.
Qed.

Lemma settled_get_latency (clear : bool) (st : LatencyMeter) :
  settled st -> settled (get_latency clear st).2.
Proof.
  unfold settled. destruct (get_latency_buffers clear st) as [-> ->]. auto.
Qed.

Lemma add_end_sample_throws (ndebug : bool) (ch : N) (timestamp : Z)
    (st st' : LatencyMeter) :
  add_end_sample ndebug ch timestamp st = ThrowsOutOfRange st' -> st' = st.
Proof.
  unfold add_end_sample. destruct (_ && _); [discriminate |].
  destruct (m_end_timestamps_per_channel st !! ch); [discriminate |].
  congruence.
Qed.

Lemma settled_step (ndebug : bool) (o : op) (st st' : LatencyMeter) :
  settled st ->
  step ndebug o st = Returns st' \/ step ndebug o st = ThrowsOutOfRange st' ->
  settled st'.
Proof.
  intros Hset. destruct o as [t | ch t | clear]; cbn.
  - intros [[= <-] | [=]]. apply settled_add_start_sample, Hset.
  - intros [H | H].
    + eapply settled_add_end_sample; eassumption.
    + apply add_end_sample_throws in H. congruence.
  - intros [[= <-] | [=]]. apply settled_get_latency, Hset.
Qed.

Lemma settled_run (ndebug : bool) (ops : list op) (st st' : LatencyMeter) :
  settled st -> run ndebug ops st = Some st' -> settled st'.
Proof.
  revert st. induction ops as [| o ops IH]; intros st Hset; cbn.
  - congruence.
  - destruct (step ndebug o st) as [st1 | | st1] eqn:Hstep; [| discriminate |];
      apply IH; eapply settled_step; eauto.
Qed.

Lemma settled_new_LatencyMeter (output_channels : gset N) (len : nat) :
  settled (new_LatencyMeter output_channels len).
Proof. left. reflexivity. Qed.

(** ** The channel map keeps its keys *)

Lemma update_latency_dom (st : LatencyMeter) :
  dom (m_end_timestamps_per_channel (update_latency st))
  = dom (m_end_timestamps_per_channel st).
Proof.
  rewrite update_latency_round. destruct (all_nonempty st); [| reflexivity].
  cbn. apply dom_fmap_L.
Qed.

Lemma step_dom (ndebug : bool) (o : op) (st st' : LatencyMeter) :
  step ndebug o st = Returns st' \/ step ndebug o st = ThrowsOutOfRange st' ->
  dom (m_end_timestamps_per_channel st')
  = dom (m_end_timestamps_per_channel st).
Proof.
  destruct o as [t | ch t | clear]; cbn.
  - intros [[= <-] | [=]]. unfold add_start_sample.
    rewrite update_latency_dom. reflexivity.
  - intros [H | H].
    + unfold add_end_sample in H. destruct (_ && _); [discriminate |].
      destruct (m_end_timestamps_per_channel st !! ch) as [b |] eqn:Hch;
        [| discriminate].
      injection H as <-. rewrite update_latency_dom. cbn.
      rewrite dom_insert_L. apply subseteq_union_1_L.
      apply singleton_subseteq_l, elem_of_dom. eauto.
    + apply add_end_sample_throws in H. congruence.
  - intros [[= <-] | [=]].
    destruct (get_latency_buffers clear st) as [_ ->]. reflexivity.
Qed.

Lemma run_dom (ndebug : bool) (ops : list op) (st st' : LatencyMeter) :
  run ndebug ops st = Some st' ->
  dom (m_end_timestamps_per_channel st')
  = dom (m_end_timestamps_per_channel st).
Proof.
  revert st. induction ops as [| o ops IH]; intros st; cbn.
  - congruence.
  - destruct (step ndebug o st) as [st1 | | st1] eqn:Hstep; [| discriminate |];
      intros H; rewrite (IH _ H); eapply step_dom; eauto.
Qed.

(** ** The loop of the specification against the single pass *)

Lemma update_loop_settled (fuel : nat) (st : LatencyMeter) :
  settled st -> update_loop fuel st = st.
Proof.
  intros H. apply all_nonempty_false in H.
  destruct fuel; cbn; [| rewrite H]; reflexivity.
Qed.

(** The loop runs to its exit condition: the fuel never runs out first. *)
Lemma update_loop_exits (fuel : nat) (st : LatencyMeter) :
  (length (CircularArray.items (m_start_timestamps st)) <= fuel)%nat ->
  all_nonempty (update_loop fuel st) = false.
Proof.
  revert st. induction fuel as [| fuel IH]; intros st Hlen; cbn.
  - unfold all_nonempty.
    destruct (CircularArray.items (m_start_timestamps st)) eqn:Hitems;
      [| cbn in Hlen; lia].
    rewrite (proj2 (empty_items _) Hitems). reflexivity.
  - destruct (all_nonempty st) eqn:Hall; [| exact Hall].
    apply IH. cbn [spec_round m_start_timestamps].
    rewrite pop_front_length. lia.
Qed.

Lemma update_spec_exits (st : LatencyMeter) : settled (update_spec st).
Proof. apply all_nonempty_false, update_loop_exits. reflexivity. Qed.

(** When one round leaves no sample set to match, the loop is that round. *)
Lemma update_spec_one_round (st : LatencyMeter) :
  all_nonempty st = true -> settled (spec_round st) ->
  update_spec st = spec_round st.
Proof.
  intros Hall Hset. unfold update_spec.
  destruct (CircularArray.items (m_start_timestamps st)) as [| x l] eqn:Hitems.
  - unfold all_nonempty in Hall.
    rewrite (proj2 (empty_items _) Hitems) in Hall. discriminate.
  - cbn [length update_loop]. rewrite Hall. apply update_loop_settled, Hset.
Qed.

(** With a front that is not negative, the floor at zero of the scan is not
    seen. *)
Lemma end_front_floor (st : LatencyMeter) :
  nonnegative_ends st -> all_nonempty st = true ->
  default 0 (end_front st) = max_end_front st.
Proof.
  intros Hpos Hall. unfold end_front, max_end_front.
  destruct (map_to_list (m_end_timestamps_per_channel st))
    as [| [ch b] l] eqn:Hlist; [reflexivity |].
  cbn. rewrite <- foldr_max_acc. f_equal.
  assert (m_end_timestamps_per_channel st !! ch = Some b) as Hch.
  { apply elem_of_map_to_list. rewrite Hlist. left. }
  apply andb_true_iff in Hall as [_ Hall].
  apply bool_decide_eq_true in Hall.
  specialize (Hall ch b Hch). specialize (Hpos ch b Hch). cbn in Hall, Hpos.
  apply nonempty_items in Hall. unfold CircularArray.front.
  destruct (CircularArray.items b) as [| x items]; [congruence |].
  cbn. apply Forall_cons in Hpos as [Hx _]. lia.
Qed.

(** One [update_latency] against one [update()] of the specification. *)
Lemma agrees_update (st spec_st : LatencyMeter) :
  agrees st spec_st -> nonnegative_ends st -> settled (update_latency st) ->
  agrees (update_latency st) (update_spec spec_st).
Proof.
  destruct st as [sb eb c sm], spec_st as [sb' eb' c' sm'].
  intros (Hsb & Heb & Hc & Hsm) Hpos. cbn in Hsb, Heb, Hc, Hsm. subst.
  set (st := {| m_start_timestamps := sb';
                m_end_timestamps_per_channel := eb';
                m_latency_count := c';
                m_latency_sum := to_int64 sm' |}) in *.
  set (spec_st := {| m_start_timestamps := sb';
                     m_end_timestamps_per_channel := eb';
                     m_latency_count := c';
                     m_latency_sum := sm' |}).
  assert (all_nonempty spec_st = all_nonempty st) as Hsame by reflexivity.
  rewrite update_latency_round.
  destruct (all_nonempty st) eqn:Hall; intros Hset.
  - rewrite update_spec_one_round; [| exact Hsame | exact Hset].
    rewrite <- (end_front_floor st Hpos Hall).
    split; [reflexivity |]. split; [reflexivity |]. split; [reflexivity |].
    cbn. apply duration_add_sub.
  - unfold update_spec. rewrite update_loop_settled; [| exact Hset].
    repeat split.
Qed.

Lemma nonnegative_ends_update_latency (st : LatencyMeter) :
  nonnegative_ends st -> nonnegative_ends (update_latency st).
Proof.
  intros Hpos. rewrite update_latency_round.
  destruct (all_nonempty st); [| exact Hpos].
  intros ch b. cbn. rewrite lookup_fmap. intros Hb.
  apply fmap_Some in Hb as (b' & Hb' & ->). specialize (Hpos ch b' Hb').
  cbn in *. destruct (CircularArray.items b') as [| x items]; [exact Hpos |].
  apply Forall_cons in Hpos as [_ Hitems]. exact Hitems.
Qed.

Lemma nonnegative_push_back (x : Z) (b : CircularArray.t) :
  0 <= x -> Forall (fun t => 0 <= t) (CircularArray.items b) ->
  Forall (fun t => 0 <= t)
         (CircularArray.items (CircularArray.push_back x b)).
Proof.
  intros Hx Hb. unfold CircularArray.push_back. cbn.
  assert (Forall (fun t => 0 <= t) (CircularArray.items b ++ [x])) as Hall
    by (apply Forall_app; split; [exact Hb | repeat constructor; exact Hx]).
  destruct (_ <=? _)%nat; [exact Hall |].
  destruct (CircularArray.items b ++ [x]) as [| y l]; [exact Hall |].
  apply Forall_cons in Hall as [_ Hl]. exact Hl.
Qed.

Section SinglePass.

Variables (ndebug : bool) (output_channels : gset N).

Lemma agrees_step (o : op) (st spec_st : LatencyMeter) :
  dom (m_end_timestamps_per_channel st) = output_channels ->
  known_channel output_channels o = true ->
  (forall ch t, o = AddEnd ch t -> 0 <= t) ->
  agrees st spec_st -> settled st -> nonnegative_ends st ->
  exists st',
    step ndebug o st = Returns st'
    /\ agrees st' (spec_step o spec_st)
    /\ nonnegative_ends st'.
Proof.
  intros Hdom Hknown Ht Hagr Hset Hpos.
  pose proof Hagr as (Hsb & Heb & Hc & Hsm).
  destruct o as [t | ch t | clear]; cbn [step spec_step].
  - eexists. split; [reflexivity |]. unfold add_start_sample. split.
    + apply agrees_update.
      * repeat split; cbn; congruence.
      * exact Hpos.
      * apply (settled_add_start_sample t st Hset).
    + apply nonnegative_ends_update_latency. exact Hpos.
  - cbn in Hknown. apply bool_decide_eq_true in Hknown.
    rewrite <- Hdom in Hknown. apply elem_of_dom in Hknown as [b Hb].
    pose proof (settled_add_end_sample ndebug ch t st) as Hend.
    unfold add_end_sample, spec_add_end_sample in *.
    rewrite <- Heb, Hb in *.
    rewrite bool_decide_eq_true_2 in * by eauto.
    rewrite andb_false_r in *.
    eexists. split; [reflexivity |]. cbn [snd].
    assert (nonnegative_ends
              {| m_start_timestamps := m_start_timestamps st;
                 m_end_timestamps_per_channel :=
                   <[ch := CircularArray.push_back t b]>
                     (m_end_timestamps_per_channel st);
                 m_latency_count := m_latency_count st;
                 m_latency_sum := m_latency_sum st |}) as Hpos'.
    { apply map_Forall_insert_2; [| exact Hpos].
      apply nonnegative_push_back; [eapply Ht; reflexivity |].
      apply (Hpos ch b Hb). }
    split.
    + apply agrees_update.
      * repeat split; cbn; congruence.
      * exact Hpos'.
      * eapply Hend; eauto.
    + apply nonnegative_ends_update_latency. exact Hpos'.
  - eexists. split; [reflexivity |].
    unfold get_latency, spec_get_latency. rewrite <- Hc.
    destruct (m_latency_count st =? 0)%N; cbn [snd]; [auto |].
    destruct clear; [| auto]. split; [| exact Hpos].
    repeat split; cbn; congruence.
Qed.

Lemma agrees_run (ops : list op) (st spec_st : LatencyMeter) :
  dom (m_end_timestamps_per_channel st) = output_channels ->
  forallb (known_channel output_channels) ops = true ->
  (forall ch t, In (AddEnd ch t) ops -> 0 <= t) ->
  agrees st spec_st -> settled st -> nonnegative_ends st ->
  exists st',
    run ndebug ops st = Some st' /\ agrees st' (spec_run ops spec_st).
Proof.
  revert st spec_st.
  induction ops as [| o ops IH]; intros st spec_st Hdom Hknown Ht Hagr Hset Hpos.
  - exists st. split; [reflexivity | exact Hagr].
  - cbn in Hknown. apply andb_true_iff in Hknown as [Hknown Hknown'].
    destruct (agrees_step o st spec_st Hdom Hknown) as (st1 & Hstep & Hagr1 & Hpos1);
      try assumption.
    { intros ch t ->. apply (Ht ch t). left. reflexivity. }
    cbn. rewrite Hstep. apply IH; try assumption.
    + rewrite <- Hdom. eapply step_dom. left. exact Hstep.
    + intros ch t Hin. apply (Ht ch t). right. exact Hin.
    + eapply settled_step; [exact Hset | left; exact Hstep].
Qed.

End SinglePass.

(** On end timestamps that are not negative the single pass and the loop of
    the specification go together: for every sequence of calls on known
    channels, whatever the buffers drop, the run completes with the buffers
    and the [latency_count] of the loop, and with its [latency_sum] as a
    64-bit tick count. *)
Lemma single_pass_matches_loop_nonnegative_ends (ndebug : bool)
    (output_channels : gset N) (cap : nat) (ops : list op) :
  forallb (known_channel output_channels) ops = true ->
  (forall ch t, In (AddEnd ch t) ops -> 0 <= t) ->
  let spec_st := spec_run ops (new_LatencyMeter output_channels cap) in
  exists st,
    run ndebug ops (new_LatencyMeter output_channels cap) = Some st
    /\ agrees st spec_st
    /\ (- 2 ^ 63 <= m_latency_sum spec_st < 2 ^ 63 ->
        m_latency_sum st = m_latency_sum spec_st).
Proof.
  intros Hknown Ht spec_st.
  destruct (agrees_run ndebug output_channels ops
              (new_LatencyMeter output_channels cap)
              (new_LatencyMeter output_channels cap))
    as (st & Hrun & Hagr); try assumption.
  - apply new_LatencyMeter_dom.
  - repeat split.
  - apply settled_new_LatencyMeter.
  - intros ch b. rewrite new_LatencyMeter_lookup.
    case_bool_decide; [intros [= <-]; constructor | discriminate].
  - exists st. split; [exact Hrun |]. split; [exact Hagr |].
    intros Hrange. destruct Hagr as (_ & _ & _ & ->).
    apply to_int64_small, Hrange.
Qed.

Example single_pass_matches_loop_scenario :
  let ops := [AddEnd 7 150; AddEnd 9 170; AddEnd 7 280; AddStart 100;
              AddStart 200; AddEnd 9 260] in
  let spec_st := spec_run ops (new_LatencyMeter {[ 7%N; 9%N ]} 8) in
  exists st,
    run false ops (new_LatencyMeter {[ 7%N; 9%N ]} 8) = Some st
    /\ m_latency_count st = 2%N
    /\ m_latency_count spec_st = 2%N
    /\ m_latency_sum st = 150
    /\ m_latency_sum spec_st = 150.
Proof.
  intros ops spec_st.
  destruct (single_pass_matches_loop_nonnegative_ends false {[ 7%N; 9%N ]} 8
              ops) as (st & Hrun & (_ & _ & Hcount & _) & Hsum).
  - vm_compute. reflexivity.
  - intros ch t Hin. cbn in Hin.
    repeat (destruct Hin as [[=] | Hin]; subst; try lia).
  - assert (m_latency_count spec_st = 2%N) as Hc by (vm_compute; reflexivity).
    assert (m_latency_sum spec_st = 150) as Hs by (vm_compute; reflexivity).
    fold spec_st in Hcount, Hsum.
    exists st. rewrite Hcount, Hsum, Hc, Hs by (rewrite Hs; lia).
    repeat split. exact Hrun.
Qed.

(** ** Lists *)

Lemma hd_drop (d : Z) (n : nat) (l : list Z) : hd d (drop n l) = nth n l d.
Proof.
  revert l. induction n as [| n IH]; intros [| x l]; cbn; auto.
Qed.

Lemma tl_drop (n : nat) (l : list Z) : tl (drop n l) = drop (S n) l.
Proof.
  revert l. induction n as [| n IH]; intros [| x l]; cbn; auto.
Qed.

Lemma drop_nonempty (n : nat) (l : list Z) :
  drop n l <> [] <-> (n < length l)%nat.
Proof.
  pose proof (length_drop l n) as Hlen.
  destruct (drop n l) eqn:Hdrop; cbn in Hlen; split; intros H;
    try congruence; lia.
Qed.

Lemma foldr_max_bounds (e : Z) (l : list Z) :
  e <= foldr Z.max e l
  /\ (forall x, x ∈ l -> x <= foldr Z.max e l)
  /\ (foldr Z.max e l = e \/ foldr Z.max e l ∈ l).
Proof.
  induction l as [| y l (IH1 & IH2 & IH3)]; cbn.
  - split; [lia |]. split; [| auto]. intros x Hx. inversion Hx.
  - split; [lia |]. split.
    + intros x Hx. inversion Hx; subst; [lia |].
      specialize (IH2 x ltac:(assumption)). lia.
    + destruct (Z.max_spec y (foldr Z.max e l)) as [[_ ->] | [_ ->]].
      * destruct IH3 as [-> | IH3]; [auto | right; right; exact IH3].
      * right. left.
Qed.

(** The running maximum depends on the values met, not on their order. *)
Lemma foldr_max_ext (e : Z) (l1 l2 : list Z) :
  (forall x, x ∈ l1 <-> x ∈ l2) -> foldr Z.max e l1 = foldr Z.max e l2.
Proof.
  intros Hext.
  destruct (foldr_max_bounds e l1) as (A1 & A2 & A3).
  destruct (foldr_max_bounds e l2) as (B1 & B2 & B3).
  apply Z.le_antisymm.
  - destruct A3 as [-> | A3]; [exact B1 | apply B2, Hext, A3].
  - destruct B3 as [-> | B3]; [exact A1 | apply A2, Hext, B3].
Qed.

Lemma foldr_add_snoc (l : list Z) (x : Z) :
  foldr Z.add 0 (l ++ [x]) = foldr Z.add 0 l + x.
Proof. induction l as [| y l IH]; cbn; [lia | rewrite IH; lia]. Qed.

(** ** What was fed *)

Lemma starts_app (p q : list op) : starts (p ++ q) = starts p ++ starts q.
Proof.
  induction p as [| [t | ch t | c] p IH]; cbn; [| rewrite IH | |]; auto.
Qed.

Lemma ends_app (ch : N) (p q : list op) :
  ends ch (p ++ q) = ends ch p ++ ends ch q.
Proof.
  induction p as [| [t | ch' t | c] p IH]; cbn; auto.
  destruct (ch' =? ch)%N; [rewrite IH |]; auto.
Qed.

Lemma max_end_map (output_channels : gset N) (ops : list op) (i : nat) :
  max_end output_channels ops i
  = foldr Z.max 0 (map (fun ch => nth i (ends ch ops) 0)
                       (elements output_channels)).
Proof.
  unfold max_end. induction (elements output_channels) as [| ch l IH]; cbn;
    [reflexivity | rewrite IH; apply Z.max_comm].
Qed.

Lemma max_end_ext (output_channels : gset N) (p q : list op) (i : nat) :
  (forall ch, ch ∈ output_channels ->
              nth i (ends ch p) 0 = nth i (ends ch q) 0) ->
  max_end output_channels p i = max_end output_channels q i.
Proof.
  intros H. rewrite !max_end_map. f_equal. apply map_ext_in.
  intros ch Hch. apply H, elem_of_elements, list_elem_of_In, Hch.
Qed.

Lemma sum_latencies_S (f : nat -> Z) (ops : list op) (n : nat) :
  sum_latencies f ops (S n)
  = sum_latencies f ops n + (f n - nth n (starts ops) 0).
Proof.
  unfold sum_latencies. rewrite seq_S, map_app. cbn [map Nat.add].
  apply foldr_add_snoc.
Qed.

Lemma sum_latencies_ext (f g : nat -> Z) (p q : list op) (n : nat) :
  (forall i, (i < n)%nat -> f i = g i) ->
  (forall i, (i < n)%nat -> nth i (starts p) 0 = nth i (starts q) 0) ->
  sum_latencies f p n = sum_latencies g q n.
Proof.
  induction n as [| n IH]; intros Hf Hs; [reflexivity |].
  rewrite !sum_latencies_S, IH, Hf, Hs by (intros; auto with lia).
  reflexivity.
Qed.

(** ** The number of matched samples *)

Lemma matched_is (output_channels : gset N) (ops : list op) :
  is_matched output_channels ops (matched output_channels ops).
Proof.
  unfold is_matched, matched.
  setoid_rewrite <- elem_of_elements.
  induction (elements output_channels) as [| ch l (IH1 & IH2 & IH3)]; cbn.
  - split; [lia |]. split; [intros ch Hch; inversion Hch | auto].
  - split; [lia |]. split.
    + intros ch' Hch'. inversion Hch'; subst; [lia |].
      specialize (IH2 ch' ltac:(assumption)). lia.
    + destruct (Nat.min_spec (length (ends ch ops))
                  (foldr (fun ch n => Nat.min (length (ends ch ops)) n)
                         (length (starts ops)) l)) as [[_ ->] | [_ ->]].
      * right. exists ch. split; [left | reflexivity].
      * destruct IH3 as [IH3 | (ch' & Hch' & IH3)]; [left; exact IH3 |].
        right. exists ch'. split; [right; exact Hch' | exact IH3].
Qed.

Lemma is_matched_unique (output_channels : gset N) (ops : list op)
    (n n' : nat) :
  is_matched output_channels ops n -> is_matched output_channels ops n' ->
  n = n'.
Proof.
  intros (A1 & A2 & A3) (B1 & B2 & B3).
  apply Nat.le_antisymm.
  - destruct B3 as [-> | (ch & Hch & ->)]; [exact A1 | apply A2, Hch].
  - destruct A3 as [-> | (ch & Hch & ->)]; [exact B1 | apply B2, Hch].
Qed.

Lemma matched_eq (output_channels : gset N) (ops : list op) (n : nat) :
  is_matched output_channels ops n -> matched output_channels ops = n.
Proof.
  intros H. eapply is_matched_unique; [apply matched_is | exact H].
Qed.

(** ** One call, seen from what was fed *)

Section Tracking.

Variables (output_channels : gset N) (cap : nat).

Lemma tracks_lookup (q : list op) (n : nat) (st : LatencyMeter)
    (ch : N) (b : CircularArray.t) :
  tracks output_channels cap q n st ->
  m_end_timestamps_per_channel st !! ch = Some b
  <-> ch ∈ output_channels
      /\ b = CircularArray.mk cap (drop n (ends ch q)).
Proof.
  intros (_ & Hends & _). rewrite Hends. case_bool_decide; split.
  - intros [= <-]. auto.
  - intros [_ ->]. reflexivity.
  - discriminate.
  - intros [? _]. contradiction.
Qed.

Lemma tracks_all_nonempty (q : list op) (n : nat) (st : LatencyMeter) :
  tracks output_channels cap q n st ->
  all_nonempty st = true
  <-> (n < length (starts q))%nat
      /\ forall ch, ch ∈ output_channels -> (n < length (ends ch q))%nat.
Proof.
  intros Htr. pose proof Htr as (Hstart & _).
  unfold all_nonempty.
  rewrite andb_true_iff, negb_true_iff, bool_decide_eq_true.
  rewrite nonempty_items, Hstart. cbn. rewrite drop_nonempty.
  apply and_iff_compat_l. split.
  - intros Hall ch Hch. apply drop_nonempty.
    specialize (Hall ch (CircularArray.mk cap (drop n (ends ch q)))).
    cbn in Hall. apply nonempty_items in Hall; [exact Hall |].
    apply (tracks_lookup q n st); auto.
  - intros Hall ch b Hb. apply (tracks_lookup q n st) in Hb as [Hch ->];
      [| exact Htr].
    cbn. apply nonempty_items. cbn. apply drop_nonempty, Hall, Hch.
Qed.

Lemma tracks_max_end_front (q : list op) (n : nat) (st : LatencyMeter) :
  tracks output_channels cap q n st ->
  max_end_front st = max_end output_channels q n.
Proof.
  intros Htr. rewrite max_end_map. unfold max_end_front.
  apply foldr_max_ext. intros x.
  rewrite !list_elem_of_In, !in_map_iff. split.
  - intros ([ch b] & <- & Hin). apply list_elem_of_In in Hin.
    apply elem_of_map_to_list in Hin.
    apply (tracks_lookup q n st) in Hin as [Hch ->]; [| exact Htr].
    exists ch. split.
    + cbn. unfold CircularArray.front. cbn. symmetry. apply hd_drop.
    + apply list_elem_of_In, elem_of_elements, Hch.
  - intros (ch & <- & Hin).
    apply list_elem_of_In, elem_of_elements in Hin.
    exists (ch, CircularArray.mk cap (drop n (ends ch q))). split.
    + cbn. unfold CircularArray.front. cbn. apply hd_drop.
    + apply list_elem_of_In, elem_of_map_to_list.
      apply (tracks_lookup q n st); auto.
Qed.

Lemma tracks_consume (q : list op) (n : nat) (st : LatencyMeter) :
  tracks output_channels cap q n st ->
  tracks output_channels cap q (S n)
    (consume_sample (CircularArray.front (m_start_timestamps st))
                    (max_end_front st) st).
Proof.
  intros Htr. pose proof Htr as (Hstart & Hends & Hcount & Hsum).
  unfold tracks, consume_sample. cbn [m_start_timestamps
    m_end_timestamps_per_channel m_latency_count m_latency_sum].
  split; [| split; [| split]].
  - rewrite Hstart. unfold CircularArray.pop_front. cbn.
    rewrite tl_drop. reflexivity.
  - intros ch. rewrite lookup_fmap, Hends. case_bool_decide; [| reflexivity].
    cbn. unfold CircularArray.pop_front. cbn. rewrite tl_drop. reflexivity.
  - rewrite Hcount. lia.
  - rewrite sum_latencies_S, Hsum, duration_add_sub.
    rewrite (tracks_max_end_front q n st Htr).
    rewrite Hstart. unfold CircularArray.front. cbn. rewrite hd_drop.
    reflexivity.
Qed.

(** [update_latency] on a meter whose buffers hold the feed less [n]
    timestamps each, when the feed has [n] or [n + 1] matched samples. *)
Lemma tracks_update (q : list op) (n : nat) (st : LatencyMeter) :
  tracks output_channels cap q n st ->
  (n <= matched output_channels q <= S n)%nat ->
  tracks output_channels cap q (matched output_channels q)
    (update_latency st).
Proof.
  intros Htr Hn. rewrite update_latency_round.
  pose proof (matched_is output_channels q) as (M1 & M2 & M3).
  destruct (all_nonempty st) eqn:Hall.
  - apply (tracks_all_nonempty q n st Htr) in Hall as [L1 L2].
    replace (matched output_channels q) with (S n);
      [apply tracks_consume, Htr |].
    destruct M3 as [M3 | (ch & Hch & M3)];
      [| specialize (L2 ch Hch)]; lia.
  - replace (matched output_channels q) with n; [exact Htr |].
    destruct (decide (matched output_channels q = n)) as [| Hne];
      [congruence | exfalso].
    apply not_true_iff_false in Hall. apply Hall.
    apply (tracks_all_nonempty q n st Htr). split.
    + lia.
    + intros ch Hch. specialize (M2 ch Hch). lia.
Qed.

(** The feed grows by the timestamps of one call. *)
Lemma matched_snoc (p : list op) (o : op) :
  (matched output_channels p <= matched output_channels (p ++ [o])
   <= S (matched output_channels p))%nat.
Proof.
  pose proof (matched_is output_channels p) as (A1 & A2 & A3).
  pose proof (matched_is output_channels (p ++ [o])) as (B1 & B2 & B3).
  assert (length (starts (p ++ [o])) <= S (length (starts p)))%nat as Hs.
  { rewrite starts_app, length_app. destruct o as [| |]; cbn; lia. }
  assert (forall ch, length (ends ch (p ++ [o]))
                     <= S (length (ends ch p)))%nat as He.
  { intros ch. rewrite ends_app, length_app.
    destruct o as [| ch' t |]; cbn; [| destruct (ch' =? ch)%N; cbn |]; lia. }
  rewrite starts_app, length_app in B1, B3.
  setoid_rewrite ends_app in B2. setoid_rewrite ends_app in B3.
  setoid_rewrite length_app in B2. setoid_rewrite length_app in B3.
  rewrite starts_app, length_app in Hs.
  setoid_rewrite ends_app in He. setoid_rewrite length_app in He.
  split.
  - destruct B3 as [-> | (ch & Hch & ->)];
      [| specialize (A2 ch Hch)]; lia.
  - destruct A3 as [A3 | (ch & Hch & A3)].
    + lia.
    + specialize (B2 ch Hch). specialize (He ch). lia.
Qed.

(** The feed after one more call agrees with the feed before it on the
    samples matched so far. *)
Lemma sum_latencies_snoc (p : list op) (o : op) :
  sum_latencies (max_end output_channels (p ++ [o])) (p ++ [o])
                (matched output_channels p)
  = sum_latencies (max_end output_channels p) p (matched output_channels p).
Proof.
  pose proof (matched_is output_channels p) as (A1 & A2 & _).
  apply sum_latencies_ext.
  - intros i Hi. apply max_end_ext. intros ch Hch.
    rewrite ends_app. specialize (A2 ch Hch).
    apply app_nth1. lia.
  - intros i Hi. rewrite starts_app. apply app_nth1. lia.
Qed.

End Tracking.

(** ** Runs *)

Lemma run_app (ndebug : bool) (p q : list op) (st : LatencyMeter) :
  run ndebug (p ++ q) st
  = match run ndebug p st with
    | Some st' => run ndebug q st'
    | None => None
    end.
Proof.
  revert st. induction p as [| o p IH]; intros st; cbn; [reflexivity |].
  destruct (step ndebug o st); auto.
Qed.

Lemma no_overflow_app (ndebug : bool) (p q : list op) (st : LatencyMeter) :
  no_overflow ndebug (p ++ q) st
  = no_overflow ndebug p st
    && match run ndebug p st with
       | Some st' => no_overflow ndebug q st'
       | None => true
       end.
Proof.
  revert st. induction p as [| o p IH]; intros st; cbn; [reflexivity |].
  rewrite <- andb_assoc. f_equal.
  destruct (step ndebug o st); auto.
Qed.

Lemma get_latency_keep (st : LatencyMeter) : (get_latency false st).2 = st.
Proof. unfold get_latency. destruct (m_latency_count st =? 0)%N; reflexivity. Qed.

Section Feeding.

Variables (ndebug : bool) (output_channels : gset N) (cap : nat).

Lemma tracks_step (p : list op) (o : op) (st : LatencyMeter) :
  tracks output_channels cap p (matched output_channels p) st ->
  known_channel output_channels o = true ->
  no_clear o = true ->
  push_fits o st = true ->
  exists st',
    step ndebug o st = Returns st'
    /\ tracks output_channels cap (p ++ [o])
              (matched output_channels (p ++ [o])) st'.
Proof.
  intros Htr Hknown Hclear Hfits.
  pose proof Htr as (Hstart & Hends & Hcount & Hsum).
  pose proof (matched_is output_channels p) as (A1 & A2 & _).
  destruct o as [t | c t | clear]; cbn [step].
  - eexists. split; [reflexivity |]. unfold add_start_sample.
    apply (tracks_update _ _ _ (matched output_channels p));
      [| apply matched_snoc].
    cbn in Hfits. apply negb_true_iff in Hfits.
    split; [| split; [| split]]; cbn.
    + rewrite (push_back_fits _ _ Hfits), Hstart. cbn.
      rewrite starts_app. cbn. rewrite drop_app_le by exact A1. reflexivity.
    + intros ch. rewrite Hends, ends_app. cbn. rewrite app_nil_r. reflexivity.
    + exact Hcount.
    + rewrite Hsum. f_equal. symmetry. apply sum_latencies_snoc.
  - cbn in Hknown. apply bool_decide_eq_true in Hknown.
    pose proof (Hends c) as Hc. rewrite bool_decide_eq_true_2 in Hc by exact Hknown.
    cbn in Hfits. rewrite Hc in Hfits. apply negb_true_iff in Hfits.
    unfold add_end_sample. rewrite Hc.
    rewrite bool_decide_eq_true_2 by eauto. rewrite andb_false_r.
    eexists. split; [reflexivity |].
    apply (tracks_update _ _ _ (matched output_channels p));
      [| apply matched_snoc].
    split; [| split; [| split]]; cbn.
    + rewrite Hstart, starts_app. cbn. rewrite app_nil_r. reflexivity.
    + intros ch. rewrite ends_app. cbn.
      destruct (N.eqb_spec c ch) as [<- | Hne].
      * rewrite lookup_insert_eq, bool_decide_eq_true_2 by exact Hknown.
        rewrite (push_back_fits _ _ Hfits). cbn.
        rewrite drop_app_le by (apply A2, Hknown). reflexivity.
      * rewrite lookup_insert_ne by exact Hne.
        rewrite Hends, app_nil_r. reflexivity.
    + exact Hcount.
    + rewrite Hsum. f_equal. symmetry. apply sum_latencies_snoc.
  - destruct clear; [discriminate |]. rewrite get_latency_keep.
    eexists. split; [reflexivity |].
    assert (matched output_channels (p ++ [GetLatency false])
            = matched output_channels p) as ->.
    { apply matched_eq. unfold is_matched. rewrite starts_app. cbn.
      setoid_rewrite ends_app. cbn. rewrite app_nil_r.
      setoid_rewrite app_nil_r. apply matched_is. }
    split; [| split; [| split]].
    + rewrite Hstart, starts_app. cbn. rewrite app_nil_r. reflexivity.
    + intros ch. rewrite Hends, ends_app. cbn. rewrite app_nil_r. reflexivity.
    + exact Hcount.
    + rewrite Hsum. f_equal. symmetry. apply sum_latencies_snoc.
Qed.

Lemma tracks_new_LatencyMeter :
  tracks output_channels cap [] (matched output_channels [])
         (new_LatencyMeter output_channels cap).
Proof.
  pose proof (matched_is output_channels []) as (A1 & _).
  cbn in A1. assert (matched output_channels [] = 0%nat) as -> by lia.
  split; [| split; [| split]]; try reflexivity.
  intros ch. apply new_LatencyMeter_lookup.
Qed.

Lemma run_tracks (ops : list op) :
  forallb (known_channel output_channels) ops = true ->
  forallb no_clear ops = true ->
  no_overflow ndebug ops (new_LatencyMeter output_channels cap) = true ->
  exists st,
    run ndebug ops (new_LatencyMeter output_channels cap) = Some st
    /\ tracks output_channels cap ops (matched output_channels ops) st.
Proof.
  induction ops as [| o p IH] using rev_ind; intros Hknown Hclear Hfits.
  - eexists. split; [reflexivity | apply tracks_new_LatencyMeter].
  - rewrite forallb_app in Hknown, Hclear. cbn in Hknown, Hclear.
    rewrite andb_true_r in Hknown, Hclear.
    apply andb_true_iff in Hknown as [Hknown Hknown'].
    apply andb_true_iff in Hclear as [Hclear Hclear'].
    rewrite no_overflow_app in Hfits.
    apply andb_true_iff in Hfits as [Hfits Hfits'].
    destruct (IH Hknown Hclear Hfits) as (st & Hrun & Htr).
    rewrite Hrun in Hfits'. cbn in Hfits'.
    apply andb_true_iff in Hfits' as [Hfits' _].
    destruct (tracks_step p o st Htr Hknown' Hclear' Hfits')
      as (st' & Hstep & Htr').
    exists st'. split; [| exact Htr'].
    rewrite run_app, Hrun. cbn. rewrite Hstep. reflexivity.
Qed.

End Feeding.

(** With no negative end timestamp, the floor at zero of [max_end] is not
    seen: it is the largest end timestamp of the channels. *)
Lemma foldr_max_floor (g : N -> Z) (a b : Z) (l : list N) :
  b <= a ->
  foldr (fun ch m => Z.max m (g ch)) a l
  = Z.max a (foldr (fun ch m => Z.max m (g ch)) b l).
Proof. intros Hab. induction l as [| x l IH]; cbn; [| rewrite IH]; lia. Qed.

Lemma max_end_last_end (output_channels : gset N) (ops : list op) (i : nat)
    (m : Z) :
  (forall ch, ch ∈ output_channels -> 0 <= nth i (ends ch ops) 0) ->
  last_end output_channels ops i = Some m ->
  max_end output_channels ops i = m.
Proof.
  unfold last_end, max_end. setoid_rewrite <- elem_of_elements.
  destruct (elements output_channels) as [| ch chs]; [discriminate |].
  intros Hpos [= <-]. cbn.
  rewrite (foldr_max_floor _ (nth i (ends ch ops) 0) 0)
    by (apply Hpos; left).
  apply Z.max_comm.
Qed.

(** ** [get_latency] *)

Lemma duration_div_nonneg (d : Z) (s : N) :
  0 <= d < 2 ^ 63 -> duration_div d s = d / Z.of_N s.
Proof.
  intros Hd. unfold duration_div, to_uint64, to_int64.
  rewrite (Z.mod_small d) by lia.
  assert (0 <= d / Z.of_N s <= d) as Hq.
  { destruct (Z.eq_dec (Z.of_N s) 0) as [-> | Hs].
    - rewrite Z.div_0_r. lia.
    - split; [apply Z.div_pos; lia |].
      apply Z.div_le_upper_bound; [lia | nia]. }
  rewrite Z.mod_small by lia. lia.
Qed.

Lemma get_latency_not_available (clear : bool) (st : LatencyMeter) :
  m_latency_count st = 0%N ->
  get_latency clear st = (Unexpected HAILO_NOT_AVAILABLE, st).
Proof. intros H. unfold get_latency. rewrite H. reflexivity. Qed.

Lemma get_latency_value (clear : bool) (st : LatencyMeter) :
  m_latency_count st <> 0%N ->
  get_latency clear st
  = (Value (duration_div (m_latency_sum st) (m_latency_count st)),
     if clear then
       {| m_start_timestamps := m_start_timestamps st;
          m_end_timestamps_per_channel := m_end_timestamps_per_channel st;
          m_latency_count := 0%N;
          m_latency_sum := 0 |}
     else st).
Proof.
  intros H. unfold get_latency. apply N.eqb_neq in H. rewrite H. reflexivity.
Qed.

(** On a non-negative sum [get_latency] is the truncated mean, the error
    is not-available and is there exactly for no sample, and a successful
    [get_latency(true)] zeroes the accumulators and nothing else. *)
Lemma get_latency_nonnegative_sum (clear : bool) (st : LatencyMeter) :
  0 <= m_latency_sum st < 2 ^ 63 ->
  ((0 < m_latency_count st)%N ->
   (get_latency clear st).1
   = Value (m_latency_sum st / Z.of_N (m_latency_count st)))
  /\ ((exists status, (get_latency clear st).1 = Unexpected status)
      <-> m_latency_count st = 0%N)
  /\ (m_latency_count st = 0%N ->
      (get_latency clear st).1 = Unexpected HAILO_NOT_AVAILABLE)
  /\ ((0 < m_latency_count st)%N -> clear = true ->
      (get_latency clear st).2
      = {| m_start_timestamps := m_start_timestamps st;
           m_end_timestamps_per_channel := m_end_timestamps_per_channel st;
           m_latency_count := 0%N;
           m_latency_sum := 0 |}).
Proof.
  intros Hsum.
  destruct (N.eq_dec (m_latency_count st) 0%N) as [Hz | Hnz].
  - rewrite (get_latency_not_available clear st Hz). cbn.
    repeat split; try (intros; lia); eauto.
  - rewrite (get_latency_value clear st Hnz). cbn.
    repeat split; try (intros; lia).
    + intros _. f_equal. apply duration_div_nonneg, Hsum.
    + intros [status Hstatus]. discriminate.
    + intros _ ->. reflexivity.
Qed.

(** ** Non-negative end timestamps *)

Lemma ends_In (ch : N) (t : Z) (ops : list op) :
  In t (ends ch ops) -> In (AddEnd ch t) ops.
Proof.
  induction ops as [| [t' | ch' t' | c] ops IH]; cbn; auto.
  destruct (N.eqb_spec ch' ch) as [-> | Hne]; cbn; [| auto].
  intros [-> | H]; auto.
Qed.

Lemma max_end_nonnegative_ends (output_channels : gset N) (ops : list op)
    (i : nat) :
  (forall ch t, In (AddEnd ch t) ops -> 0 <= t) ->
  max_end output_channels ops i = default 0 (last_end output_channels ops i).
Proof.
  intros Hpos.
  destruct (last_end output_channels ops i) as [m |] eqn:Hlast; cbn.
  - apply max_end_last_end; [| exact Hlast]. intros ch _.
    destruct (nth_in_or_default i (ends ch ops) 0) as [Hin | ->]; [| lia].
    apply (Hpos ch), ends_In, Hin.
  - unfold last_end, max_end in *.
    destruct (elements output_channels); [reflexivity | discriminate].
Qed.

(** When no end timestamp is negative, the sum of [tracks] is the sum of the
    largest end timestamp of the channels minus the start timestamp. *)
Lemma sum_latencies_nonnegative_ends (output_channels : gset N)
    (ops : list op) (n : nat) :
  (forall ch t, In (AddEnd ch t) ops -> 0 <= t) ->
  sum_latencies (max_end output_channels ops) ops n
  = sum_latencies (fun i => default 0 (last_end output_channels ops i)) ops n.
Proof.
  intros Hpos. apply sum_latencies_ext; [| reflexivity].
  intros i _. apply max_end_nonnegative_ends, Hpos.
Qed.

(** ** The accumulators after a run

    For every sequence of calls on a fresh meter that names known channels
    only, overflows no buffer and has no clearing [get_latency], the run
    completes, [latency_count] is the number of matched samples, and
    [latency_sum] is, as a 64-bit tick count, the sum over those samples of
    the largest of zero and the channels' end timestamps, minus the start
    timestamp. *)
Lemma run_matched_samples (ndebug : bool)
    (output_channels : gset N) (cap : nat) (ops : list op) :
  forallb (known_channel output_channels) ops = true ->
  forallb no_clear ops = true ->
  no_overflow ndebug ops (new_LatencyMeter output_channels cap) = true ->
  exists st,
    run ndebug ops (new_LatencyMeter output_channels cap) = Some st
    /\ m_latency_count st = N.of_nat (matched output_channels ops)
    /\ m_latency_sum st
       = to_int64 (sum_latencies (max_end output_channels ops) ops
                                 (matched output_channels ops)).
Proof.
  intros Hknown Hclear Hfits.
  destruct (run_tracks ndebug output_channels cap ops Hknown Hclear Hfits)
    as (st & Hrun & _ & _ & Hcount & Hsum).
  exists st. auto.
Qed.

(** When no end timestamp is negative and the sum the specification states
    is a 64-bit tick count, that sum is what the meter holds. *)
Lemma run_matched_samples_nonnegative_ends (ndebug : bool)
    (output_channels : gset N) (cap : nat) (ops : list op) :
  forallb (known_channel output_channels) ops = true ->
  forallb no_clear ops = true ->
  no_overflow ndebug ops (new_LatencyMeter output_channels cap) = true ->
  (forall ch t, In (AddEnd ch t) ops -> 0 <= t) ->
  - 2 ^ 63 <= claimed_latency_sum output_channels ops < 2 ^ 63 ->
  exists st,
    run ndebug ops (new_LatencyMeter output_channels cap) = Some st
    /\ m_latency_count st = N.of_nat (matched output_channels ops)
    /\ m_latency_sum st = claimed_latency_sum output_channels ops.
Proof.
  intros Hknown Hclear Hfits Hpos Hrange.
  destruct (run_matched_samples ndebug output_channels cap ops
              Hknown Hclear Hfits) as (st & Hrun & Hcount & Hsum).
  exists st. split; [exact Hrun |]. split; [exact Hcount |].
  rewrite Hsum, (sum_latencies_nonnegative_ends _ _ _ Hpos).
  apply to_int64_small, Hrange.
Qed.

Example run_matched_samples_scenario :
  let ops := [AddStart 100; AddEnd 7 150; AddStart 200; AddEnd 9 170] in
  exists st,
    run false ops (new_LatencyMeter scenario_channels 8) = Some st
    /\ m_latency_count st = 1%N
    /\ m_latency_sum st = claimed_latency_sum scenario_channels ops
    /\ m_latency_sum st = 70.
Proof.
  intros ops.
  destruct (run_matched_samples_nonnegative_ends false scenario_channels 8 ops)
    as (st & Hrun & Hcount & Hsum); try (vm_compute; reflexivity).
  - intros ch t Hin. cbn in Hin.
    repeat (destruct Hin as [[=] | Hin]; subst; try lia).
  - assert (claimed_latency_sum scenario_channels ops = 70) as ->
      by (vm_compute; reflexivity).
    lia.
  - exists st. repeat split; assumption.
Qed.

Lemma channel_5_unknown : 5%N ∉ scenario_channels.
Proof. apply (bool_decide_unpack _). vm_compute. exact I. Qed.

(** * The claims *)

(** C1 (the code at the failing input).  One channel, a start at -10 ns and
    its end at -5 ns: one sample is matched, the largest end timestamp of the
    channels is -5 ns and the claim puts [latency_sum] at -5 - (-10) = 5 ns.
    [update_latency] starts its maximum at [duration end(0)], takes the sample
    to end at 0 ns and leaves [latency_sum] at 0 - (-10) = 10 ns. *)
Theorem latency_sum_negative_ends :
  let ops := [AddStart (-10); AddEnd 7 (-5)] in
  forallb (known_channel {[ 7%N ]}) ops = true
  /\ forallb no_clear ops = true
  /\ no_overflow false ops (new_LatencyMeter {[ 7%N ]} 8) = true
  /\ matched {[ 7%N ]} ops = 1%nat
  /\ last_end {[ 7%N ]} ops 0 = Some (-5)
  /\ claimed_latency_sum {[ 7%N ]} ops = 5
  /\ exists st,
       run false ops (new_LatencyMeter {[ 7%N ]} 8) = Some st
       /\ m_latency_count st = 1%N
       /\ m_latency_sum st = 10
       /\ m_latency_sum st <> claimed_latency_sum {[ 7%N ]} ops.
Proof.
  intros ops.
  repeat (split; [vm_compute; reflexivity |]).
  eexists. split; [vm_compute; reflexivity |].
  split; [reflexivity |]. split; [reflexivity |].
  vm_compute. discriminate.
Qed.

(** C2 (the code at the failing input).  After two samples whose end (50 ns)
    precedes the start (100 ns), [latency_count] is 2 and [latency_sum] is
    -100 ns; the mean [latency_sum / latency_count] is -50 ns, and
    [get_latency] returns 9223372036854775758 ns, the quotient of the unsigned
    image 2^64 - 100 of the sum by 2. *)
Theorem get_latency_negative_sum :
  let ops := [AddStart 100; AddEnd 7 50; AddStart 100; AddEnd 7 50] in
  exists st,
    run false ops (new_LatencyMeter {[ 7%N ]} 8) = Some st
    /\ m_latency_count st = 2%N
    /\ m_latency_sum st = -100
    /\ Z.quot (m_latency_sum st) (Z.of_N (m_latency_count st)) = -50
    /\ get_latency false st = (Value 9223372036854775758, st)
    /\ get_latency true st
       = (Value 9223372036854775758,
          {| m_start_timestamps := m_start_timestamps st;
             m_end_timestamps_per_channel := m_end_timestamps_per_channel st;
             m_latency_count := 0%N;
             m_latency_sum := 0 |}).
Proof.
  intros ops. eexists. split; [vm_compute; reflexivity |].
  repeat split.
Qed.

(** C3 (amended).  On a meter reached from its constructor, for a channel
    outside the constructor's set, [add_end_sample] returns no status: with
    assertions compiled in the call stops at the failed assertion, and with
    [NDEBUG] it leaves by the [std::out_of_range] of [unordered_map::at],
    with no timestamp appended and buffers, sum and count as they were. *)
Theorem add_end_sample_unknown_channel (ndebug : bool)
    (output_channels : gset N) (cap : nat) (ops : list op)
    (st : LatencyMeter) (channel_index : N) (timestamp : Z) :
  run ndebug ops (new_LatencyMeter output_channels cap) = Some st ->
  channel_index ∉ output_channels ->
  add_end_sample ndebug channel_index timestamp st
  = if ndebug then ThrowsOutOfRange st else AssertionFailed.
Proof.
  intros Hrun Hch. apply run_dom in Hrun.
  rewrite new_LatencyMeter_dom in Hrun. rewrite <- Hrun in Hch.
  apply not_elem_of_dom in Hch. unfold add_end_sample. rewrite Hch.
  rewrite bool_decide_eq_false_2 by (intros [? ?]; discriminate).
  destruct ndebug; reflexivity.
Qed.

Lemma add_end_sample_unknown_channel_witness :
  exists st,
    run true [AddStart 100; AddEnd 7 150]
        (new_LatencyMeter scenario_channels 8) = Some st
    /\ (5%N ∉ scenario_channels)
    /\ add_end_sample true 5 170 st = ThrowsOutOfRange st.
Proof.
  eexists. split; [vm_compute; reflexivity |].
  split; [exact channel_5_unknown |].
  apply (add_end_sample_unknown_channel true scenario_channels 8
           [AddStart 100; AddEnd 7 150]);
    [vm_compute; reflexivity | exact channel_5_unknown].
Defined.

(** C3 as stated fails where assertions are compiled in: on the fresh meter
    of channels 7 and 9, [add_end_sample(5, 170)] neither returns nor hands
    the caller an error with the meter unchanged; it stops at the
    assertion. *)
Lemma add_end_sample_assert_counterexample :
  let st := new_LatencyMeter scenario_channels 8 in
  (5%N ∉ scenario_channels)
  /\ add_end_sample false 5 170 st = AssertionFailed
  /\ add_end_sample false 5 170 st <> Returns st
  /\ add_end_sample false 5 170 st <> ThrowsOutOfRange st.
Proof.
  intros st. split; [exact channel_5_unknown |].
  assert (add_end_sample false 5 170 st = AssertionFailed) as ->
    by (vm_compute; reflexivity).
  repeat split; discriminate.
Qed.

(** C4 (the code at the failing input).  One channel, a start at -10 ns and
    its end at -5 ns, no buffer near its capacity.  The loop of the
    specification pops the one sample set and accumulates
    (-5) - (-10) = 5 ns; the single pass of [update_latency] pops the same
    sample set, leaves the same buffers and the same [latency_count], and
    accumulates 0 - (-10) = 10 ns, its maximum having started at
    [duration end(0)]. *)
Theorem single_pass_loop_negative_ends :
  let ops := [AddStart (-10); AddEnd 7 (-5)] in
  let st0 := new_LatencyMeter {[ 7%N ]} 8 in
  no_overflow false ops st0 = true
  /\ m_latency_count (spec_run ops st0) = 1%N
  /\ m_latency_sum (spec_run ops st0) = 5
  /\ exists st,
       run false ops st0 = Some st
       /\ same_buffers st (spec_run ops st0)
       /\ m_latency_count st = 1%N
       /\ m_latency_sum st = 10
       /\ m_latency_sum st <> m_latency_sum (spec_run ops st0).
Proof.
  intros ops st0.
  split; [vm_compute; reflexivity |].
  split; [vm_compute; reflexivity |].
  split; [vm_compute; reflexivity |].
  eexists. split; [vm_compute; reflexivity |].
  split; [split; vm_compute; reflexivity |].
  split; [reflexivity |]. split; [reflexivity |].
  vm_compute. discriminate.
Qed.

(** On a meter that no run from the constructor reaches the two differ in
    the number of samples as well: with two samples queued, the loop takes
    both and the single pass one. *)
Example single_pass_differs_off_run :
  let st := {| m_start_timestamps := CircularArray.mk 8 [100; 200];
               m_end_timestamps_per_channel :=
                 {[ 7%N := CircularArray.mk 8 [150; 280] ]};
               m_latency_count := 0%N;
               m_latency_sum := 0 |} in
  m_latency_count (update_latency st) = 1%N
  /\ m_latency_count (update_spec st) = 2%N.
Proof. intros st. split; vm_compute; reflexivity. Qed.

(** C5.  On the meter of channels 7 and 9 with capacity 8, every order of
    feeding the starts 100, 200, 300 ns, the ends 150, 280, 360 ns of channel
    7 and the ends 170, 260, 400 ns of channel 9 that keeps each of the three
    in order leaves [latency_count] at 3 and [latency_sum] at
    (170-100)+(280-200)+(400-300) = 250 ns, and [get_latency] returns the
    truncated quotient 250/3 = 83 ns. *)
Theorem scenario_latency (ndebug : bool) :
  Forall (fun ops =>
            exists st,
              run ndebug ops (new_LatencyMeter scenario_channels 8) = Some st
              /\ m_latency_count st = 3%N
              /\ m_latency_sum st = 250
              /\ (get_latency false st).1 = Value 83)
         scenario_feeds
  /\ (scenario_starts ++ scenario_ends7 ++ scenario_ends9) ∈ scenario_feeds
  /\ (170 - 100) + (280 - 200) + (400 - 300) = 250
  /\ Z.quot 250 3 = 83.
Proof.
  split; [| split; [| split; reflexivity]].
  - assert (forallb (scenario_ok ndebug) scenario_feeds = true) as Hall
      by (destruct ndebug; vm_compute; reflexivity).
    apply Forall_forall. intros ops Hin. apply list_elem_of_In in Hin.
    apply (proj1 (forallb_forall _ _) Hall) in Hin.
    unfold scenario_ok in Hin.
    destruct (run ndebug ops (new_LatencyMeter scenario_channels 8))
      as [st |]; [| discriminate].
    apply andb_true_iff in Hin as [Hin Hlat].
    apply andb_true_iff in Hin as [Hcount Hsum].
    apply N.eqb_eq in Hcount. apply Z.eqb_eq in Hsum.
    exists st. repeat split; auto.
    destruct (get_latency false st).1 as [latency | status]; [| discriminate].
    apply Z.eqb_eq in Hlat. congruence.
  - apply (bool_decide_unpack _). vm_compute. exact I.
Qed.

(** C6.  Whatever sequence of [add_start_sample], [add_end_sample] and
    [get_latency] calls a meter has gone through since its constructor, the
    key set of the per-channel map is the constructor's channel set. *)
Theorem channel_set_immutable (ndebug : bool) (output_channels : gset N)
    (cap : nat) (ops : list op) (st : LatencyMeter) :
  run ndebug ops (new_LatencyMeter output_channels cap) = Some st ->
  dom (m_end_timestamps_per_channel st) = output_channels.
Proof.
  intros Hrun. apply run_dom in Hrun. rewrite Hrun.
  apply new_LatencyMeter_dom.
Qed.

Lemma channel_set_immutable_witness :
  let ops := [AddStart 100; AddEnd 7 150; GetLatency true; AddEnd 9 170;
              AddEnd 5 1; GetLatency false] in
  exists st,
    run true ops (new_LatencyMeter scenario_channels 8) = Some st
    /\ dom (m_end_timestamps_per_channel st) = scenario_channels.
Proof.
  intros ops. eexists. split; [vm_compute; reflexivity |].
  apply (channel_set_immutable true scenario_channels 8 ops).
  vm_compute. reflexivity.
Defined.

(** C7.  The default switch timeout is 0 ms, the value that means never to
    time out, and the default minimum threshold is 1, which meets the lower
    bound 1 of a minimum threshold. *)
Theorem default_scheduler_parameters :
  DEFAULT_SCHEDULER_TIMEOUT = 0
  /\ DEFAULT_SCHEDULER_MIN_THRESHOLD = 1%N
  /\ (1 <= DEFAULT_SCHEDULER_MIN_THRESHOLD)%N.
Proof. repeat split. reflexivity. Qed.

(** C8.  On a meter reached from its constructor, after every
    [add_start_sample] or [add_end_sample] call that completes, the start
    buffer is empty or the buffer of some channel is empty. *)
Theorem no_sample_left_unconsumed (ndebug : bool) (output_channels : gset N)
    (cap : nat) (ops : list op) (o : op) (st st' : LatencyMeter) :
  run ndebug ops (new_LatencyMeter output_channels cap) = Some st ->
  (exists timestamp, o = AddStart timestamp)
  \/ (exists channel_index timestamp, o = AddEnd channel_index timestamp) ->
  step ndebug o st = Returns st' ->
  settled st'.
Proof.
  intros Hrun _ Hstep. apply (settled_step ndebug o st); [| auto].
  apply (settled_run ndebug ops (new_LatencyMeter output_channels cap));
    [apply settled_new_LatencyMeter | exact Hrun].
Qed.

Lemma no_sample_left_unconsumed_witness :
  exists st st',
    run false [AddStart 100; AddEnd 7 150; AddStart 200; AddEnd 7 280]
        (new_LatencyMeter scenario_channels 8) = Some st
    /\ ((exists timestamp, AddEnd 9 170 = AddStart timestamp)
        \/ (exists channel_index timestamp,
             AddEnd 9 170 = AddEnd channel_index timestamp))
    /\ step false (AddEnd 9 170) st = Returns st'
    /\ settled st'.
Proof.
  eexists. eexists.
  split; [vm_compute; reflexivity |].
  split; [right; eauto |].
  split; [vm_compute; reflexivity |].
  eapply (no_sample_left_unconsumed false scenario_channels 8
            [AddStart 100; AddEnd 7 150; AddStart 200; AddEnd 7 280]
            (AddEnd 9 170));
    [vm_compute; reflexivity | right; eauto | vm_compute; reflexivity].
Defined.

(** C9.  [get_latency] changes the meter only when it succeeds with
    [clear = true]: [get_latency(false)] changes nothing, so that a second
    call returns what the first did, and [get_latency(true)] with
    [latency_count == 0] returns not-available and changes nothing. *)
Theorem get_latency_frame (clear : bool) (st : LatencyMeter) :
  ((get_latency clear st).2 <> st ->
   clear = true /\ exists latency, (get_latency clear st).1 = Value latency)
  /\ (get_latency false st).2 = st
  /\ get_latency false (get_latency false st).2 = get_latency false st
  /\ (m_latency_count st = 0%N ->
      get_latency true st = (Unexpected HAILO_NOT_AVAILABLE, st)).
Proof.
  split; [| split; [| split]].
  - destruct (N.eq_dec (m_latency_count st) 0%N) as [Hz | Hnz].
    + rewrite (get_latency_not_available clear st Hz). cbn. congruence.
    + rewrite (get_latency_value clear st Hnz). cbn.
      destruct clear; [eauto | congruence].
  - apply get_latency_keep.
  - rewrite get_latency_keep. reflexivity.
  - apply get_latency_not_available.
Qed.

Lemma get_latency_frame_witness :
  let st := {| m_start_timestamps := CircularArray.mk 8 [300];
               m_end_timestamps_per_channel :=
                 {[ 7%N := CircularArray.mk 8 [] ]};
               m_latency_count := 2%N;
               m_latency_sum := 150 |} in
  let st0 := {| m_start_timestamps := CircularArray.mk 8 [300];
                m_end_timestamps_per_channel :=
                  {[ 7%N := CircularArray.mk 8 [] ]};
                m_latency_count := 0%N;
                m_latency_sum := 0 |} in
  (get_latency true st).2 <> st
  /\ (get_latency true st).1 = Value 75
  /\ (get_latency false st).2 = st
  /\ m_latency_count st0 = 0%N
  /\ get_latency true st0 = (Unexpected HAILO_NOT_AVAILABLE, st0).
Proof.
  intros st st0.
  assert ((get_latency true st).2 <> st) as Hne
    by (vm_compute; intros [=]).
  split; [exact Hne |].
  destruct (get_latency_frame true st) as (Hchange & _).
  destruct (get_latency_frame false st) as (_ & Hkeep & _).
  destruct (get_latency_frame true st0) as (_ & _ & _ & Hempty).
  split; [vm_compute; reflexivity |].
  split; [exact Hkeep |].
  split; [reflexivity | apply Hempty; reflexivity].
Defined.

(** C10.  A freshly constructed scheduler has current and next network-group
    handles both INVALID (UINT32_MAX), is not in forced idle state, is not
    transferring a batch, and has its is-switching and
    has-current-group-finished flags both set. *)
Theorem new_scheduler_state (algorithm : hailo_scheduling_algorithm_t) :
  let s := new_NetworkGroupScheduler algorithm in
  m_current_network_group s = INVALID_NETWORK_GROUP_HANDLE
  /\ m_next_network_group s = INVALID_NETWORK_GROUP_HANDLE
  /\ INVALID_NETWORK_GROUP_HANDLE = (2 ^ 32 - 1)%N
  /\ m_forced_idle_state s = false
  /\ m_is_currently_transferring_batch s = false
  /\ m_is_switching_network_group s = true
  /\ m_has_current_ng_finished s = true
  /\ m_algorithm s = algorithm.
Proof. repeat split. Qed.


(** * Further properties of the latency meter *)

Lemma same_buffers_update_latency (st st' : LatencyMeter) :
  same_buffers st st' -> same_buffers (update_latency st) (update_latency st').
Proof.
  intros [Hstart Hends]. rewrite !update_latency_round.
  unfold all_nonempty. rewrite Hstart, Hends.
  destruct (_ && _); [| split; assumption].
  split; cbn; congruence.
Qed.

Lemma same_buffers_step (ndebug : bool) (o : op) (st st' : LatencyMeter) :
  same_buffers st st' ->
  match step ndebug o st, step ndebug (declear o) st' with
  | Returns st1, Returns st1' => same_buffers st1 st1'
  | ThrowsOutOfRange st1, ThrowsOutOfRange st1' => same_buffers st1 st1'
  | AssertionFailed, AssertionFailed => True
  | _, _ => False
  end.
Proof.
  intros Hsame. pose proof Hsame as [Hstart Hends].
  destruct o as [t | ch t | clear]; cbn [step declear].
  - unfold add_start_sample. apply same_buffers_update_latency.
    split; cbn; congruence.
  - unfold add_end_sample. rewrite Hends.
    destruct (_ && _); [exact I |].
    destruct (m_end_timestamps_per_channel st' !! ch) as [b |];
      [| exact Hsame].
    apply same_buffers_update_latency. split; cbn; congruence.
  - destruct (get_latency_buffers clear st) as [H1 H2].
    destruct (get_latency_buffers false st') as [H3 H4].
    split; congruence.
Qed.

Lemma same_buffers_push_fits (o : op) (st st' : LatencyMeter) :
  same_buffers st st' -> push_fits (declear o) st' = push_fits o st.
Proof.
  intros [Hstart Hends]. destruct o as [t | ch t | clear]; cbn;
    rewrite ?Hstart, ?Hends; reflexivity.
Qed.

Lemma same_buffers_run (ndebug : bool) (ops : list op) (st st' : LatencyMeter) :
  same_buffers st st' ->
  no_overflow ndebug (map declear ops) st' = no_overflow ndebug ops st
  /\ match run ndebug ops st, run ndebug (map declear ops) st' with
     | Some st1, Some st1' => same_buffers st1 st1'
     | None, None => True
     | _, _ => False
     end.
Proof.
  revert st st'. induction ops as [| o ops IH]; intros st st' Hsame; cbn.
  - auto.
  - rewrite (same_buffers_push_fits o st st' Hsame).
    pose proof (same_buffers_step ndebug o st st' Hsame) as Hstep.
    destruct (step ndebug o st) as [st1 | | st1],
             (step ndebug (declear o) st') as [st1' | | st1'];
      try contradiction; auto.
    + destruct (IH st1 st1' Hstep) as [-> H]. auto.
    + destruct (IH st1 st1' Hstep) as [-> H]. auto.
Qed.

Lemma starts_declear (ops : list op) : starts (map declear ops) = starts ops.
Proof.
  induction ops as [| [t | ch t | c] ops IH]; cbn; [| rewrite IH | |]; auto.
Qed.

Lemma ends_declear (ch : N) (ops : list op) :
  ends ch (map declear ops) = ends ch ops.
Proof.
  induction ops as [| [t | ch' t | c] ops IH]; cbn; auto.
  destruct (ch' =? ch)%N; [rewrite IH |]; auto.
Qed.

Lemma matched_declear (output_channels : gset N) (ops : list op) :
  matched output_channels (map declear ops) = matched output_channels ops.
Proof.
  apply matched_eq. unfold is_matched. rewrite starts_declear.
  setoid_rewrite ends_declear. apply matched_is.
Qed.

Lemma known_channel_declear (output_channels : gset N) (ops : list op) :
  forallb (known_channel output_channels) (map declear ops)
  = forallb (known_channel output_channels) ops.
Proof.
  induction ops as [| [t | ch t | c] ops IH]; cbn; rewrite ?IH; reflexivity.
Qed.

Lemma no_clear_declear (ops : list op) :
  forallb no_clear (map declear ops) = true.
Proof. induction ops as [| [t | ch t | c] ops IH]; cbn; auto. Qed.

Lemma sum_latencies_nonneg (f : nat -> Z) (ops : list op) (n : nat) :
  (forall i, (i < n)%nat -> nth i (starts ops) 0 <= f i) ->
  0 <= sum_latencies f ops n.
Proof.
  induction n as [| n IH]; intros H; [reflexivity |].
  rewrite sum_latencies_S. specialize (H n (Nat.lt_succ_diag_r n)) as Hn.
  assert (0 <= sum_latencies f ops n) by (apply IH; intros; apply H; lia).
  lia.
Qed.

(** X1.  On a meter reached from its constructor, [add_end_sample] on a
    channel of the constructor's set returns, with or without [NDEBUG]: the
    timestamp goes to that channel's buffer and [update_latency] runs. *)
Theorem add_end_sample_known_channel (ndebug : bool)
    (output_channels : gset N) (cap : nat) (ops : list op)
    (st : LatencyMeter) (channel_index : N) (timestamp : Z) :
  run ndebug ops (new_LatencyMeter output_channels cap) = Some st ->
  channel_index ∈ output_channels ->
  exists end_timestamps,
    m_end_timestamps_per_channel st !! channel_index = Some end_timestamps
    /\ add_end_sample ndebug channel_index timestamp st
       = Returns
           (update_latency
              {| m_start_timestamps := m_start_timestamps st;
                 m_end_timestamps_per_channel :=
                   <[channel_index :=
                       CircularArray.push_back timestamp end_timestamps]>
                     (m_end_timestamps_per_channel st);
                 m_latency_count := m_latency_count st;
                 m_latency_sum := m_latency_sum st |}).
Proof.
  intros Hrun Hch. apply run_dom in Hrun.
  rewrite new_LatencyMeter_dom in Hrun. rewrite <- Hrun in Hch.
  apply elem_of_dom in Hch as [b Hb]. exists b. split; [exact Hb |].
  unfold add_end_sample. rewrite Hb.
  rewrite bool_decide_eq_true_2 by eauto. rewrite andb_false_r. reflexivity.
Qed.

Lemma add_end_sample_known_channel_witness :
  exists st end_timestamps,
    run false [AddStart 100; AddEnd 7 150]
        (new_LatencyMeter scenario_channels 8) = Some st
    /\ 9%N ∈ scenario_channels
    /\ m_end_timestamps_per_channel st !! 9%N = Some end_timestamps
    /\ add_end_sample false 9 170 st
       = Returns
           (update_latency
              {| m_start_timestamps := m_start_timestamps st;
                 m_end_timestamps_per_channel :=
                   <[9%N := CircularArray.push_back 170 end_timestamps]>
                     (m_end_timestamps_per_channel st);
                 m_latency_count := m_latency_count st;
                 m_latency_sum := m_latency_sum st |}).
Proof.
  assert (9%N ∈ scenario_channels) as Hch
    by (apply (bool_decide_unpack _); vm_compute; exact I).
  eexists.
  destruct (add_end_sample_known_channel false scenario_channels 8
              [AddStart 100; AddEnd 7 150] _ 9%N 170
              ltac:(vm_compute; reflexivity) Hch) as (b & Hb & Hadd).
  exists b. split; [vm_compute; reflexivity |]. auto.
Defined.

(** X2.  A meter constructed with no output channel, reached from its
    constructor, takes every start sample its buffer has room for as a whole
    sample ending at 0: the count goes up by one, the sum by [0 - timestamp]
    in the 64-bit arithmetic of the tick counts (exactly so when
    [latency_sum - timestamp] is a 64-bit tick count), and the buffers are as
    before. *)
Theorem add_start_sample_no_channels (ndebug : bool) (cap : nat)
    (ops : list op) (st : LatencyMeter) (timestamp : Z) :
  run ndebug ops (new_LatencyMeter ∅ cap) = Some st ->
  CircularArray.full (m_start_timestamps st) = false ->
  add_start_sample timestamp st
  = {| m_start_timestamps := m_start_timestamps st;
       m_end_timestamps_per_channel := m_end_timestamps_per_channel st;
       m_latency_count := (m_latency_count st + 1)%N;
       m_latency_sum :=
         duration_add (m_latency_sum st) (duration_sub 0 timestamp) |}
  /\ (- 2 ^ 63 <= m_latency_sum st - timestamp < 2 ^ 63 ->
      m_latency_sum (add_start_sample timestamp st)
      = m_latency_sum st - timestamp).
Proof.
  intros Hrun Hfull.
  pose proof (settled_run ndebug ops _ st
                (settled_new_LatencyMeter ∅ cap) Hrun) as Hset.
  apply run_dom in Hrun. rewrite new_LatencyMeter_dom in Hrun.
  apply dom_empty_inv_L in Hrun.
  destruct Hset as [Hstart | (ch & b & Hch & _)];
    [| rewrite Hrun, lookup_empty in Hch; discriminate].
  apply empty_items in Hstart.
  assert (add_start_sample timestamp st
          = {| m_start_timestamps := m_start_timestamps st;
               m_end_timestamps_per_channel := m_end_timestamps_per_channel st;
               m_latency_count := (m_latency_count st + 1)%N;
               m_latency_sum :=
                 duration_add (m_latency_sum st)
                              (duration_sub 0 timestamp) |}) as ->.
  { unfold add_start_sample, update_latency.
    rewrite (push_back_fits _ _ Hfull), Hstart, Hrun. cbn.
    rewrite map_to_list_empty. cbn. unfold consume_sample. cbn.
    rewrite fmap_empty.
    destruct (m_start_timestamps st) as [c items]. cbn in *. subst items.
    reflexivity. }
  split; [reflexivity |]. intros Hrange. cbn [m_latency_sum].
  unfold duration_add, duration_sub.
  destruct (to_int64_congruent (0 - timestamp)) as [k ->].
  replace (m_latency_sum st + (0 - timestamp + k * 2 ^ 64))
    with (m_latency_sum st - timestamp + k * 2 ^ 64) by lia.
  rewrite to_int64_shift. apply to_int64_small, Hrange.
Qed.

Lemma add_start_sample_no_channels_witness :
  exists st,
    run false [AddStart 100; GetLatency false; AddStart 250]
        (new_LatencyMeter ∅ 4) = Some st
    /\ CircularArray.full (m_start_timestamps st) = false
    /\ m_latency_sum st = -350
    /\ add_start_sample 40 st
       = {| m_start_timestamps := m_start_timestamps st;
            m_end_timestamps_per_channel := m_end_timestamps_per_channel st;
            m_latency_count := (m_latency_count st + 1)%N;
            m_latency_sum :=
              duration_add (m_latency_sum st) (duration_sub 0 40) |}
    /\ (- 2 ^ 63 <= m_latency_sum st - 40 < 2 ^ 63 ->
        m_latency_sum (add_start_sample 40 st) = m_latency_sum st - 40).
Proof.
  eexists. split; [vm_compute; reflexivity |].
  split; [reflexivity |]. split; [reflexivity |].
  apply (add_start_sample_no_channels false 4
           [AddStart 100; GetLatency false; AddStart 250]);
    vm_compute; reflexivity.
Defined.

(** Past the 64-bit range the sum wraps: after a start at 2^63 - 1 ns the
    sum is -(2^63 - 1) ns, and a start at 2 ns takes it to 2^63 - 1 ns. *)
Example add_start_sample_no_channels_wraps :
  exists st,
    run false [AddStart (2 ^ 63 - 1)] (new_LatencyMeter ∅ 4) = Some st
    /\ m_latency_sum st = - (2 ^ 63 - 1)
    /\ m_latency_sum (add_start_sample 2 st) = 2 ^ 63 - 1.
Proof. eexists. split; [vm_compute; reflexivity |]. split; reflexivity. Qed.

(** X3.  [update_latency] does not depend on the order in which the channel
    map is walked: walking the channels in any order gives the meter that
    walking them in the order of the embedding gives. *)
Theorem update_latency_any_order (order : list (N * TimestampsArray))
    (st : LatencyMeter) :
  order ≡ₚ map_to_list (m_end_timestamps_per_channel st) ->
  update_latency_in_order order st = update_latency st.
Proof.
  intros Hperm. unfold update_latency_in_order, update_latency.
  rewrite (scan_ends_perm 0 _ _ Hperm). reflexivity.
Qed.

Lemma update_latency_any_order_witness :
  let st := {| m_start_timestamps := CircularArray.mk 8 [100];
               m_end_timestamps_per_channel :=
                 {[ 7%N := CircularArray.mk 8 [150];
                    9%N := CircularArray.mk 8 [170] ]};
               m_latency_count := 0%N;
               m_latency_sum := 0 |} in
  let order := [(7%N, CircularArray.mk 8 [150]);
                (9%N, CircularArray.mk 8 [170])] in
  order ≡ₚ map_to_list (m_end_timestamps_per_channel st)
  /\ map_to_list (m_end_timestamps_per_channel st) = rev order
  /\ update_latency_in_order order st = update_latency st.
Proof.
  intros st order.
  assert (map_to_list (m_end_timestamps_per_channel st) = rev order) as Hrev
    by (vm_compute; reflexivity).
  assert (order ≡ₚ map_to_list (m_end_timestamps_per_channel st)) as Hperm
    by (rewrite Hrev; apply Permutation_rev).
  split; [exact Hperm |]. split; [exact Hrev |].
  apply (update_latency_any_order order st Hperm).
Defined.

(** X4.  No timestamp is lost, duplicated or reordered: after any sequence
    of calls on known channels that overflows no buffer ([get_latency] calls,
    clearing or not, included), the start buffer holds the starts fed less
    the matched ones, oldest first, and so does each channel's buffer for
    its ends. *)
Theorem buffers_hold_unmatched (ndebug : bool) (output_channels : gset N)
    (cap : nat) (ops : list op) :
  forallb (known_channel output_channels) ops = true ->
  no_overflow ndebug ops (new_LatencyMeter output_channels cap) = true ->
  exists st,
    run ndebug ops (new_LatencyMeter output_channels cap) = Some st
    /\ CircularArray.items (m_start_timestamps st)
       = drop (matched output_channels ops) (starts ops)
    /\ forall ch, ch ∈ output_channels ->
         exists b, m_end_timestamps_per_channel st !! ch = Some b
                   /\ CircularArray.items b
                      = drop (matched output_channels ops) (ends ch ops).
Proof.
  intros Hknown Hfits.
  destruct (same_buffers_run ndebug ops (new_LatencyMeter output_channels cap)
              (new_LatencyMeter output_channels cap)) as [Hfits' Hrun];
    [split; reflexivity |].
  rewrite Hfits in Hfits'.
  destruct (run_tracks ndebug output_channels cap (map declear ops))
    as (st' & Hrun' & Hstart & Hends & _);
    [rewrite known_channel_declear; exact Hknown
    | apply no_clear_declear | exact Hfits' |].
  rewrite Hrun' in Hrun.
  destruct (run ndebug ops (new_LatencyMeter output_channels cap))
    as [st |]; [| contradiction].
  destruct Hrun as [Hs He]. exists st. split; [reflexivity |].
  rewrite matched_declear, starts_declear in Hstart.
  split.
  - rewrite Hs, Hstart. reflexivity.
  - intros ch Hch. rewrite He, Hends, matched_declear, ends_declear.
    rewrite bool_decide_eq_true_2 by exact Hch. eauto.
Qed.

Lemma buffers_hold_unmatched_witness :
  let ops := [AddStart 100; AddEnd 7 150; AddStart 200; GetLatency true;
              AddEnd 9 170; AddEnd 7 280; AddStart 300; GetLatency true] in
  forallb (known_channel scenario_channels) ops = true
  /\ no_overflow false ops (new_LatencyMeter scenario_channels 8) = true
  /\ matched scenario_channels ops = 1%nat
  /\ exists st,
       run false ops (new_LatencyMeter scenario_channels 8) = Some st
       /\ CircularArray.items (m_start_timestamps st)
          = drop (matched scenario_channels ops) (starts ops)
       /\ forall ch, ch ∈ scenario_channels ->
            exists b, m_end_timestamps_per_channel st !! ch = Some b
                      /\ CircularArray.items b
                         = drop (matched scenario_channels ops) (ends ch ops).
Proof.
  intros ops.
  split; [vm_compute; reflexivity |].
  split; [vm_compute; reflexivity |].
  split; [vm_compute; reflexivity |].
  apply (buffers_hold_unmatched false scenario_channels 8 ops);
    vm_compute; reflexivity.
Defined.

(** X5.  After [get_latency(true)], whatever it returned, the next
    [get_latency] fails with not-available and changes nothing. *)
Theorem get_latency_after_clear (clear : bool) (st : LatencyMeter) :
  get_latency clear (get_latency true st).2
  = (Unexpected HAILO_NOT_AVAILABLE, (get_latency true st).2).
Proof.
  apply get_latency_not_available.
  destruct (N.eq_dec (m_latency_count st) 0%N) as [Hz | Hnz].
  - rewrite (get_latency_not_available true st Hz). exact Hz.
  - rewrite (get_latency_value true st Hnz). reflexivity.
Qed.

(** X6.  One [add_start_sample] or [add_end_sample] call that returns takes
    at most one sample: either it leaves [latency_count] and [latency_sum]
    as they were, or it raises [latency_count] by exactly one. *)
Theorem add_sample_takes_at_most_one (ndebug : bool) (o : op)
    (st st' : LatencyMeter) :
  (exists timestamp, o = AddStart timestamp)
  \/ (exists channel_index timestamp, o = AddEnd channel_index timestamp) ->
  step ndebug o st = Returns st' ->
  (m_latency_count st' = m_latency_count st
   /\ m_latency_sum st' = m_latency_sum st)
  \/ m_latency_count st' = (m_latency_count st + 1)%N.
Proof.
  assert (forall st0, (m_latency_count (update_latency st0)
                       = m_latency_count st0
                       /\ m_latency_sum (update_latency st0)
                          = m_latency_sum st0)
                      \/ m_latency_count (update_latency st0)
                         = (m_latency_count st0 + 1)%N) as Hupd.
  { intros st0. rewrite update_latency_round.
    destruct (all_nonempty st0); [right; reflexivity | left; auto]. }
  intros [(t & ->) | (ch & t & ->)]; cbn [step].
  - intros [= <-]. unfold add_start_sample.
    match goal with
    | |- context [update_latency ?st0] => pose proof (Hupd st0) as H
    end.
    cbn [m_latency_count m_latency_sum] in H. exact H.
  - unfold add_end_sample. destruct (_ && _); [discriminate |].
    destruct (m_end_timestamps_per_channel st !! ch); [| discriminate].
    intros [= <-].
    match goal with
    | |- context [update_latency ?st0] => pose proof (Hupd st0) as H
    end.
    cbn [m_latency_count m_latency_sum] in H. exact H.
Qed.

Lemma add_sample_takes_at_most_one_witness :
  exists st st',
    run false [AddStart 100; AddEnd 7 150]
        (new_LatencyMeter scenario_channels 8) = Some st
    /\ ((exists timestamp, AddEnd 9 170 = AddStart timestamp)
        \/ (exists channel_index timestamp,
             AddEnd 9 170 = AddEnd channel_index timestamp))
    /\ step false (AddEnd 9 170) st = Returns st'
    /\ m_latency_count st' = 1%N
    /\ ((m_latency_count st' = m_latency_count st
         /\ m_latency_sum st' = m_latency_sum st)
        \/ m_latency_count st' = (m_latency_count st + 1)%N).
Proof.
  eexists. eexists.
  split; [vm_compute; reflexivity |].
  split; [right; eauto |].
  split; [vm_compute; reflexivity |].
  split; [reflexivity |].
  eapply (add_sample_takes_at_most_one false (AddEnd 9 170));
    [right; eauto | vm_compute; reflexivity].
Defined.

(** X7.  The mean of a run.  After a sequence of calls on known channels
    with no overflow and no clear in which every matched frame starts no
    later than it ends (its end being the largest of zero and the channels'
    end timestamps), at least one frame is matched and the sum of the
    latencies is below 2^63 ns, [get_latency(false)] returns that sum
    divided by the number of matched frames, rounded down. *)
Theorem get_latency_mean_of_run (ndebug : bool) (output_channels : gset N)
    (cap : nat) (ops : list op) :
  forallb (known_channel output_channels) ops = true ->
  forallb no_clear ops = true ->
  no_overflow ndebug ops (new_LatencyMeter output_channels cap) = true ->
  (forall i, (i < matched output_channels ops)%nat ->
             nth i (starts ops) 0 <= max_end output_channels ops i) ->
  (0 < matched output_channels ops)%nat ->
  sum_latencies (max_end output_channels ops) ops
                (matched output_channels ops) < 2 ^ 63 ->
  exists st,
    run ndebug ops (new_LatencyMeter output_channels cap) = Some st
    /\ get_latency false st
       = (Value (sum_latencies (max_end output_channels ops) ops
                               (matched output_channels ops)
                 / Z.of_nat (matched output_channels ops)),
          st).
Proof.
  intros Hknown Hclear Hfits Horder Hpos Hbound.
  destruct (run_tracks ndebug output_channels cap ops Hknown Hclear Hfits)
    as (st & Hrun & _ & _ & Hcount & Hsum).
  pose proof (sum_latencies_nonneg _ ops _ Horder) as Hnonneg.
  rewrite to_int64_small in Hsum by lia.
  exists st. split; [exact Hrun |].
  rewrite get_latency_value by (rewrite Hcount; lia).
  rewrite duration_div_nonneg, Hcount, Hsum, nat_N_Z; [reflexivity |].
  rewrite Hsum. split; [exact Hnonneg | exact Hbound].
Qed.

Lemma get_latency_mean_of_run_witness :
  let ops := scenario_starts ++ scenario_ends7 ++ scenario_ends9 in
  forallb (known_channel scenario_channels) ops = true
  /\ forallb no_clear ops = true
  /\ no_overflow false ops (new_LatencyMeter scenario_channels 8) = true
  /\ (forall i, (i < matched scenario_channels ops)%nat ->
                nth i (starts ops) 0 <= max_end scenario_channels ops i)
  /\ (0 < matched scenario_channels ops)%nat
  /\ sum_latencies (max_end scenario_channels ops) ops
                   (matched scenario_channels ops) < 2 ^ 63
  /\ exists st,
       run false ops (new_LatencyMeter scenario_channels 8) = Some st
       /\ get_latency false st
          = (Value (sum_latencies (max_end scenario_channels ops) ops
                                  (matched scenario_channels ops)
                    / Z.of_nat (matched scenario_channels ops)),
             st).
Proof.
  intros ops.
  assert (matched scenario_channels ops = 3%nat) as Hm
    by (vm_compute; reflexivity).
  assert (forall i, (i < matched scenario_channels ops)%nat ->
                    nth i (starts ops) 0 <= max_end scenario_channels ops i)
    as Horder.
  { rewrite Hm. intros i Hi.
    destruct i as [| [| [| i]]]; [vm_compute; discriminate .. | lia]. }
  split; [vm_compute; reflexivity |].
  split; [vm_compute; reflexivity |].
  split; [vm_compute; reflexivity |].
  split; [exact Horder |].
  split; [rewrite Hm; lia |].
  split; [vm_compute; reflexivity |].
  apply (get_latency_mean_of_run false scenario_channels 8 ops);
    try (vm_compute; reflexivity); [exact Horder | rewrite Hm; lia].
Defined.

(** * InferVStreams *)

(** ** Lookup by name *)

Lemma find_by_name_Value (vstreams : list InferVStreams.VStream)
    (nm : string) (v : InferVStreams.VStream) :
  InferVStreams.find_by_name vstreams nm = InferVStreams.Value v ->
  exists before after,
    vstreams = before ++ v :: after
    /\ InferVStreams.name v = nm
    /\ Forall (fun u => InferVStreams.name u <> nm) before.
Proof.
  induction vstreams as [| u rest IH]; cbn; [discriminate |].
  destruct (String.eqb_spec (InferVStreams.name u) nm) as [Heq | Hne].
  - intros [= ->]. exists [], rest. auto.
  - intros H. destruct (IH H) as (before & after & -> & Hname & Hall).
    exists (u :: before), after. auto.
Qed.

Lemma find_by_name_Unexpected (vstreams : list InferVStreams.VStream)
    (nm : string) (s : InferVStreams.status) :
  InferVStreams.find_by_name vstreams nm = InferVStreams.Unexpected s
  <-> s = InferVStreams.HAILO_NOT_FOUND
      /\ Forall (fun u => InferVStreams.name u <> nm) vstreams.
Proof.
  induction vstreams as [| u rest IH]; cbn.
  - split; [intros [= <-]; auto | intros [-> _]; reflexivity].
  - destruct (String.eqb_spec (InferVStreams.name u) nm) as [Heq | Hne].
    + split; [discriminate |]. intros [_ Hall]. inversion Hall. contradiction.
    + rewrite IH. split; intros [Hs Hall]; split; auto.
      inversion Hall; assumption.
Qed.

Lemma find_by_name_cases (vstreams : list InferVStreams.VStream)
    (nm : string) :
  (exists v, InferVStreams.find_by_name vstreams nm = InferVStreams.Value v)
  \/ InferVStreams.find_by_name vstreams nm
     = InferVStreams.Unexpected InferVStreams.HAILO_NOT_FOUND.
Proof.
  destruct (InferVStreams.find_by_name vstreams nm) as [v | s] eqn:H;
    [eauto | right].
  apply find_by_name_Unexpected in H as [-> _]. reflexivity.
Qed.

(** X8.  [get_input_by_name] returns the first input vstream of that name,
    and fails, with not-found, exactly when no input vstream has it;
    [get_output_by_name] does the same on the output vstreams. *)
Theorem get_by_name_first_match (self : InferVStreams.t) (nm : string) :
  (forall v,
     InferVStreams.get_input_by_name self nm = InferVStreams.Value v ->
     exists before after,
       InferVStreams.m_inputs self = before ++ v :: after
       /\ InferVStreams.name v = nm
       /\ Forall (fun u => InferVStreams.name u <> nm) before)
  /\ (forall s,
        InferVStreams.get_input_by_name self nm = InferVStreams.Unexpected s
        <-> s = InferVStreams.HAILO_NOT_FOUND
            /\ Forall (fun u => InferVStreams.name u <> nm)
                      (InferVStreams.m_inputs self))
  /\ (forall v,
        InferVStreams.get_output_by_name self nm = InferVStreams.Value v ->
        exists before after,
          InferVStreams.m_outputs self = before ++ v :: after
          /\ InferVStreams.name v = nm
          /\ Forall (fun u => InferVStreams.name u <> nm) before)
  /\ (forall s,
        InferVStreams.get_output_by_name self nm = InferVStreams.Unexpected s
        <-> s = InferVStreams.HAILO_NOT_FOUND
            /\ Forall (fun u => InferVStreams.name u <> nm)
                      (InferVStreams.m_outputs self)).
Proof.
  unfold InferVStreams.get_input_by_name, InferVStreams.get_output_by_name.
  split; [| split; [| split]]; intros x;
    first [apply find_by_name_Value | apply find_by_name_Unexpected].
Qed.

Lemma get_by_name_first_match_witness :
  let a := InferVStreams.mkVStream "in0" "net/a" 16 in
  let b := InferVStreams.mkVStream "in1" "net/a" 32 in
  let b' := InferVStreams.mkVStream "in1" "net/b" 64 in
  let self := InferVStreams.new [a; b; b'] [] false in
  InferVStreams.get_input_by_name self "in1" = InferVStreams.Value b
  /\ (exists before after,
        InferVStreams.m_inputs self = before ++ b :: after
        /\ InferVStreams.name b = "in1"
        /\ Forall (fun u => InferVStreams.name u <> "in1") before)
  /\ InferVStreams.get_output_by_name self "in1"
     = InferVStreams.Unexpected InferVStreams.HAILO_NOT_FOUND.
Proof.
  intros a b b' self.
  destruct (get_by_name_first_match self "in1") as (Hin & _ & _ & Hout).
  split; [reflexivity |].
  split; [apply Hin; reflexivity |].
  apply Hout. split; [reflexivity | constructor].
Defined.

(** ** The counts of the constructor *)

Lemma count_network_lookup (m : gmap string N) (v : InferVStreams.VStream)
    (net : string) :
  InferVStreams.count_network m v !! net
  = if bool_decide (InferVStreams.network_name v = net)
    then Some (default 0%N (m !! net) + 1)%N
    else m !! net.
Proof.
  unfold InferVStreams.count_network.
  case_bool_decide as Hnet.
  - subst net. destruct (m !! InferVStreams.network_name v) as [c |];
      rewrite lookup_insert_eq; reflexivity.
  - destruct (m !! InferVStreams.network_name v) as [c |];
      rewrite lookup_insert_ne by exact Hnet; reflexivity.
Qed.

Lemma foldl_count_network (vstreams : list InferVStreams.VStream)
    (m : gmap string N) (net : string) :
  let n := N.of_nat
             (length (filter (fun v => InferVStreams.network_name v = net)
                             vstreams)) in
  foldl InferVStreams.count_network m vstreams !! net
  = if (n =? 0)%N then m !! net else Some (default 0%N (m !! net) + n)%N.
Proof.
  revert m. induction vstreams as [| v rest IH]; intros m; cbn zeta.
  - reflexivity.
  - cbn [foldl]. rewrite IH, count_network_lookup. clear IH.
    rewrite filter_cons. case_decide as Hnet.
    + rewrite bool_decide_eq_true_2 by exact Hnet. cbn [length].
      set (k := length (filter _ rest)).
      set (d := default 0%N (m !! net)).
      destruct (N.eqb_spec (N.of_nat k) 0) as [Hz | Hnz];
        destruct (N.eqb_spec (N.of_nat (S k)) 0); try lia;
        cbn; f_equal; lia.
    + rewrite bool_decide_eq_false_2 by exact Hnet. reflexivity.
Qed.

(** X9.  The constructor counts the vstreams network by network: a network
    is a key of the input count map exactly when some input vstream belongs
    to it, and its count is the number of input vstreams that do; the same
    for the output vstreams. *)
Theorem new_counts_by_network (inputs outputs : list InferVStreams.VStream)
    (is_multi_context : bool) (net : string) :
  let count vstreams :=
    N.of_nat (length (filter (fun v => InferVStreams.network_name v = net)
                             vstreams)) in
  let self := InferVStreams.new inputs outputs is_multi_context in
  InferVStreams.m_network_name_to_input_count self !! net
  = (if (count inputs =? 0)%N then None else Some (count inputs))
  /\ InferVStreams.m_network_name_to_output_count self !! net
     = (if (count outputs =? 0)%N then None else Some (count outputs)).
Proof.
  cbn. rewrite !foldl_count_network, !lookup_empty. cbn [default].
  split; reflexivity.
Qed.

(** ** Parameters against vstream infos *)

Lemma existsb_name (nm : string) (names : list string) :
  existsb (fun n => String.eqb n nm) names = true <-> nm ∈ names.
Proof.
  rewrite existsb_exists, list_elem_of_In. split.
  - intros (n & Hin & Heq). apply String.eqb_eq in Heq. congruence.
  - intros Hin. exists nm. split; [exact Hin | apply String.eqb_refl].
Qed.

Lemma verify_vstream_params_cases {P : Type} (params : list (string * P))
    (vstream_infos : list string) :
  let r := InferVStreams.verify_vstream_params_in_vstream_infos
             params vstream_infos in
  (r = InferVStreams.HAILO_SUCCESS
   <-> Forall (fun p => p.1 ∈ vstream_infos) params)
  /\ (r = InferVStreams.HAILO_SUCCESS \/ r = InferVStreams.HAILO_NOT_FOUND).
Proof.
  induction params as [| [nm p] rest [IH1 IH2]]; cbn.
  - split; [split; [constructor | reflexivity] | left; reflexivity].
  - destruct (existsb _ vstream_infos) eqn:Hfound; cbn.
    + apply existsb_name in Hfound. split; [| exact IH2].
      rewrite IH1. split; [constructor; assumption |].
      intros H. inversion H; assumption.
    + split; [| right; reflexivity].
      split; [discriminate |]. intros H. inversion H as [| ? ? Hin _]; subst.
      apply existsb_name in Hin. cbn in Hin. congruence.
Qed.

(** X10.  [verify_vstream_params_in_vstream_infos] succeeds exactly when the
    name of every parameter is the name of some vstream info, and fails with
    not-found otherwise; with no parameter it succeeds. *)
Theorem verify_vstream_params_spec {P : Type} (params : list (string * P))
    (vstream_infos : list string) :
  let r := InferVStreams.verify_vstream_params_in_vstream_infos
             params vstream_infos in
  (r = InferVStreams.HAILO_SUCCESS
   <-> Forall (fun p => p.1 ∈ vstream_infos) params)
  /\ (r = InferVStreams.HAILO_SUCCESS \/ r = InferVStreams.HAILO_NOT_FOUND).
Proof. apply verify_vstream_params_cases. Qed.

Lemma verify_vstream_params_spec_witness :
  InferVStreams.verify_vstream_params_in_vstream_infos
    [("in0", 1%nat); ("in1", 2%nat)] ["in1"; "out0"; "in0"]
  = InferVStreams.HAILO_SUCCESS
  /\ Forall (fun p : string * nat => p.1 ∈ ["in1"; "out0"; "in0"])
            [("in0", 1%nat); ("in1", 2%nat)]
  /\ InferVStreams.verify_vstream_params_in_vstream_infos
       [("in0", 1%nat); ("in2", 2%nat)] ["in1"; "out0"; "in0"]
     = InferVStreams.HAILO_NOT_FOUND.
Proof.
  split; [reflexivity |]. split; [| reflexivity].
  apply (verify_vstream_params_spec
           [("in0", 1%nat); ("in1", 2%nat)] ["in1"; "out0"; "in0"]).
  reflexivity.
Defined.

(** ** Buffer sizes *)

Lemma check_memory_view_sizes_spec (vstreams : list InferVStreams.VStream)
    (views : list (string * InferVStreams.MemoryView)) (batch_count : N) :
  let r := InferVStreams.check_memory_view_sizes vstreams views batch_count in
  (r = InferVStreams.HAILO_SUCCESS
   <-> Forall (fun nv =>
                 exists v,
                   InferVStreams.find_by_name vstreams nv.1
                   = InferVStreams.Value v
                   /\ ((batch_count * InferVStreams.get_frame_size v)
                         mod 2 ^ 64)%N
                      = InferVStreams.MemoryView_size nv.2)
              views)
  /\ (r = InferVStreams.HAILO_SUCCESS
      \/ r = InferVStreams.HAILO_NOT_FOUND
      \/ r = InferVStreams.HAILO_INVALID_ARGUMENT).
Proof.
  induction views as [| [nm view] rest [IH1 IH2]]; cbn.
  - split; [split; [constructor | reflexivity] | left; reflexivity].
  - destruct (InferVStreams.find_by_name vstreams nm) as [v | s] eqn:Hfind.
    + destruct (N.eqb_spec
                  ((batch_count * InferVStreams.get_frame_size v) mod 2 ^ 64)
                  (InferVStreams.MemoryView_size view)) as [Hsize | Hsize];
        cbn [negb].
      * split; [| exact IH2]. rewrite IH1. split.
        -- intros H. constructor; [exists v; auto | exact H].
        -- intros H. inversion H; assumption.
      * split; [| auto]. split; [discriminate |].
        intros H. inversion H as [| ? ? (v' & Hv' & Hs) _]; subst.
        cbn in Hv', Hs. congruence.
    + apply find_by_name_Unexpected in Hfind as [-> Hnone].
      split; [| auto]. split; [discriminate |].
      intros H. inversion H as [| ? ? (v' & Hv' & _) _]; subst. cbn in Hv'.
      apply find_by_name_Value in Hv' as (before & after & -> & Hname & _).
      apply Forall_app in Hnone as [_ Hnone]. inversion Hnone. contradiction.
Qed.

(** X11.  [verify_memory_view_size] succeeds exactly when every named input
    buffer names an input vstream and has the size [batch_count *
    frame_size] as [size_t] computes it, that is modulo 2^64, and every named
    output buffer likewise; its failures are not-found (a name that is no
    vstream) and invalid-argument (a size that differs). *)
Theorem verify_memory_view_size_spec (self : InferVStreams.t)
    (inputs outputs : list (string * InferVStreams.MemoryView))
    (batch_count : N) :
  let r := InferVStreams.verify_memory_view_size self inputs outputs
             batch_count in
  let sized vstreams (nv : string * InferVStreams.MemoryView) :=
    exists v,
      InferVStreams.find_by_name vstreams nv.1 = InferVStreams.Value v
      /\ ((batch_count * InferVStreams.get_frame_size v) mod 2 ^ 64)%N
         = InferVStreams.MemoryView_size nv.2 in
  (r = InferVStreams.HAILO_SUCCESS
   <-> Forall (sized (InferVStreams.m_inputs self)) inputs
       /\ Forall (sized (InferVStreams.m_outputs self)) outputs)
  /\ (r = InferVStreams.HAILO_SUCCESS
      \/ r = InferVStreams.HAILO_NOT_FOUND
      \/ r = InferVStreams.HAILO_INVALID_ARGUMENT).
Proof.
  cbn zeta. unfold InferVStreams.verify_memory_view_size.
  destruct (check_memory_view_sizes_spec (InferVStreams.m_inputs self)
              inputs batch_count) as [I1 I2].
  destruct (check_memory_view_sizes_spec (InferVStreams.m_outputs self)
              outputs batch_count) as [O1 O2].
  cbn zeta in *.
  destruct (InferVStreams.check_memory_view_sizes
              (InferVStreams.m_inputs self) inputs batch_count) eqn:Hin.
  - split; [| exact O2]. rewrite O1. rewrite <- I1. tauto.
  - split; [| auto]. rewrite <- I1. split; [discriminate | tauto].
  - split; [| auto]. rewrite <- I1. split; [discriminate | tauto].
  - destruct I2 as [? | [? | ?]]; discriminate.
  - destruct I2 as [? | [? | ?]]; discriminate.
Qed.

Lemma verify_memory_view_size_spec_witness :
  let self :=
    InferVStreams.new [InferVStreams.mkVStream "in0" "net" (2 ^ 32)]
                      [InferVStreams.mkVStream "out0" "net" 10] false in
  let inputs := [("in0", InferVStreams.mkMemoryView 0)] in
  let outputs := [("out0", InferVStreams.mkMemoryView (2 ^ 32 * 10))] in
  InferVStreams.verify_memory_view_size self inputs outputs (2 ^ 32)
  = InferVStreams.HAILO_SUCCESS
  /\ Forall (fun nv : string * InferVStreams.MemoryView =>
              exists v,
                InferVStreams.find_by_name (InferVStreams.m_inputs self) nv.1
                = InferVStreams.Value v
                /\ ((2 ^ 32 * InferVStreams.get_frame_size v) mod 2 ^ 64)%N
                   = InferVStreams.MemoryView_size nv.2)
            inputs.
Proof.
  intros self inputs outputs.
  assert (InferVStreams.verify_memory_view_size self inputs outputs (2 ^ 32)
          = InferVStreams.HAILO_SUCCESS) as Hok by (vm_compute; reflexivity).
  split; [exact Hok |].
  apply (verify_memory_view_size_spec self inputs outputs (2 ^ 32)) in Hok.
  apply Hok.
Defined.

(** ** The statuses of the threads *)

Lemma wait_for_results_passed (results : list InferVStreams.status)
    (error_status : InferVStreams.status) :
  Forall (fun s => s = InferVStreams.HAILO_SUCCESS
                   \/ s = InferVStreams.HAILO_STREAM_INTERNAL_ABORT) results ->
  InferVStreams.wait_for_results results error_status = error_status.
Proof.
  intros Hall. revert error_status.
  induction Hall as [| s rest [-> | ->] _ IH]; intros e;
    cbn [InferVStreams.wait_for_results]; [reflexivity | |];
    repeat case_bool_decide; try congruence; apply IH.
Qed.

Lemma wait_for_results_last_failure
    (before after : list InferVStreams.status)
    (s error_status : InferVStreams.status) :
  s <> InferVStreams.HAILO_SUCCESS ->
  s <> InferVStreams.HAILO_STREAM_INTERNAL_ABORT ->
  Forall (fun s => s = InferVStreams.HAILO_SUCCESS
                   \/ s = InferVStreams.HAILO_STREAM_INTERNAL_ABORT) after ->
  InferVStreams.wait_for_results (before ++ s :: after) error_status = s.
Proof.
  intros Hs1 Hs2 Hafter. revert error_status.
  induction before as [| x before IH]; intros e; cbn.
  - rewrite bool_decide_eq_false_2 by exact Hs2.
    rewrite bool_decide_eq_true_2 by exact Hs1.
    apply wait_for_results_passed, Hafter.
  - repeat case_bool_decide; apply IH.
Qed.

Lemma last_failure (results : list InferVStreams.status) :
  Forall (fun s => s = InferVStreams.HAILO_SUCCESS
                   \/ s = InferVStreams.HAILO_STREAM_INTERNAL_ABORT) results
  \/ exists before s after,
       results = before ++ s :: after
       /\ s <> InferVStreams.HAILO_SUCCESS
       /\ s <> InferVStreams.HAILO_STREAM_INTERNAL_ABORT
       /\ Forall (fun s => s = InferVStreams.HAILO_SUCCESS
                           \/ s = InferVStreams.HAILO_STREAM_INTERNAL_ABORT)
                 after.
Proof.
  induction results as [| x rest [IH | (before & s & after & -> & IH)]].
  - left. constructor.
  - destruct (decide (x = InferVStreams.HAILO_SUCCESS)) as [-> | H1];
      [left; constructor; auto |].
    destruct (decide (x = InferVStreams.HAILO_STREAM_INTERNAL_ABORT))
      as [-> | H2]; [left; constructor; auto |].
    right. exists [], x, rest. auto.
  - right. exists (x :: before), s, after. auto.
Qed.

(** X12.  The status [infer] returns once its threads are launched: success
    exactly when every thread ended in success or was aborted, and otherwise
    the status of the last thread, in launch order, that failed otherwise;
    the abort of a stream is never what [infer] returns. *)
Theorem infer_status_spec (results : list InferVStreams.status) :
  let passed s := s = InferVStreams.HAILO_SUCCESS
                  \/ s = InferVStreams.HAILO_STREAM_INTERNAL_ABORT in
  (InferVStreams.infer_status results = InferVStreams.HAILO_SUCCESS
   <-> Forall passed results)
  /\ InferVStreams.infer_status results
     <> InferVStreams.HAILO_STREAM_INTERNAL_ABORT
  /\ (forall before s after,
        results = before ++ s :: after -> ~ passed s -> Forall passed after ->
        InferVStreams.infer_status results = s).
Proof.
  cbn zeta. unfold InferVStreams.infer_status.
  destruct (last_failure results)
    as [Hall | (before & s & after & -> & Hs1 & Hs2 & Hafter)].
  - rewrite (wait_for_results_passed results _ Hall). cbn.
    split; [tauto |]. split; [discriminate |].
    intros before s after -> Hs _. apply Forall_app in Hall as [_ Hall].
    inversion Hall. contradiction.
  - rewrite (wait_for_results_last_failure before after s _ Hs1 Hs2 Hafter).
    rewrite bool_decide_eq_true_2 by exact Hs1.
    split; [| split; [exact Hs2 |]].
    + split; [contradiction |]. intros Hall.
      apply Forall_app in Hall as [_ Hall]. inversion Hall as [| ? ? Hp _].
      destruct Hp; contradiction.
    + intros before' s' after' Heq Hs' Hafter'.
      rewrite <- (wait_for_results_last_failure before after s
                    InferVStreams.HAILO_SUCCESS Hs1 Hs2 Hafter).
      rewrite Heq. apply wait_for_results_last_failure; tauto.
Qed.

Lemma infer_status_spec_witness :
  let results := [InferVStreams.HAILO_STATUS 4;
                  InferVStreams.HAILO_STREAM_INTERNAL_ABORT;
                  InferVStreams.HAILO_INVALID_ARGUMENT;
                  InferVStreams.HAILO_SUCCESS;
                  InferVStreams.HAILO_STREAM_INTERNAL_ABORT] in
  InferVStreams.infer_status results = InferVStreams.HAILO_INVALID_ARGUMENT
  /\ InferVStreams.infer_status
       [InferVStreams.HAILO_STREAM_INTERNAL_ABORT; InferVStreams.HAILO_SUCCESS]
     = InferVStreams.HAILO_SUCCESS.
Proof.
  intros results.
  destruct (infer_status_spec results) as (_ & _ & Hlast).
  destruct (infer_status_spec
              [InferVStreams.HAILO_STREAM_INTERNAL_ABORT;
               InferVStreams.HAILO_SUCCESS]) as (Hok & _).
  split.
  - apply (Hlast [InferVStreams.HAILO_STATUS 4;
                  InferVStreams.HAILO_STREAM_INTERNAL_ABORT]
                 InferVStreams.HAILO_INVALID_ARGUMENT
                 [InferVStreams.HAILO_SUCCESS;
                  InferVStreams.HAILO_STREAM_INTERNAL_ABORT]);
      [reflexivity | intros [H | H]; discriminate |].
    repeat (constructor; [first [left; reflexivity | right; reflexivity] |]).
    constructor.
  - apply Hok.
    repeat (constructor; [first [left; reflexivity | right; reflexivity] |]).
    constructor.
Defined.

(** ** The counts of [verify_network_inputs_and_outputs] *)

Lemma count_input_lookup (m : gmap string (N * N)) (k net : string) :
  InferVStreams.count_input m k !! net
  = if bool_decide (k = net)
    then Some (((default (0%N, 0%N) (m !! net)).1 + 1)%N,
               (default (0%N, 0%N) (m !! net)).2)
    else m !! net.
Proof.
  unfold InferVStreams.count_input. case_bool_decide as Hk.
  - subst net. destruct (m !! k) as [[i o] |]; rewrite lookup_insert_eq;
      reflexivity.
  - destruct (m !! k) as [[i o] |]; rewrite lookup_insert_ne by exact Hk;
      reflexivity.
Qed.

Lemma count_output_lookup (m : gmap string (N * N)) (k net : string) :
  InferVStreams.count_output m k !! net
  = if bool_decide (k = net)
    then Some ((default (0%N, 0%N) (m !! net)).1,
               ((default (0%N, 0%N) (m !! net)).2 + 1)%N)
    else m !! net.
Proof.
  unfold InferVStreams.count_output. case_bool_decide as Hk.
  - subst net. destruct (m !! k) as [[i o] |]; rewrite lookup_insert_eq;
      reflexivity.
  - destruct (m !! k) as [[i o] |]; rewrite lookup_insert_ne by exact Hk;
      reflexivity.
Qed.

Lemma provided_cons (vstreams : list InferVStreams.VStream)
    (nv : string * InferVStreams.MemoryView)
    (views : list (string * InferVStreams.MemoryView)) (net : string) :
  provided vstreams (nv :: views) net
  = ((if bool_decide (network_of vstreams nv.1 = Some net) then 1 else 0)
     + provided vstreams views net)%N.
Proof.
  unfold provided. rewrite filter_cons.
  case_decide as H.
  - rewrite bool_decide_eq_true_2 by exact H. cbn [length]. lia.
  - rewrite bool_decide_eq_false_2 by exact H. lia.
Qed.

Lemma count_inputs_Value (self : InferVStreams.t)
    (views : list (string * InferVStreams.MemoryView))
    (m m' : gmap string (N * N)) (net : string) :
  InferVStreams.count_inputs self views m = InferVStreams.Value m' ->
  let n := provided (InferVStreams.m_inputs self) views net in
  m' !! net
  = if (n =? 0)%N then m !! net
    else Some (((default (0%N, 0%N) (m !! net)).1 + n)%N,
               (default (0%N, 0%N) (m !! net)).2).
Proof.
  revert m. induction views as [| [nm view] rest IH]; intros m; cbn zeta.
  - intros [= <-]. reflexivity.
  - cbn [InferVStreams.count_inputs]. rewrite provided_cons. cbn [fst].
    unfold network_of, InferVStreams.get_input_by_name in *.
    destruct (InferVStreams.find_by_name (InferVStreams.m_inputs self) nm)
      as [v | s]; [| discriminate].
    intros H. rewrite (IH _ H), count_input_lookup. clear IH H.
    generalize (provided (InferVStreams.m_inputs self) rest net) as k.
    intros k.
    destruct (decide (InferVStreams.network_name v = net)) as [Hnet | Hnet].
    + rewrite !bool_decide_eq_true_2 by congruence.
      destruct (N.eqb_spec k 0), (N.eqb_spec (1 + k) 0); try lia;
        cbn; f_equal; f_equal; lia.
    + rewrite !bool_decide_eq_false_2 by congruence. reflexivity.
Qed.

Lemma count_outputs_Value (self : InferVStreams.t)
    (views : list (string * InferVStreams.MemoryView))
    (m m' : gmap string (N * N)) (net : string) :
  InferVStreams.count_outputs self views m = InferVStreams.Value m' ->
  let n := provided (InferVStreams.m_outputs self) views net in
  m' !! net
  = if (n =? 0)%N then m !! net
    else Some ((default (0%N, 0%N) (m !! net)).1,
               ((default (0%N, 0%N) (m !! net)).2 + n)%N).
Proof.
  revert m. induction views as [| [nm view] rest IH]; intros m; cbn zeta.
  - intros [= <-]. reflexivity.
  - cbn [InferVStreams.count_outputs]. rewrite provided_cons. cbn [fst].
    unfold network_of, InferVStreams.get_output_by_name in *.
    destruct (InferVStreams.find_by_name (InferVStreams.m_outputs self) nm)
      as [v | s]; [| discriminate].
    intros H. rewrite (IH _ H), count_output_lookup. clear IH H.
    generalize (provided (InferVStreams.m_outputs self) rest net) as k.
    intros k.
    destruct (decide (InferVStreams.network_name v = net)) as [Hnet | Hnet].
    + rewrite !bool_decide_eq_true_2 by congruence.
      destruct (N.eqb_spec k 0), (N.eqb_spec (1 + k) 0); try lia;
        cbn; f_equal; f_equal; lia.
    + rewrite !bool_decide_eq_false_2 by congruence. reflexivity.
Qed.

(** The first two loops fail, with not-found, exactly on a name that finds
    no vstream. *)
Lemma count_inputs_cases (self : InferVStreams.t)
    (views : list (string * InferVStreams.MemoryView))
    (m : gmap string (N * N)) :
  (Forall (fun nv => is_Some (network_of (InferVStreams.m_inputs self) nv.1))
          views
   /\ exists m', InferVStreams.count_inputs self views m
                 = InferVStreams.Value m')
  \/ (Exists (fun nv => network_of (InferVStreams.m_inputs self) nv.1 = None)
             views
      /\ InferVStreams.count_inputs self views m
         = InferVStreams.Unexpected InferVStreams.HAILO_NOT_FOUND).
Proof.
  revert m. induction views as [| [nm view] rest IH]; intros m.
  - left. split; [constructor | eexists; reflexivity].
  - cbn [InferVStreams.count_inputs]. unfold network_of in *.
    unfold InferVStreams.get_input_by_name.
    destruct (find_by_name_cases (InferVStreams.m_inputs self) nm)
      as [[v Hv] | Hv].
    + rewrite Hv.
      destruct (IH (InferVStreams.count_input m (InferVStreams.network_name v)))
        as [[Hall Hval] | [Hex Herr]].
      * left. split; [| exact Hval]. constructor; [cbn; rewrite Hv; eauto |].
        exact Hall.
      * right. split; [right; exact Hex | exact Herr].
    + rewrite Hv. right. split; [| reflexivity].
      left. cbn. rewrite Hv. reflexivity.
Qed.

Lemma count_outputs_cases (self : InferVStreams.t)
    (views : list (string * InferVStreams.MemoryView))
    (m : gmap string (N * N)) :
  (Forall (fun nv => is_Some (network_of (InferVStreams.m_outputs self) nv.1))
          views
   /\ exists m', InferVStreams.count_outputs self views m
                 = InferVStreams.Value m')
  \/ (Exists (fun nv => network_of (InferVStreams.m_outputs self) nv.1 = None)
             views
      /\ InferVStreams.count_outputs self views m
         = InferVStreams.Unexpected InferVStreams.HAILO_NOT_FOUND).
Proof.
  revert m. induction views as [| [nm view] rest IH]; intros m.
  - left. split; [constructor | eexists; reflexivity].
  - cbn [InferVStreams.count_outputs]. unfold network_of in *.
    unfold InferVStreams.get_output_by_name.
    destruct (find_by_name_cases (InferVStreams.m_outputs self) nm)
      as [[v Hv] | Hv].
    + rewrite Hv.
      destruct (IH (InferVStreams.count_output m
                      (InferVStreams.network_name v)))
        as [[Hall Hval] | [Hex Herr]].
      * left. split; [| exact Hval]. constructor; [cbn; rewrite Hv; eauto |].
        exact Hall.
      * right. split; [right; exact Hex | exact Herr].
    + rewrite Hv. right. split; [| reflexivity].
      left. cbn. rewrite Hv. reflexivity.
Qed.

Lemma known_or_unknown (vstreams : list InferVStreams.VStream)
    (views : list (string * InferVStreams.MemoryView)) :
  Forall (fun nv => is_Some (network_of vstreams nv.1)) views ->
  Exists (fun nv => network_of vstreams nv.1 = None) views -> False.
Proof.
  intros Hall Hex. apply Exists_exists in Hex as (nv & Hin & Hnone).
  rewrite Forall_forall in Hall. destruct (Hall nv Hin) as [net Hnet].
  congruence.
Qed.

Lemma adds_zeros_refl (m : gmap string N) : adds_zeros m m.
Proof. intros net. left. reflexivity. Qed.

Lemma adds_zeros_trans (m1 m2 m3 : gmap string N) :
  adds_zeros m1 m2 -> adds_zeros m2 m3 -> adds_zeros m1 m3.
Proof.
  intros H12 H23 net.
  destruct (H12 net) as [H | [H H']], (H23 net) as [K | [K K']];
    first [left; congruence | right; split; congruence].
Qed.

Lemma adds_zeros_count_of (m m' : gmap string N) (net : string) :
  adds_zeros m m' -> count_of m' net = count_of m net.
Proof.
  intros H. unfold count_of. destruct (H net) as [-> | [-> ->]]; reflexivity.
Qed.

Lemma index_count_of (k : string) (m : gmap string N) :
  (InferVStreams.index k m).1 = count_of m k.
Proof.
  unfold InferVStreams.index, count_of. destruct (m !! k); reflexivity.
Qed.

Lemma index_adds_zeros (k : string) (m : gmap string N) :
  adds_zeros m (InferVStreams.index k m).2.
Proof.
  unfold InferVStreams.index. destruct (m !! k) as [c |] eqn:Hk; cbn.
  - apply adds_zeros_refl.
  - intros net. destruct (decide (k = net)) as [<- | Hne].
    + right. rewrite lookup_insert_eq. auto.
    + left. apply lookup_insert_ne, Hne.
Qed.

(** The third loop: its status, and what it does to the pipeline. *)
Lemma check_counts_spec (counts : list (string * (N * N)))
    (self : InferVStreams.t) :
  let r := InferVStreams.check_counts counts self in
  (r.1 = InferVStreams.HAILO_SUCCESS
   \/ r.1 = InferVStreams.HAILO_INVALID_ARGUMENT)
  /\ (r.1 = InferVStreams.HAILO_SUCCESS
      <-> Forall (fun e =>
                    e.2.1 = count_of
                              (InferVStreams.m_network_name_to_input_count
                                 self) e.1
                    /\ e.2.2 = count_of
                                 (InferVStreams.m_network_name_to_output_count
                                    self) e.1)
                 counts)
  /\ InferVStreams.m_inputs r.2 = InferVStreams.m_inputs self
  /\ InferVStreams.m_outputs r.2 = InferVStreams.m_outputs self
  /\ InferVStreams.m_is_multi_context r.2
     = InferVStreams.m_is_multi_context self
  /\ adds_zeros (InferVStreams.m_network_name_to_input_count self)
                (InferVStreams.m_network_name_to_input_count r.2)
  /\ adds_zeros (InferVStreams.m_network_name_to_output_count self)
                (InferVStreams.m_network_name_to_output_count r.2).
Proof.
  revert self. induction counts as [| [net [i o]] rest IH]; intros self.
  - cbn. repeat split; auto using adds_zeros_refl.
  - cbn zeta. cbn [InferVStreams.check_counts].
    pose proof (index_count_of net
                  (InferVStreams.m_network_name_to_input_count self)) as Hi.
    pose proof (index_adds_zeros net
                  (InferVStreams.m_network_name_to_input_count self)) as Zi.
    destruct (InferVStreams.index net
                (InferVStreams.m_network_name_to_input_count self))
      as [input_count input_counts]. cbn [fst snd] in Hi, Zi.
    destruct (N.eqb_spec i input_count) as [Hieq | Hine]; cbn [negb].
    2:{ cbn. repeat split; auto using adds_zeros_refl; try discriminate.
        intros H. inversion H as [| ? ? [Hin _] _]. cbn in Hin. congruence. }
    cbn [InferVStreams.m_network_name_to_output_count
         InferVStreams.m_network_name_to_input_count
         InferVStreams.m_inputs InferVStreams.m_outputs
         InferVStreams.m_is_multi_context].
    pose proof (index_count_of net
                  (InferVStreams.m_network_name_to_output_count self)) as Ho.
    pose proof (index_adds_zeros net
                  (InferVStreams.m_network_name_to_output_count self)) as Zo.
    destruct (InferVStreams.index net
                (InferVStreams.m_network_name_to_output_count self))
      as [output_count output_counts]. cbn [fst snd] in Ho, Zo.
    destruct (N.eqb_spec o output_count) as [Hoeq | Hone]; cbn [negb].
    2:{ cbn. repeat split; auto using adds_zeros_refl; try discriminate.
        intros H. inversion H as [| ? ? [_ Hout] _]. cbn in Hout.
        congruence. }
    match goal with
    | |- context [InferVStreams.check_counts rest ?s2] =>
        destruct (IH s2) as (R1 & R2 & R3 & R4 & R5 & R6 & R7)
    end.
    cbn [InferVStreams.m_network_name_to_output_count
         InferVStreams.m_network_name_to_input_count
         InferVStreams.m_inputs InferVStreams.m_outputs
         InferVStreams.m_is_multi_context] in *.
    split; [exact R1 |]. split.
    + rewrite R2. split.
      * intros H. constructor; [cbn; split; congruence |].
        eapply Forall_impl; [exact H |]. cbn. intros e [E1 E2].
        rewrite (adds_zeros_count_of _ _ _ Zi) in E1.
        rewrite (adds_zeros_count_of _ _ _ Zo) in E2. auto.
      * intros H. inversion H as [| ? ? _ Hrest]; subst.
        eapply Forall_impl; [exact Hrest |]. cbn. intros e [E1 E2].
        rewrite (adds_zeros_count_of _ _ _ Zi).
        rewrite (adds_zeros_count_of _ _ _ Zo). auto.
    + repeat split; auto; eapply adds_zeros_trans; eauto.
Qed.

Lemma provided_pos (vstreams : list InferVStreams.VStream)
    (views : list (string * InferVStreams.MemoryView)) (net : string) :
  provided vstreams views net <> 0%N
  <-> net ∈ omap (fun nv => network_of vstreams nv.1) views.
Proof.
  rewrite list_elem_of_omap. unfold provided. split.
  - intros H.
    destruct (filter (fun nv => network_of vstreams nv.1 = Some net) views)
      as [| nv l] eqn:Hf; [cbn in H; lia |].
    assert (nv ∈ filter (fun nv => network_of vstreams nv.1 = Some net) views)
      as Hin by (rewrite Hf; left).
    apply list_elem_of_filter in Hin as [Hnet Hin]. eauto.
  - intros (nv & Hin & Hnet).
    assert (nv ∈ filter (fun nv => network_of vstreams nv.1 = Some net) views)
      as Hf by (apply list_elem_of_filter; auto).
    destruct (filter _ views); [inversion Hf | cbn; lia].
Qed.

(** The map the first two loops build. *)
Lemma counts_lookup (self : InferVStreams.t)
    (inputs outputs : list (string * InferVStreams.MemoryView))
    (m1 m2 : gmap string (N * N)) (net : string) :
  InferVStreams.count_inputs self inputs ∅ = InferVStreams.Value m1 ->
  InferVStreams.count_outputs self outputs m1 = InferVStreams.Value m2 ->
  let i := provided (InferVStreams.m_inputs self) inputs net in
  let o := provided (InferVStreams.m_outputs self) outputs net in
  m2 !! net = if (i =? 0)%N && (o =? 0)%N then None else Some (i, o).
Proof.
  intros H1 H2. cbn zeta.
  rewrite (count_outputs_Value self outputs m1 m2 net H2).
  rewrite (count_inputs_Value self inputs ∅ m1 net H1).
  rewrite lookup_empty.
  destruct (N.eqb_spec (provided (InferVStreams.m_inputs self) inputs net) 0)
    as [-> | Hi],
    (N.eqb_spec (provided (InferVStreams.m_outputs self) outputs net) 0)
    as [-> | Ho]; cbn; try reflexivity; f_equal; f_equal; lia.
Qed.

Lemma counts_dom (self : InferVStreams.t)
    (inputs outputs : list (string * InferVStreams.MemoryView))
    (m1 m2 : gmap string (N * N)) :
  InferVStreams.count_inputs self inputs ∅ = InferVStreams.Value m1 ->
  InferVStreams.count_outputs self outputs m1 = InferVStreams.Value m2 ->
  dom m2 = networks_met self inputs outputs.
Proof.
  intros H1 H2. apply set_eq. intros net.
  rewrite elem_of_dom, (counts_lookup self inputs outputs m1 m2 net H1 H2).
  unfold networks_met. rewrite elem_of_list_to_set, elem_of_app.
  rewrite <- !provided_pos.
  destruct (N.eqb_spec (provided (InferVStreams.m_inputs self) inputs net) 0)
    as [Hi | Hi],
    (N.eqb_spec (provided (InferVStreams.m_outputs self) outputs net) 0)
    as [Ho | Ho]; cbn; split; intros H; eauto;
    try (destruct H as [? ?]; discriminate); tauto.
Qed.

Lemma in_key_order_elem_of {V : Type} (m : gmap string V) (e : string * V) :
  e ∈ InferVStreams.in_key_order m <-> m !! e.1 = Some e.2.
Proof.
  unfold InferVStreams.in_key_order. rewrite merge_sort_Permutation.
  destruct e as [k v]. apply elem_of_map_to_list.
Qed.

(** The three ways through [verify_network_inputs_and_outputs]. *)
Lemma verify_network_cases (self : InferVStreams.t)
    (inputs outputs : list (string * InferVStreams.MemoryView)) :
  let r := InferVStreams.verify_network_inputs_and_outputs self inputs
             outputs in
  let known vstreams (nv : string * InferVStreams.MemoryView) :=
    is_Some (network_of vstreams nv.1) in
  let unknown vstreams (nv : string * InferVStreams.MemoryView) :=
    network_of vstreams nv.1 = None in
  (Exists (unknown (InferVStreams.m_inputs self)) inputs
   /\ r = (InferVStreams.HAILO_NOT_FOUND, self))
  \/ (Forall (known (InferVStreams.m_inputs self)) inputs
      /\ Exists (unknown (InferVStreams.m_outputs self)) outputs
      /\ r = (InferVStreams.HAILO_NOT_FOUND, self))
  \/ (Forall (known (InferVStreams.m_inputs self)) inputs
      /\ Forall (known (InferVStreams.m_outputs self)) outputs
      /\ exists counts : gmap string (N * N),
           (forall net,
              counts !! net
              = if (provided (InferVStreams.m_inputs self) inputs net =? 0)%N
                   && (provided (InferVStreams.m_outputs self) outputs net
                       =? 0)%N
                then None
                else Some (provided (InferVStreams.m_inputs self) inputs net,
                           provided (InferVStreams.m_outputs self) outputs
                                    net))
           /\ size counts = size (networks_met self inputs outputs)
           /\ r = if InferVStreams.m_is_multi_context self
                     && negb (size (networks_met self inputs outputs)
                              =? size
                                   (InferVStreams.m_network_name_to_input_count
                                      self))%nat
                  then (InferVStreams.HAILO_INVALID_ARGUMENT, self)
                  else InferVStreams.check_counts
                         (InferVStreams.in_key_order counts) self).
Proof.
  cbn zeta. unfold InferVStreams.verify_network_inputs_and_outputs.
  destruct (count_inputs_cases self inputs ∅)
    as [[Hin [m1 H1]] | [Hin H1]]; rewrite H1; [| left; auto].
  destruct (count_outputs_cases self outputs m1)
    as [[Hout [m2 H2]] | [Hout H2]]; rewrite H2; [| right; left; auto].
  right. right. split; [exact Hin |]. split; [exact Hout |].
  exists m2. split; [intros net; apply (counts_lookup self _ _ m1); auto |].
  assert (size m2 = size (networks_met self inputs outputs)) as Hsize
    by (rewrite <- (counts_dom self inputs outputs m1 m2 H1 H2);
        symmetry; apply size_dom).
  split; [exact Hsize |]. rewrite Hsize.
  destruct (InferVStreams.m_is_multi_context self); cbn [negb orb andb];
    reflexivity.
Qed.

Lemma check_counts_met (self : InferVStreams.t)
    (inputs outputs : list (string * InferVStreams.MemoryView))
    (counts : gmap string (N * N)) :
  (forall net,
     counts !! net
     = if (provided (InferVStreams.m_inputs self) inputs net =? 0)%N
          && (provided (InferVStreams.m_outputs self) outputs net =? 0)%N
       then None
       else Some (provided (InferVStreams.m_inputs self) inputs net,
                  provided (InferVStreams.m_outputs self) outputs net)) ->
  Forall (fun e =>
            e.2.1 = count_of (InferVStreams.m_network_name_to_input_count
                                self) e.1
            /\ e.2.2 = count_of (InferVStreams.m_network_name_to_output_count
                                   self) e.1)
         (InferVStreams.in_key_order counts)
  <-> forall net,
        net ∈ networks_met self inputs outputs ->
        provided (InferVStreams.m_inputs self) inputs net
        = count_of (InferVStreams.m_network_name_to_input_count self) net
        /\ provided (InferVStreams.m_outputs self) outputs net
           = count_of (InferVStreams.m_network_name_to_output_count self) net.
Proof.
  intros Hcounts. rewrite Forall_forall.
  assert (forall net, net ∈ networks_met self inputs outputs
                      <-> (provided (InferVStreams.m_inputs self) inputs net
                           =? 0)%N
                          && (provided (InferVStreams.m_outputs self) outputs
                                       net =? 0)%N = false) as Hmet.
  { intros net. unfold networks_met.
    rewrite elem_of_list_to_set, elem_of_app, <- !provided_pos.
    rewrite andb_false_iff, !N.eqb_neq. tauto. }
  split.
  - intros H net Hnet. apply Hmet in Hnet.
    specialize (H (net, (provided (InferVStreams.m_inputs self) inputs net,
                         provided (InferVStreams.m_outputs self) outputs net))).
    apply H. apply in_key_order_elem_of. cbn. rewrite Hcounts, Hnet.
    reflexivity.
  - intros H [net [i o]] Hin. apply in_key_order_elem_of in Hin. cbn in *.
    rewrite Hcounts in Hin.
    destruct (_ && _) eqn:Hnet; [discriminate |].
    injection Hin as <- <-. apply H, Hmet, Hnet.
Qed.

(** X13.  [verify_network_inputs_and_outputs] returns not-found exactly when
    some named input buffer names no input vstream or some named output
    buffer names no output vstream, and then it leaves the pipeline as it
    was; its other statuses are success and invalid-argument. *)
Theorem verify_network_not_found (self : InferVStreams.t)
    (inputs outputs : list (string * InferVStreams.MemoryView)) :
  let r := InferVStreams.verify_network_inputs_and_outputs self inputs
             outputs in
  (r.1 = InferVStreams.HAILO_NOT_FOUND
   <-> Exists (fun nv => network_of (InferVStreams.m_inputs self) nv.1 = None)
              inputs
       \/ Exists (fun nv =>
                    network_of (InferVStreams.m_outputs self) nv.1 = None)
                 outputs)
  /\ (r.1 = InferVStreams.HAILO_NOT_FOUND -> r.2 = self)
  /\ (r.1 = InferVStreams.HAILO_SUCCESS
      \/ r.1 = InferVStreams.HAILO_NOT_FOUND
      \/ r.1 = InferVStreams.HAILO_INVALID_ARGUMENT).
Proof.
  cbn zeta.
  destruct (verify_network_cases self inputs outputs)
    as [[Hin ->] | [(Hin & Hout & ->) | (Hin & Hout & counts & _ & _ & ->)]];
    cbn [fst snd].
  - repeat split; auto.
  - repeat split; auto.
  - assert ((if InferVStreams.m_is_multi_context self
                && negb (size (networks_met self inputs outputs)
                         =? size (InferVStreams.m_network_name_to_input_count
                                    self))%nat
             then (InferVStreams.HAILO_INVALID_ARGUMENT, self)
             else InferVStreams.check_counts
                    (InferVStreams.in_key_order counts) self).1
            = InferVStreams.HAILO_SUCCESS
            \/ (if InferVStreams.m_is_multi_context self
                   && negb (size (networks_met self inputs outputs)
                            =? size
                                 (InferVStreams.m_network_name_to_input_count
                                    self))%nat
                then (InferVStreams.HAILO_INVALID_ARGUMENT, self)
                else InferVStreams.check_counts
                       (InferVStreams.in_key_order counts) self).1
               = InferVStreams.HAILO_INVALID_ARGUMENT) as Hr.
    { destruct (_ && _); [right; reflexivity |].
      apply (check_counts_spec (InferVStreams.in_key_order counts) self). }
    split; [| split; [| tauto]].
    + split.
      * intros H. destruct Hr as [Hr | Hr]; rewrite Hr in H; discriminate.
      * intros [H | H]; exfalso;
          [apply (known_or_unknown _ inputs Hin H)
          | apply (known_or_unknown _ outputs Hout H)].
    + intros H. destruct Hr as [Hr | Hr]; rewrite Hr in H; discriminate.
Qed.

Lemma verify_network_not_found_witness :
  let self :=
    InferVStreams.new [InferVStreams.mkVStream "in0" "net" 16]
                      [InferVStreams.mkVStream "out0" "net" 8] false in
  let inputs := [("in0", InferVStreams.mkMemoryView 16)] in
  let outputs := [("out1", InferVStreams.mkMemoryView 8)] in
  Exists (fun nv : string * InferVStreams.MemoryView =>
            network_of (InferVStreams.m_outputs self) nv.1 = None) outputs
  /\ InferVStreams.verify_network_inputs_and_outputs self inputs outputs
     = (InferVStreams.HAILO_NOT_FOUND, self).
Proof.
  intros self inputs outputs.
  assert (Exists (fun nv : string * InferVStreams.MemoryView =>
                    network_of (InferVStreams.m_outputs self) nv.1 = None)
                 outputs) as Hex by (left; reflexivity).
  split; [exact Hex |].
  destruct (verify_network_not_found self inputs outputs) as (H1 & H2 & _).
  cbn zeta in H1, H2.
  assert ((InferVStreams.verify_network_inputs_and_outputs self inputs
             outputs).1 = InferVStreams.HAILO_NOT_FOUND) as Hs
    by (apply H1; right; exact Hex).
  specialize (H2 Hs).
  destruct (InferVStreams.verify_network_inputs_and_outputs self inputs
              outputs) as [s self']. cbn in Hs, H2. congruence.
Defined.

Lemma verify_network_success_iff (self : InferVStreams.t)
    (inputs outputs : list (string * InferVStreams.MemoryView)) :
  (InferVStreams.verify_network_inputs_and_outputs self inputs outputs).1
  = InferVStreams.HAILO_SUCCESS
  <-> Forall (fun nv =>
                is_Some (network_of (InferVStreams.m_inputs self) nv.1))
             inputs
      /\ Forall (fun nv =>
                   is_Some (network_of (InferVStreams.m_outputs self) nv.1))
                outputs
      /\ (InferVStreams.m_is_multi_context self = true ->
          size (networks_met self inputs outputs)
          = size (InferVStreams.m_network_name_to_input_count self))
      /\ (forall net,
            net ∈ networks_met self inputs outputs ->
            provided (InferVStreams.m_inputs self) inputs net
            = count_of (InferVStreams.m_network_name_to_input_count self) net
            /\ provided (InferVStreams.m_outputs self) outputs net
               = count_of (InferVStreams.m_network_name_to_output_count self)
                          net).
Proof.
  destruct (verify_network_cases self inputs outputs)
    as [[Hin ->] | [(Hin & Hout & ->) | (Hin & Hout & counts & Hc & _ & ->)]];
    cbn [fst snd].
  - split; [discriminate |]. intros (H & _). exfalso.
    apply (known_or_unknown _ inputs H Hin).
  - split; [discriminate |]. intros (_ & H & _). exfalso.
    apply (known_or_unknown _ outputs H Hout).
  - rewrite <- (check_counts_met self inputs outputs counts Hc).
    destruct (InferVStreams.m_is_multi_context self) eqn:Hmulti;
      cbn [andb].
    + destruct (Nat.eqb_spec (size (networks_met self inputs outputs))
                  (size (InferVStreams.m_network_name_to_input_count self)))
        as [Hsize | Hsize]; cbn [negb fst].
      * rewrite (proj1 (proj2 (check_counts_spec _ self))). tauto.
      * split; [discriminate |]. intros (_ & _ & H & _).
        specialize (H eq_refl). contradiction.
    + rewrite (proj1 (proj2 (check_counts_spec _ self))).
      split; [intros H; repeat split; auto; discriminate | tauto].
Qed.

(** X14.  [verify_network_inputs_and_outputs] succeeds exactly when every
    named buffer names a vstream of its kind, every network met that way has
    as many named input buffers as the input count map holds for it (0 for a
    network the map has not) and as many named output buffers as the output
    count map holds, and, for a multi-context pipeline, the networks met are
    as many as the keys of the input count map. *)
Theorem verify_network_success (self : InferVStreams.t)
    (inputs outputs : list (string * InferVStreams.MemoryView)) :
  (InferVStreams.verify_network_inputs_and_outputs self inputs outputs).1
  = InferVStreams.HAILO_SUCCESS
  <-> Forall (fun nv =>
                is_Some (network_of (InferVStreams.m_inputs self) nv.1))
             inputs
      /\ Forall (fun nv =>
                   is_Some (network_of (InferVStreams.m_outputs self) nv.1))
                outputs
      /\ (InferVStreams.m_is_multi_context self = true ->
          size (networks_met self inputs outputs)
          = size (InferVStreams.m_network_name_to_input_count self))
      /\ (forall net,
            net ∈ networks_met self inputs outputs ->
            provided (InferVStreams.m_inputs self) inputs net
            = count_of (InferVStreams.m_network_name_to_input_count self) net
            /\ provided (InferVStreams.m_outputs self) outputs net
               = count_of (InferVStreams.m_network_name_to_output_count self)
                          net).
Proof. apply verify_network_success_iff. Qed.

Lemma verify_network_success_witness :
  let self :=
    InferVStreams.new [InferVStreams.mkVStream "in0" "net/a" 16;
                       InferVStreams.mkVStream "in1" "net/b" 16]
                      [InferVStreams.mkVStream "out0" "net/a" 8;
                       InferVStreams.mkVStream "out1" "net/b" 8] false in
  let inputs := [("in0", InferVStreams.mkMemoryView 16)] in
  let outputs := [("out0", InferVStreams.mkMemoryView 8)] in
  InferVStreams.verify_network_inputs_and_outputs self inputs outputs
  = (InferVStreams.HAILO_SUCCESS, self)
  /\ (forall net,
        net ∈ networks_met self inputs outputs ->
        provided (InferVStreams.m_inputs self) inputs net
        = count_of (InferVStreams.m_network_name_to_input_count self) net
        /\ provided (InferVStreams.m_outputs self) outputs net
           = count_of (InferVStreams.m_network_name_to_output_count self) net)
  /\ (InferVStreams.verify_network_inputs_and_outputs self inputs
        [("out1", InferVStreams.mkMemoryView 8)]).1
     = InferVStreams.HAILO_INVALID_ARGUMENT.
Proof.
  intros self inputs outputs.
  assert (InferVStreams.verify_network_inputs_and_outputs self inputs outputs
          = (InferVStreams.HAILO_SUCCESS, self)) as Hok
    by (vm_compute; reflexivity).
  split; [exact Hok |]. split; [| vm_compute; reflexivity].
  apply (verify_network_success self inputs outputs). rewrite Hok. reflexivity.
Defined.

(** X15.  [verify_network_inputs_and_outputs] is not read-only, its
    [operator[]] lookups insert the networks they miss; but it changes no
    count: the vstreams and the multi-context flag are as before, and each of
    the two count maps is as before but for keys added at the count 0. *)
Theorem verify_network_effect (self : InferVStreams.t)
    (inputs outputs : list (string * InferVStreams.MemoryView)) :
  let self' :=
    (InferVStreams.verify_network_inputs_and_outputs self inputs outputs).2 in
  InferVStreams.m_inputs self' = InferVStreams.m_inputs self
  /\ InferVStreams.m_outputs self' = InferVStreams.m_outputs self
  /\ InferVStreams.m_is_multi_context self'
     = InferVStreams.m_is_multi_context self
  /\ adds_zeros (InferVStreams.m_network_name_to_input_count self)
                (InferVStreams.m_network_name_to_input_count self')
  /\ adds_zeros (InferVStreams.m_network_name_to_output_count self)
                (InferVStreams.m_network_name_to_output_count self')
  /\ (forall net,
        count_of (InferVStreams.m_network_name_to_input_count self') net
        = count_of (InferVStreams.m_network_name_to_input_count self) net
        /\ count_of (InferVStreams.m_network_name_to_output_count self') net
           = count_of (InferVStreams.m_network_name_to_output_count self) net).
Proof.
  cbn zeta.
  assert (forall r : InferVStreams.status * InferVStreams.t,
            InferVStreams.m_inputs r.2 = InferVStreams.m_inputs self
            /\ InferVStreams.m_outputs r.2 = InferVStreams.m_outputs self
            /\ InferVStreams.m_is_multi_context r.2
               = InferVStreams.m_is_multi_context self
            /\ adds_zeros (InferVStreams.m_network_name_to_input_count self)
                          (InferVStreams.m_network_name_to_input_count r.2)
            /\ adds_zeros (InferVStreams.m_network_name_to_output_count self)
                          (InferVStreams.m_network_name_to_output_count r.2) ->
            InferVStreams.m_inputs r.2 = InferVStreams.m_inputs self
            /\ InferVStreams.m_outputs r.2 = InferVStreams.m_outputs self
            /\ InferVStreams.m_is_multi_context r.2
               = InferVStreams.m_is_multi_context self
            /\ adds_zeros (InferVStreams.m_network_name_to_input_count self)
                          (InferVStreams.m_network_name_to_input_count r.2)
            /\ adds_zeros (InferVStreams.m_network_name_to_output_count self)
                          (InferVStreams.m_network_name_to_output_count r.2)
            /\ (forall net,
                  count_of (InferVStreams.m_network_name_to_input_count r.2)
                           net
                  = count_of (InferVStreams.m_network_name_to_input_count self)
                             net
                  /\ count_of (InferVStreams.m_network_name_to_output_count
                                 r.2) net
                     = count_of (InferVStreams.m_network_name_to_output_count
                                   self) net)) as Hwrap.
  { intros r (A & B & C & D & E). repeat split; auto;
      apply adds_zeros_count_of; assumption. }
  apply Hwrap.
  destruct (verify_network_cases self inputs outputs)
    as [[_ ->] | [(_ & _ & ->) | (_ & _ & counts & _ & _ & ->)]];
    cbn [fst snd]; try solve [repeat split; auto using adds_zeros_refl].
  destruct (_ && _); cbn [snd];
    [solve [repeat split; auto using adds_zeros_refl] |].
  apply (check_counts_spec (InferVStreams.in_key_order counts) self).
Qed.

(** The map can grow, and the size test of a multi-context pipeline sees
    it: the call that succeeded fails when it is made again. *)
Example verify_network_grows_map :
  let self :=
    InferVStreams.new [InferVStreams.mkVStream "in0" "net/a" 16]
                      [InferVStreams.mkVStream "out1" "net/b" 8] true in
  let outputs := [("out1", InferVStreams.mkMemoryView 8)] in
  let r := InferVStreams.verify_network_inputs_and_outputs self [] outputs in
  r.1 = InferVStreams.HAILO_SUCCESS
  /\ InferVStreams.m_network_name_to_input_count self !! "net/b" = None
  /\ InferVStreams.m_network_name_to_input_count r.2 !! "net/b" = Some 0%N
  /\ (InferVStreams.verify_network_inputs_and_outputs r.2 [] outputs).1
     = InferVStreams.HAILO_INVALID_ARGUMENT.
Proof. repeat split; vm_compute; reflexivity. Qed.

(** ** Pipelines as the constructor builds them *)

Lemma new_count_of (inputs outputs : list InferVStreams.VStream)
    (is_multi_context : bool) (net : string) :
  let count vstreams :=
    N.of_nat (length (filter (fun v => InferVStreams.network_name v = net)
                             vstreams)) in
  let self := InferVStreams.new inputs outputs is_multi_context in
  count_of (InferVStreams.m_network_name_to_input_count self) net
  = count inputs
  /\ count_of (InferVStreams.m_network_name_to_output_count self) net
     = count outputs.
Proof.
  cbn zeta. unfold count_of. cbn [InferVStreams.new
    InferVStreams.m_network_name_to_input_count
    InferVStreams.m_network_name_to_output_count].
  rewrite !foldl_count_network, !lookup_empty. cbn [default].
  split.
  - destruct (N.eqb_spec
                (N.of_nat (length (filter (fun v =>
                   InferVStreams.network_name v = net) inputs))) 0)
      as [-> | _]; cbn; lia.
  - destruct (N.eqb_spec
                (N.of_nat (length (filter (fun v =>
                   InferVStreams.network_name v = net) outputs))) 0)
      as [-> | _]; cbn; lia.
Qed.

Lemma foldl_count_network_dom (vstreams : list InferVStreams.VStream) :
  dom (foldl InferVStreams.count_network ∅ vstreams)
  = list_to_set (map InferVStreams.network_name vstreams).
Proof.
  apply set_eq. intros net.
  rewrite elem_of_dom, foldl_count_network, lookup_empty.
  rewrite elem_of_list_to_set, list_elem_of_In, in_map_iff.
  destruct (filter (fun v => InferVStreams.network_name v = net) vstreams)
    as [| v l] eqn:Hf; cbn.
  - split; [intros [? ?]; discriminate |].
    intros (v & Hnet & Hin).
    assert (v ∈ filter (fun v => InferVStreams.network_name v = net) vstreams)
      as H by (apply list_elem_of_filter; split;
               [exact Hnet | apply list_elem_of_In, Hin]).
    rewrite Hf in H. inversion H.
  - split; [intros _ | eauto].
    assert (v ∈ filter (fun v => InferVStreams.network_name v = net) vstreams)
      as H by (rewrite Hf; left).
    apply list_elem_of_filter in H as [Hnet Hin].
    exists v. split; [exact Hnet | apply list_elem_of_In, Hin].
Qed.

(** X16.  On a pipeline as the constructor builds it,
    [verify_network_inputs_and_outputs] succeeds exactly when every named
    buffer names a vstream of its kind, every network met that way has as
    many named input buffers as it has input vstreams and as many named
    output buffers as it has output vstreams, and, for a multi-context
    pipeline, the networks met are as many as the networks that have an
    input vstream. *)
Theorem verify_network_success_new
    (input_vstreams output_vstreams : list InferVStreams.VStream)
    (is_multi_context : bool)
    (inputs outputs : list (string * InferVStreams.MemoryView)) :
  let self :=
    InferVStreams.new input_vstreams output_vstreams is_multi_context in
  let count vstreams net :=
    N.of_nat (length (filter (fun v => InferVStreams.network_name v = net)
                             vstreams)) in
  (InferVStreams.verify_network_inputs_and_outputs self inputs outputs).1
  = InferVStreams.HAILO_SUCCESS
  <-> Forall (fun nv => is_Some (network_of input_vstreams nv.1)) inputs
      /\ Forall (fun nv => is_Some (network_of output_vstreams nv.1)) outputs
      /\ (is_multi_context = true ->
          size (networks_met self inputs outputs)
          = size (list_to_set (map InferVStreams.network_name input_vstreams)
                    : gset string))
      /\ (forall net,
            net ∈ networks_met self inputs outputs ->
            provided input_vstreams inputs net = count input_vstreams net
            /\ provided output_vstreams outputs net
               = count output_vstreams net).
Proof.
  cbn zeta. rewrite verify_network_success_iff.
  cbn [InferVStreams.new InferVStreams.m_inputs InferVStreams.m_outputs
       InferVStreams.m_is_multi_context].
  rewrite <- (foldl_count_network_dom input_vstreams), size_dom.
  apply and_iff_compat_l, and_iff_compat_l, and_iff_compat_l.
  split; intros H net Hnet; specialize (H net Hnet);
    destruct (new_count_of input_vstreams output_vstreams is_multi_context
                net) as [Hi Ho]; cbn zeta in Hi, Ho;
    cbn [InferVStreams.new InferVStreams.m_network_name_to_input_count
         InferVStreams.m_network_name_to_output_count] in *.
  - rewrite <- Hi, <- Ho. exact H.
  - rewrite Hi, Ho. exact H.
Qed.

Lemma verify_network_success_new_witness :
  let input_vstreams := [InferVStreams.mkVStream "in0" "net/a" 16;
                         InferVStreams.mkVStream "in1" "net/a" 16] in
  let output_vstreams := [InferVStreams.mkVStream "out0" "net/a" 8] in
  let inputs := [("in0", InferVStreams.mkMemoryView 16);
                 ("in1", InferVStreams.mkMemoryView 16)] in
  let outputs := [("out0", InferVStreams.mkMemoryView 8)] in
  let self := InferVStreams.new input_vstreams output_vstreams true in
  (InferVStreams.verify_network_inputs_and_outputs self inputs outputs).1
  = InferVStreams.HAILO_SUCCESS
  /\ (forall net,
        net ∈ networks_met self inputs outputs ->
        provided input_vstreams inputs net
        = N.of_nat (length (filter (fun v =>
                      InferVStreams.network_name v = net) input_vstreams)))
  /\ (InferVStreams.verify_network_inputs_and_outputs self
        [("in0", InferVStreams.mkMemoryView 16)] outputs).1
     = InferVStreams.HAILO_INVALID_ARGUMENT.
Proof.
  intros input_vstreams output_vstreams inputs outputs self.
  assert ((InferVStreams.verify_network_inputs_and_outputs self inputs
             outputs).1 = InferVStreams.HAILO_SUCCESS) as Hok
    by (vm_compute; reflexivity).
  split; [exact Hok |]. split; [| vm_compute; reflexivity].
  apply (verify_network_success_new input_vstreams output_vstreams true
           inputs outputs) in Hok.
  destruct Hok as (_ & _ & _ & H). intros net Hnet. apply (H net Hnet).
Defined.

(** * InferStatsPrinter *)

(** ** Characters *)

Lemma append_String (c : Ascii.ascii) (a b : string) :
  String c a +:+ b = String c (a +:+ b).
Proof. reflexivity. Qed.

Lemma append_assoc (a b c : string) : (a +:+ b) +:+ c = a +:+ (b +:+ c).
Proof.
  induction a as [| x a IH]; [reflexivity |].
  rewrite !append_String, IH. reflexivity.
Qed.

Lemma append_empty_r (a : string) : a +:+ EmptyString = a.
Proof.
  induction a as [| x a IH]; [reflexivity |].
  rewrite append_String, IH. reflexivity.
Qed.

Lemma count_char_app (c : Ascii.ascii) (a b : string) :
  InferStatsPrinter.count_char c (a +:+ b)
  = (InferStatsPrinter.count_char c a + InferStatsPrinter.count_char c b)%nat.
Proof.
  induction a as [| x a IH]; [reflexivity |].
  rewrite append_String. cbn. rewrite IH. lia.
Qed.

Lemma unlines_app (rows rows' : list string) :
  InferStatsPrinter.unlines (rows ++ rows')
  = InferStatsPrinter.unlines rows +:+ InferStatsPrinter.unlines rows'.
Proof.
  induction rows as [| row rows IH]; [reflexivity |].
  change (row +:+ String InferStatsPrinter.newline
                    (InferStatsPrinter.unlines (rows ++ rows'))
          = (row +:+ String InferStatsPrinter.newline
                       (InferStatsPrinter.unlines rows))
            +:+ InferStatsPrinter.unlines rows').
  rewrite IH, append_assoc, append_String. reflexivity.
Qed.

Section PrinterProperties.

Variable double : Type.
Variable number_text : InferStatsPrinter.token double -> string.
Hypothesis numbers : InferStatsPrinter.plain_numbers double number_text.
Variables NO_INDEX DEFAULT_PRECISION : N.

Lemma written_app (a b : list (InferStatsPrinter.token double)) :
  InferStatsPrinter.written double number_text (a ++ b)
  = InferStatsPrinter.written double number_text a
    +:+ InferStatsPrinter.written double number_text b.
Proof.
  induction a as [| t a IH]; [reflexivity |].
  cbn. rewrite IH, append_assoc. reflexivity.
Qed.

Lemma separators_cons (t : InferStatsPrinter.token double)
    (out : list (InferStatsPrinter.token double)) :
  InferStatsPrinter.separators double number_text (t :: out)
  = (InferStatsPrinter.count_commas
       (InferStatsPrinter.token_text double number_text t)
     + InferStatsPrinter.separators double number_text out)%nat.
Proof. apply count_char_app. Qed.

Lemma lines_cons (t : InferStatsPrinter.token double)
    (out : list (InferStatsPrinter.token double)) :
  InferStatsPrinter.lines double number_text (t :: out)
  = (InferStatsPrinter.count_newlines
       (InferStatsPrinter.token_text double number_text t)
     + InferStatsPrinter.lines double number_text out)%nat.
Proof. apply count_char_app. Qed.

Lemma separators_app (a b : list (InferStatsPrinter.token double)) :
  InferStatsPrinter.separators double number_text (a ++ b)
  = (InferStatsPrinter.separators double number_text a
     + InferStatsPrinter.separators double number_text b)%nat.
Proof.
  unfold InferStatsPrinter.separators. rewrite written_app.
  apply count_char_app.
Qed.

Lemma lines_app (a b : list (InferStatsPrinter.token double)) :
  InferStatsPrinter.lines double number_text (a ++ b)
  = (InferStatsPrinter.lines double number_text a
     + InferStatsPrinter.lines double number_text b)%nat.
Proof.
  unfold InferStatsPrinter.lines. rewrite written_app.
  apply count_char_app.
Qed.

(** A line: what is written before [std::endl], and [std::endl]. *)
Lemma written_line (row : list (InferStatsPrinter.token double)) :
  InferStatsPrinter.written double number_text (row ++ [InferStatsPrinter.Endl])
  = InferStatsPrinter.unlines
      [InferStatsPrinter.written double number_text row].
Proof. rewrite written_app. reflexivity. Qed.

(** What one [<<] adds to the separators and to the line ends. *)
Lemma separators_token (t : InferStatsPrinter.token double)
    (out : list (InferStatsPrinter.token double)) :
  InferStatsPrinter.separators double number_text (t :: out)
  = (match t with
     | InferStatsPrinter.Lit s | InferStatsPrinter.Str s =>
         InferStatsPrinter.count_commas s
     | _ => 0
     end
     + InferStatsPrinter.separators double number_text out)%nat.
Proof.
  rewrite separators_cons. f_equal. pose proof (numbers t) as Hplain.
  destruct t; cbn [InferStatsPrinter.token_text];
    try reflexivity; apply Hplain.
Qed.

Lemma lines_token (t : InferStatsPrinter.token double)
    (out : list (InferStatsPrinter.token double)) :
  InferStatsPrinter.lines double number_text (t :: out)
  = (match t with
     | InferStatsPrinter.Lit s | InferStatsPrinter.Str s =>
         InferStatsPrinter.count_newlines s
     | InferStatsPrinter.Endl => 1
     | _ => 0
     end
     + InferStatsPrinter.lines double number_text out)%nat.
Proof.
  rewrite lines_cons. f_equal. pose proof (numbers t) as Hplain.
  destruct t; cbn [InferStatsPrinter.token_text];
    try reflexivity; apply Hplain.
Qed.

Lemma if_value_separators {A : Type}
    (write : A -> InferStatsPrinter.token double) (x : option A) :
  (forall a, match write a with
             | InferStatsPrinter.Lit _ | InferStatsPrinter.Str _ => False
             | _ => True
             end) ->
  InferStatsPrinter.separators double number_text
    (InferStatsPrinter.if_value double write x) = 0%nat.
Proof.
  intros Hnumber. destruct x as [a |]; [| reflexivity].
  specialize (Hnumber a). unfold InferStatsPrinter.if_value.
  rewrite separators_token.
  destruct (write a); try contradiction; reflexivity.
Qed.

Lemma if_value_lines {A : Type}
    (write : A -> InferStatsPrinter.token double) (x : option A) :
  (forall a, match write a with
             | InferStatsPrinter.Lit _ | InferStatsPrinter.Str _
             | InferStatsPrinter.Endl => False
             | _ => True
             end) ->
  InferStatsPrinter.lines double number_text
    (InferStatsPrinter.if_value double write x) = 0%nat.
Proof.
  intros Hnumber. destruct x as [a |]; [| reflexivity].
  specialize (Hnumber a). unfold InferStatsPrinter.if_value.
  rewrite lines_token.
  destruct (write a); try contradiction; reflexivity.
Qed.

Lemma measurement_columns_three
    (measurements : list (string * option (InferStatsPrinter.measurement double))) :
  InferStatsPrinter.separators double number_text
    (InferStatsPrinter.measurement_columns double measurements) = 3%nat
  /\ InferStatsPrinter.lines double number_text
       (InferStatsPrinter.measurement_columns double measurements) = 0%nat.
Proof.
  unfold InferStatsPrinter.measurement_columns.
  destruct measurements as [| [device [data |]] [| pair rest]];
    cbn [length Nat.eqb flat_map snd app];
    rewrite ?separators_token, ?lines_token; split; reflexivity.
Qed.

(** X17.  [print_csv] writes one row and [std::endl].  The network group
    name and the status text are written as they are, so the row has the
    commas of the literals, 17 for a result as the header [print_csv_header]
    writes has, 13 for a failed inference, and those of the name and of the
    status text; its line ends are those of the name and of the status
    text.  (Numbers are written without comma and line end.) *)
Theorem print_csv_columns (hailo_get_status_message : N -> string)
    (HAILO_SUCCESS : N) (network_group_name : string)
    (inference_result
       : InferStatsPrinter.Expected
           (InferStatsPrinter.NetworkGroupInferResult double)) :
  let status_description :=
    hailo_get_status_message
      (InferStatsPrinter.status HAILO_SUCCESS inference_result) in
  let columns :=
    match inference_result with
    | InferStatsPrinter.Value _ => 17%nat
    | InferStatsPrinter.Unexpected _ => 13%nat
    end in
  InferStatsPrinter.separators double number_text
    (InferStatsPrinter.print_csv_header double) = 17%nat
  /\ InferStatsPrinter.lines double number_text
       (InferStatsPrinter.print_csv_header double) = 1%nat
  /\ exists row,
       InferStatsPrinter.written double number_text
         (InferStatsPrinter.print_csv double hailo_get_status_message
            HAILO_SUCCESS network_group_name inference_result)
       = InferStatsPrinter.unlines [row]
       /\ InferStatsPrinter.count_commas row
          = (columns + InferStatsPrinter.count_commas network_group_name
             + InferStatsPrinter.count_commas status_description)%nat
       /\ InferStatsPrinter.count_newlines row
          = (InferStatsPrinter.count_newlines network_group_name
             + InferStatsPrinter.count_newlines status_description)%nat.
Proof.
  cbn zeta. split; [reflexivity |]. split; [reflexivity |].
  unfold InferStatsPrinter.print_csv. cbn zeta.
  rewrite app_assoc, written_line. eexists. split; [reflexivity |].
  change (InferStatsPrinter.count_commas
            (InferStatsPrinter.written double number_text ?l))
    with (InferStatsPrinter.separators double number_text l).
  change (InferStatsPrinter.count_newlines
            (InferStatsPrinter.written double number_text ?l))
    with (InferStatsPrinter.lines double number_text l).
  rewrite separators_app, lines_app, !separators_token, !lines_token.
  destruct inference_result as [result | status].
  - rewrite !separators_app, !lines_app.
    rewrite !separators_token, !lines_token.
    rewrite !if_value_separators by (intros; exact I).
    rewrite !if_value_lines by (intros; exact I).
    rewrite !(proj1 (measurement_columns_three _)).
    rewrite !(proj2 (measurement_columns_three _)).
    count_literals. split; lia.
  - rewrite !separators_token, !lines_token.
    change (InferStatsPrinter.count_commas ",,,,,,,,,,,") with 11%nat.
    change (InferStatsPrinter.count_newlines ",,,,,,,,,,,") with 0%nat.
    count_literals. split; lia.
Qed.

(** X18.  [print_benchmark_csv] writes one row and [std::endl]; the row has
    the 9 commas of the literals, as many as the header
    [print_benchmark_csv_header] writes has, and those of the network group
    name, which is written as it is; its line ends are those of the name.
    (Numbers are written without comma and line end.) *)
Theorem print_benchmark_csv_columns (network_group_name : string)
    (hw_inference_result streaming_inference_result hw_latency_result
       : InferStatsPrinter.NetworkGroupInferResult double) :
  InferStatsPrinter.separators double number_text
    (InferStatsPrinter.print_benchmark_csv_header double) = 9%nat
  /\ InferStatsPrinter.lines double number_text
       (InferStatsPrinter.print_benchmark_csv_header double) = 1%nat
  /\ exists row,
       InferStatsPrinter.written double number_text
         (InferStatsPrinter.print_benchmark_csv double network_group_name
            hw_inference_result streaming_inference_result hw_latency_result)
       = InferStatsPrinter.unlines [row]
       /\ InferStatsPrinter.count_commas row
          = (9 + InferStatsPrinter.count_commas network_group_name)%nat
       /\ InferStatsPrinter.count_newlines row
          = InferStatsPrinter.count_newlines network_group_name.
Proof.
  split; [reflexivity |]. split; [reflexivity |].
  unfold InferStatsPrinter.print_benchmark_csv.
  rewrite !app_assoc, written_line. eexists. split; [reflexivity |].
  change (InferStatsPrinter.count_commas
            (InferStatsPrinter.written double number_text ?l))
    with (InferStatsPrinter.separators double number_text l).
  change (InferStatsPrinter.count_newlines
            (InferStatsPrinter.written double number_text ?l))
    with (InferStatsPrinter.lines double number_text l).
  rewrite !separators_app, !lines_app, !separators_token, !lines_token.
  rewrite !if_value_separators by (intros; exact I).
  rewrite !if_value_lines by (intros; exact I).
  rewrite (proj1 (measurement_columns_three _)).
  rewrite (proj2 (measurement_columns_three _)).
  count_literals. split; lia.
Qed.

Lemma format_statistic_plain (statistic : option double) (precision : N)
    (out : list (InferStatsPrinter.token double)) :
  InferStatsPrinter.separators double number_text
    (InferStatsPrinter.format_statistic double statistic precision :: out)
  = InferStatsPrinter.separators double number_text out
  /\ InferStatsPrinter.lines double number_text
       (InferStatsPrinter.format_statistic double statistic precision :: out)
     = InferStatsPrinter.lines double number_text out.
Proof.
  rewrite separators_token, lines_token.
  destruct statistic; split; reflexivity.
Qed.

(** The text of the last column: the index, or nothing for [NO_INDEX]. *)
Lemma write_accumulator_results_row
    (accumulator : InferStatsPrinter.Accumulator double)
    (network_group_name vstream_name elem_name : string) (index : N) :
  let out :=
    InferStatsPrinter.write_accumulator_results double NO_INDEX
      DEFAULT_PRECISION accumulator network_group_name vstream_name elem_name
      index in
  let names :=
    [network_group_name; vstream_name;
     InferStatsPrinter.get_data_type double accumulator; elem_name] in
  if InferStatsPrinter.has_count accumulator then
    exists front,
      InferStatsPrinter.written double number_text out
      = InferStatsPrinter.unlines
          [front +:+ "," +:+
           (if decide (index = NO_INDEX) then EmptyString
            else number_text (InferStatsPrinter.Int index))]
      /\ InferStatsPrinter.count_commas front
         = (9 + sum_list_with InferStatsPrinter.count_commas names)%nat
      /\ InferStatsPrinter.count_newlines front
         = sum_list_with InferStatsPrinter.count_newlines names
  else out = [].
Proof.
  cbn zeta.
  unfold InferStatsPrinter.write_accumulator_results,
    InferStatsPrinter.has_count.
  destruct (InferStatsPrinter.count double accumulator) as [c |];
    [| reflexivity].
  destruct (c =? 0)%N; [reflexivity |]. cbn [negb].
  match goal with
  | |- context [?row ++ ?idx ++ [InferStatsPrinter.Endl]] =>
      exists (InferStatsPrinter.written double number_text (removelast row))
  end.
  split; [| split].
  - rewrite app_assoc, written_line. unfold InferStatsPrinter.unlines.
    cbn [foldr]. f_equal.
    match goal with
    | |- context [?row ++ ?idx] =>
        change row with (removelast row ++ [InferStatsPrinter.Lit ","])
    end.
    rewrite <- app_assoc, written_app. f_equal.
    destruct (decide (index = NO_INDEX)) as [-> | Hne].
    + rewrite N.eqb_refl. reflexivity.
    + destruct (N.eqb_spec NO_INDEX index) as [Heq | _]; [congruence |].
      cbn [negb app InferStatsPrinter.written InferStatsPrinter.token_text].
      rewrite append_empty_r. reflexivity.
  - cbn [removelast].
    change (InferStatsPrinter.count_commas
              (InferStatsPrinter.written double number_text ?l))
      with (InferStatsPrinter.separators double number_text l).
    repeat first [ rewrite (proj1 (format_statistic_plain _ _ _))
                 | rewrite separators_token ].
    count_literals. cbn [sum_list_with]. lia.
  - cbn [removelast].
    change (InferStatsPrinter.count_newlines
              (InferStatsPrinter.written double number_text ?l))
      with (InferStatsPrinter.lines double number_text l).
    repeat first [ rewrite (proj2 (format_statistic_plain _ _ _))
                 | rewrite lines_token ].
    count_literals. cbn [sum_list_with]. lia.
Qed.

(** X19.  [write_accumulator_results] writes nothing for an accumulator
    whose count is missing or zero, and otherwise one row and [std::endl].
    The four names are written as they are: the row has the 10 commas of the
    literals, as many as the header of the pipeline statistics file has, and
    those of the names; its line ends are those of the names.  It ends with
    the last comma and the index, or with the comma for the index
    [NO_INDEX].  (Numbers are written without comma and line end.) *)
Theorem write_accumulator_results_columns
    (accumulator : InferStatsPrinter.Accumulator double)
    (network_group_name vstream_name elem_name : string) (index : N) :
  let out :=
    InferStatsPrinter.write_accumulator_results double NO_INDEX
      DEFAULT_PRECISION accumulator network_group_name vstream_name elem_name
      index in
  let names :=
    [network_group_name; vstream_name;
     InferStatsPrinter.get_data_type double accumulator; elem_name] in
  (out = []
   <-> InferStatsPrinter.count double accumulator = None
       \/ InferStatsPrinter.count double accumulator = Some 0%N)
  /\ InferStatsPrinter.separators double number_text
       (InferStatsPrinter.pipeline_stats_header double) = 10%nat
  /\ (out <> [] ->
      exists row,
        InferStatsPrinter.written double number_text out
        = InferStatsPrinter.unlines [row]
        /\ InferStatsPrinter.count_commas row
           = (10 + sum_list_with InferStatsPrinter.count_commas names)%nat
        /\ InferStatsPrinter.count_newlines row
           = sum_list_with InferStatsPrinter.count_newlines names
        /\ exists front,
             row = front +:+ "," +:+
                   (if decide (index = NO_INDEX) then EmptyString
                    else number_text (InferStatsPrinter.Int index))).
Proof.
  pose proof (write_accumulator_results_row accumulator network_group_name
                vstream_name elem_name index) as H.
  cbn zeta in H |- *. unfold InferStatsPrinter.has_count in H.
  split; [| split; [reflexivity |]].
  - clear H. unfold InferStatsPrinter.write_accumulator_results.
    destruct (InferStatsPrinter.count double accumulator) as [c |];
      [| tauto].
    destruct (N.eqb_spec c 0) as [-> | Hc]; [tauto |]. split.
    + discriminate.
    + intros [? | [= ?]]; [discriminate | contradiction].
  - intros Hout.
    destruct (InferStatsPrinter.count double accumulator) as [c |];
      [| contradiction].
    destruct (c =? 0)%N; [contradiction |]. cbn [negb] in H.
    destruct H as (front & Hw & Hcommas & Hlines).
    eexists. split; [exact Hw |].
    unfold InferStatsPrinter.count_commas, InferStatsPrinter.count_newlines
      in Hcommas, Hlines |- *.
    rewrite !count_char_app, Hcommas, Hlines.
    assert (InferStatsPrinter.plain
              (if decide (index = NO_INDEX) then EmptyString
               else number_text (InferStatsPrinter.Int index)))
      as [Hic Hil].
    { destruct (decide (index = NO_INDEX)); [split; reflexivity |].
      apply (numbers (InferStatsPrinter.Int index)). }
    unfold InferStatsPrinter.count_commas, InferStatsPrinter.count_newlines
      in Hic, Hil.
    rewrite Hic, Hil.
    change (InferStatsPrinter.count_char InferStatsPrinter.comma ",")
      with 1%nat.
    change (InferStatsPrinter.count_char InferStatsPrinter.newline ",")
      with 0%nat.
    split; [lia |]. split; [lia |]. exists front. reflexivity.
Qed.

(** Rows written one after the other. *)
Lemma flat_map_rows {A : Type}
    (write : A -> list (InferStatsPrinter.token double))
    (accumulators : A -> list (InferStatsPrinter.Accumulator double))
    (l : list A) :
  Forall (fun x =>
            exists rows,
              InferStatsPrinter.written double number_text (write x)
              = InferStatsPrinter.unlines rows
              /\ length rows
                 = length (filter (fun a => InferStatsPrinter.has_count a = true)
                                  (accumulators x))
              /\ Forall (fun row => InferStatsPrinter.count_commas row = 10%nat
                                    /\ InferStatsPrinter.count_newlines row
                                       = 0%nat) rows) l ->
  exists rows,
    InferStatsPrinter.written double number_text (flat_map write l)
    = InferStatsPrinter.unlines rows
    /\ length rows
       = length (filter (fun a => InferStatsPrinter.has_count a = true)
                        (flat_map accumulators l))
    /\ Forall (fun row => InferStatsPrinter.count_commas row = 10%nat
                          /\ InferStatsPrinter.count_newlines row = 0%nat)
              rows.
Proof.
  induction 1 as [| x l (rows & Hw & Hlen & Hrows) _ (rows' & Hw' & Hlen' & Hrows')].
  - exists []. repeat split. constructor.
  - exists (rows ++ rows'). cbn [flat_map]. split; [| split].
    + rewrite written_app, unlines_app, Hw, Hw'. reflexivity.
    + rewrite filter_app, !length_app, Hlen, Hlen'. reflexivity.
    + apply Forall_app. split; assumption.
Qed.

(** The rows of the accumulators of one element. *)
Lemma accumulators_rows (network_group_name vstream_name elem_name : string)
    (accumulators : list (InferStatsPrinter.Accumulator double))
    (index_of : nat -> nat) :
  InferStatsPrinter.plain network_group_name ->
  InferStatsPrinter.plain vstream_name ->
  InferStatsPrinter.plain elem_name ->
  Forall (fun a => InferStatsPrinter.plain
                     (InferStatsPrinter.get_data_type double a))
         accumulators ->
  exists rows,
    InferStatsPrinter.written double number_text
      (flat_map
         (fun ia =>
            InferStatsPrinter.write_accumulator_results double NO_INDEX
              DEFAULT_PRECISION ia.2 network_group_name vstream_name
              elem_name (N.of_nat ia.1))
         (imap (fun i a => (index_of i, a)) accumulators))
    = InferStatsPrinter.unlines rows
    /\ length rows
       = length (filter (fun a => InferStatsPrinter.has_count a = true)
                        accumulators)
    /\ Forall (fun row => InferStatsPrinter.count_commas row = 10%nat
                          /\ InferStatsPrinter.count_newlines row = 0%nat)
              rows.
Proof.
  intros [Hnc Hnl] [Hvc Hvl] [Hec Hel] Htypes. revert index_of.
  induction Htypes as [| a accumulators [Hac Hal] _ IH]; intros index_of.
  - exists []. repeat split. constructor.
  - destruct (IH (fun i => index_of (S i))) as (rows & Hw & Hlen & Hrows).
    pose proof (write_accumulator_results_row a network_group_name
                  vstream_name elem_name (N.of_nat (index_of 0%nat))) as Hrow.
    cbn zeta in Hrow. cbn [imap flat_map fst snd]. rewrite written_app.
    change (imap ((fun i a0 => (index_of i, a0)) ∘ S) accumulators)
      with (imap (fun i a0 => (index_of (S i), a0)) accumulators).
    rewrite Hw.
    destruct (InferStatsPrinter.has_count a) eqn:Hcount.
    + destruct Hrow as (front & -> & Hcommas & Hlines).
      eexists (_ :: rows). split; [| split].
      * rewrite <- unlines_app. reflexivity.
      * rewrite filter_cons_True by exact Hcount. cbn. rewrite Hlen.
        reflexivity.
      * constructor; [| exact Hrows].
        assert (InferStatsPrinter.plain
                  (if decide (N.of_nat (index_of 0%nat) = NO_INDEX)
                   then EmptyString
                   else number_text
                          (InferStatsPrinter.Int
                             (N.of_nat (index_of 0%nat)))))
          as [Hic Hil].
        { destruct (decide (N.of_nat (index_of 0%nat) = NO_INDEX));
            [split; reflexivity |].
          apply (numbers (InferStatsPrinter.Int
                            (N.of_nat (index_of 0%nat)))). }
        unfold InferStatsPrinter.count_commas,
          InferStatsPrinter.count_newlines in *.
        rewrite !count_char_app, Hcommas, Hlines, Hic, Hil.
        cbn [sum_list_with]. rewrite Hnc, Hvc, Hac, Hec, Hnl, Hvl, Hal, Hel.
        split; reflexivity.
    + rewrite Hrow. exists rows. split; [reflexivity |]. split; [| exact Hrows].
      rewrite filter_cons_False by (rewrite Hcount; discriminate).
      exact Hlen.
Qed.

(** X20.  When the network group name, the vstream names, the element names
    and the data types hold no comma and no line end, what
    [print_pipeline_elem_stats_csv] writes is a sequence of rows, each ended
    by [std::endl], one for each accumulator whose count is there and not
    zero, and every row has 10 column separators, as many as the header of
    the pipeline statistics file.  (Numbers are written without comma and
    line end.) *)
Theorem print_pipeline_elem_stats_csv_columns (network_group_name : string)
    (inference_result
       : list (string
               * list (string * list (InferStatsPrinter.Accumulator double)))) :
  InferStatsPrinter.plain network_group_name ->
  InferStatsPrinter.plain_names inference_result ->
  exists rows,
    InferStatsPrinter.written double number_text
      (InferStatsPrinter.print_pipeline_elem_stats_csv double NO_INDEX
         DEFAULT_PRECISION network_group_name inference_result)
    = InferStatsPrinter.unlines rows
    /\ length rows = InferStatsPrinter.counted inference_result
    /\ Forall (fun row => InferStatsPrinter.count_commas row = 10%nat
                          /\ InferStatsPrinter.count_newlines row = 0%nat)
              rows.
Proof.
  intros Hname Hnames.
  unfold InferStatsPrinter.print_pipeline_elem_stats_csv,
    InferStatsPrinter.counted.
  apply (flat_map_rows _ (fun vstream => flat_map snd vstream.2)).
  eapply Forall_impl; [exact Hnames |].
  intros [vstream_name elems] [Hvstream Helems]. cbn [fst snd] in *.
  apply (flat_map_rows _ snd).
  eapply Forall_impl; [exact Helems |].
  intros [elem_name accumulators] [Helem Htypes]. cbn [fst snd] in *.
  apply (accumulators_rows network_group_name vstream_name elem_name
           accumulators (fun i => i));
    assumption.
Qed.

End PrinterProperties.

Lemma print_csv_columns_witness :
  let number_text := fun t : InferStatsPrinter.token Z =>
                       match t with
                       | InferStatsPrinter.Int _ => "7"
                       | _ => "1.5"
                       end in
  let message := fun _ : N => "HAILO_SUCCESS" in
  let result :=
    InferStatsPrinter.mkResult Z (Some 30) (Some 100%N) None None (Some 5)
      None [("dev", Some (InferStatsPrinter.mkMeasurement Z 1 2 3))] [] [] in
  InferStatsPrinter.plain_numbers Z number_text
  /\ exists row,
       InferStatsPrinter.written Z number_text
         (InferStatsPrinter.print_csv Z message 0%N "net"
            (InferStatsPrinter.Value result))
       = InferStatsPrinter.unlines [row]
       /\ InferStatsPrinter.count_commas row = 17%nat
       /\ InferStatsPrinter.count_newlines row = 0%nat.
Proof.
  intros number_text message result.
  assert (InferStatsPrinter.plain_numbers Z number_text) as Hnumbers
    by (intros []; repeat split).
  split; [exact Hnumbers |].
  destruct (print_csv_columns Z number_text Hnumbers message 0%N "net"
              (InferStatsPrinter.Value result))
    as (_ & _ & row & Hw & Hcommas & Hlines).
  exists row. split; [exact Hw |]. split; [exact Hcommas | exact Hlines].
Defined.

(** A comma in the network group name is one more comma in the row: it
    has 19 columns under the 18 of the header. *)
Example print_csv_comma_in_name :
  let number_text := fun t : InferStatsPrinter.token Z =>
                       match t with
                       | InferStatsPrinter.Int _ => "7"
                       | _ => "1.5"
                       end in
  let result :=
    InferStatsPrinter.mkResult Z (Some 30) (Some 100%N) None None (Some 5)
      None [("dev", Some (InferStatsPrinter.mkMeasurement Z 1 2 3))] [] [] in
  let row := "net,v2,7,HAILO_SUCCESS,1.5,7,,,1.5,,1.5,1.5,1.5,,,,,," in
  InferStatsPrinter.written Z number_text
    (InferStatsPrinter.print_csv Z (fun _ => "HAILO_SUCCESS") 0%N "net,v2"
       (InferStatsPrinter.Value result))
  = InferStatsPrinter.unlines [row]
  /\ InferStatsPrinter.count_commas row = 18%nat.
Proof. split; vm_compute; reflexivity. Qed.

Lemma print_benchmark_csv_columns_witness :
  let number_text := fun t : InferStatsPrinter.token Z =>
                       match t with
                       | InferStatsPrinter.Int _ => "7"
                       | _ => "1.5"
                       end in
  let result :=
    InferStatsPrinter.mkResult Z (Some 30) (Some 100%N) None None (Some 5)
      None [("dev", Some (InferStatsPrinter.mkMeasurement Z 1 2 3))] [] [] in
  InferStatsPrinter.plain_numbers Z number_text
  /\ exists row,
       InferStatsPrinter.written Z number_text
         (InferStatsPrinter.print_benchmark_csv Z "net" result result result)
       = InferStatsPrinter.unlines [row]
       /\ InferStatsPrinter.count_commas row = 9%nat
       /\ InferStatsPrinter.count_newlines row = 0%nat.
Proof.
  intros number_text result.
  assert (InferStatsPrinter.plain_numbers Z number_text) as Hnumbers
    by (intros []; repeat split).
  split; [exact Hnumbers |].
  destruct (print_benchmark_csv_columns Z number_text Hnumbers "net"
              result result result)
    as (_ & _ & row & Hw & Hcommas & Hlines).
  exists row. split; [exact Hw |]. split; [exact Hcommas | exact Hlines].
Defined.

Lemma write_accumulator_results_columns_witness :
  let number_text := fun t : InferStatsPrinter.token Z =>
                       match t with
                       | InferStatsPrinter.Int _ => "7"
                       | _ => "1.5"
                       end in
  let accumulator :=
    InferStatsPrinter.mkAccumulator Z "latency" (Some 3%N) (Some 12) None
      (Some 20) None None None in
  let out :=
    InferStatsPrinter.write_accumulator_results Z 4294967295 2 accumulator
      "group" "out0" "entire_pipeline" 4294967295 in
  InferStatsPrinter.plain_numbers Z number_text
  /\ out <> []
  /\ (exists row,
        InferStatsPrinter.written Z number_text out
        = InferStatsPrinter.unlines [row]
        /\ InferStatsPrinter.count_commas row = 10%nat
        /\ InferStatsPrinter.count_newlines row = 0%nat
        /\ exists front, row = front +:+ ",")
  /\ InferStatsPrinter.write_accumulator_results Z 4294967295 2
       (InferStatsPrinter.mkAccumulator Z "latency" (Some 0%N) None None None
          None None None)
       "group" "out0" "entire_pipeline" 4294967295 = [].
Proof.
  intros number_text accumulator out.
  assert (InferStatsPrinter.plain_numbers Z number_text) as Hnumbers
    by (intros []; repeat split).
  assert (out <> []) as Hout by discriminate.
  split; [exact Hnumbers |]. split; [exact Hout |]. split.
  - destruct (write_accumulator_results_columns Z number_text Hnumbers
                4294967295 2 accumulator "group" "out0" "entire_pipeline"
                4294967295) as (_ & _ & H).
    destruct (H Hout) as (row & Hw & Hcommas & Hlines & front & Hfront).
    exists row. split; [exact Hw |]. split; [exact Hcommas |].
    split; [exact Hlines |]. exists front. exact Hfront.
  - apply (write_accumulator_results_columns Z number_text Hnumbers
             4294967295 2
             (InferStatsPrinter.mkAccumulator Z "latency" (Some 0%N) None None
                None None None None)
             "group" "out0" "entire_pipeline" 4294967295).
    right. reflexivity.
Defined.

(** A comma in a vstream name is one more comma in the row. *)
Example write_accumulator_results_comma_in_name :
  let number_text := fun t : InferStatsPrinter.token Z =>
                       match t with
                       | InferStatsPrinter.Int _ => "7"
                       | _ => "1.5"
                       end in
  let accumulator :=
    InferStatsPrinter.mkAccumulator Z "latency" (Some 3%N) (Some 12) None
      (Some 20) None None None in
  let row := "group,out,0,latency,entire_pipeline,1.5,-,1.5,-,-,-," in
  InferStatsPrinter.written Z number_text
    (InferStatsPrinter.write_accumulator_results Z 4294967295 2 accumulator
       "group" "out,0" "entire_pipeline" 4294967295)
  = InferStatsPrinter.unlines [row]
  /\ InferStatsPrinter.count_commas row = 11%nat.
Proof. split; vm_compute; reflexivity. Qed.

Lemma print_pipeline_elem_stats_csv_columns_witness :
  let number_text := fun t : InferStatsPrinter.token Z =>
                       match t with
                       | InferStatsPrinter.Int _ => "7"
                       | _ => "1.5"
                       end in
  let fps :=
    InferStatsPrinter.mkAccumulator Z "fps" (Some 3%N) (Some 12) None
      (Some 20) None None None in
  let idle :=
    InferStatsPrinter.mkAccumulator Z "fps" (Some 0%N) None None None None
      None None in
  let inference_result :=
    [("in0", [("hw_write", [fps; idle; fps])]);
     ("out0", [("hw_read", [idle]); ("post", [fps])])] in
  InferStatsPrinter.plain_numbers Z number_text
  /\ InferStatsPrinter.plain "group"
  /\ InferStatsPrinter.plain_names inference_result
  /\ InferStatsPrinter.counted inference_result = 3%nat
  /\ exists rows,
       InferStatsPrinter.written Z number_text
         (InferStatsPrinter.print_pipeline_elem_stats_csv Z 4294967295 2
            "group" inference_result)
       = InferStatsPrinter.unlines rows
       /\ length rows = InferStatsPrinter.counted inference_result
       /\ Forall (fun row => InferStatsPrinter.count_commas row = 10%nat
                             /\ InferStatsPrinter.count_newlines row = 0%nat)
                 rows.
Proof.
  intros number_text fps idle inference_result.
  assert (InferStatsPrinter.plain_numbers Z number_text) as Hnumbers
    by (intros []; repeat split).
  assert (InferStatsPrinter.plain "group") as Hname by (split; reflexivity).
  assert (InferStatsPrinter.plain_names inference_result) as Hnames
    by (repeat constructor).
  split; [exact Hnumbers |]. split; [exact Hname |]. split; [exact Hnames |].
  split; [reflexivity |].
  apply (print_pipeline_elem_stats_csv_columns Z number_text Hnumbers
           4294967295 2 "group" inference_result Hname Hnames).
Defined.

(** * InferVStreams: the checks of [create] *)

Lemma count_found_all {P : Type} (params : list (string * P))
    (vstream_infos : list string) :
  InferVStreams.count_found params vstream_infos
  = N.of_nat (length vstream_infos) ->
  Forall (fun nm => InferVStreams.contains params nm = true) vstream_infos.
Proof.
  unfold InferVStreams.count_found. intros H. apply Nat2N.inj in H.
  induction vstream_infos as [| nm rest IH]; [constructor |].
  cbn in H. pose proof (List.filter_length_le
                          (InferVStreams.contains params) rest) as Hle.
  destruct (InferVStreams.contains params nm) eqn:Hnm; cbn in H; [| lia].
  constructor; [exact Hnm | apply IH; lia].
Qed.

Lemma count_found_none {P : Type} (params : list (string * P))
    (vstream_infos : list string) :
  InferVStreams.count_found params vstream_infos = 0%N ->
  Forall (fun nm => InferVStreams.contains params nm = false) vstream_infos.
Proof.
  unfold InferVStreams.count_found. intros H.
  induction vstream_infos as [| nm rest IH]; [constructor |].
  cbn in H. destruct (InferVStreams.contains params nm) eqn:Hnm;
    cbn in H; [lia |].
  constructor; [exact Hnm | apply IH; exact H].
Qed.

Lemma check_networks_Value {P : Type}
    (net_group : InferVStreams.ConfiguredNetworkGroup)
    (input_params output_params : list (string * P))
    (network_infos : list string) (ti to ti' to' : N) :
  InferVStreams.check_networks net_group input_params output_params
    network_infos ti to = InferVStreams.Value (ti', to') ->
  Forall (network_all_or_nothing net_group input_params output_params)
         network_infos
  /\ ti' = (ti + total_found input_params
                    (InferVStreams.get_input_vstream_infos net_group)
                    network_infos)%N
  /\ to' = (to + total_found output_params
                    (InferVStreams.get_output_vstream_infos net_group)
                    network_infos)%N.
Proof.
  revert ti to. induction network_infos as [| network rest IH]; intros ti to.
  - cbn. intros [= <- <-]. unfold total_found. cbn.
    split; [constructor | split; lia].
  - cbn [InferVStreams.check_networks].
    destruct (InferVStreams.get_input_vstream_infos net_group network)
      as [ins | s] eqn:Hins; [| discriminate].
    destruct (InferVStreams.get_output_vstream_infos net_group network)
      as [outs | s] eqn:Houts; [| discriminate].
    cbn zeta.
    assert (total_found input_params
              (InferVStreams.get_input_vstream_infos net_group)
              (network :: rest)
            = (InferVStreams.count_found input_params ins
               + total_found input_params
                   (InferVStreams.get_input_vstream_infos net_group) rest)%N)
      as Tin.
    { unfold total_found, InferVStreams.count_found. cbn [flat_map].
      rewrite Hins, length_app. cbn [infos_of]. lia. }
    assert (total_found output_params
              (InferVStreams.get_output_vstream_infos net_group)
              (network :: rest)
            = (InferVStreams.count_found output_params outs
               + total_found output_params
                   (InferVStreams.get_output_vstream_infos net_group) rest)%N)
      as Tout.
    { unfold total_found, InferVStreams.count_found. cbn [flat_map].
      rewrite Houts, length_app. cbn [infos_of]. lia. }
    rewrite Tin, Tout.
    destruct (N.eqb_spec 0 (InferVStreams.count_found input_params ins))
      as [Hi0 | Hi0],
      (N.eqb_spec 0 (InferVStreams.count_found output_params outs))
      as [Ho0 | Ho0]; cbn [negb orb].
    + destruct (InferVStreams.multi_context net_group) eqn:Hmulti;
        cbn [negb]; [discriminate |].
      intros H. destruct (IH _ _ H) as (Hall & -> & ->).
      split; [| split; lia]. constructor; [| exact Hall].
      exists ins, outs. split; [exact Hins |]. split; [exact Houts |].
      right. symmetry in Hi0, Ho0.
      auto using count_found_none.
    + destruct (N.eqb_spec (InferVStreams.count_found input_params ins)
                  (N.of_nat (length ins))) as [Hi | Hi]; cbn [negb];
        [| discriminate].
      destruct (N.eqb_spec (InferVStreams.count_found output_params outs)
                  (N.of_nat (length outs))) as [Ho | Ho]; cbn [negb];
        [| discriminate].
      intros H. destruct (IH _ _ H) as (Hall & -> & ->).
      split; [| split; lia]. constructor; [| exact Hall].
      exists ins, outs. split; [exact Hins |]. split; [exact Houts |].
      left. split; [apply count_found_all, Hi |].
      split; [apply count_found_all, Ho |].
      right. intros ->. cbn in Ho. lia.
    + destruct (N.eqb_spec (InferVStreams.count_found input_params ins)
                  (N.of_nat (length ins))) as [Hi | Hi]; cbn [negb];
        [| discriminate].
      destruct (N.eqb_spec (InferVStreams.count_found output_params outs)
                  (N.of_nat (length outs))) as [Ho | Ho]; cbn [negb];
        [| discriminate].
      intros H. destruct (IH _ _ H) as (Hall & -> & ->).
      split; [| split; lia]. constructor; [| exact Hall].
      exists ins, outs. split; [exact Hins |]. split; [exact Houts |].
      left. split; [apply count_found_all, Hi |].
      split; [apply count_found_all, Ho |].
      left. intros ->. cbn in Hi. lia.
    + destruct (N.eqb_spec (InferVStreams.count_found input_params ins)
                  (N.of_nat (length ins))) as [Hi | Hi]; cbn [negb];
        [| discriminate].
      destruct (N.eqb_spec (InferVStreams.count_found output_params outs)
                  (N.of_nat (length outs))) as [Ho | Ho]; cbn [negb];
        [| discriminate].
      intros H. destruct (IH _ _ H) as (Hall & -> & ->).
      split; [| split; lia]. constructor; [| exact Hall].
      exists ins, outs. split; [exact Hins |]. split; [exact Houts |].
      left. split; [apply count_found_all, Hi |].
      split; [apply count_found_all, Ho |].
      left. intros ->. cbn in Hi. lia.
Qed.

Lemma check_params_Value {P : Type} (params : list (string * P))
    (all_vstream_infos : InferVStreams.Expected (list string)) :
  InferVStreams.check_params params all_vstream_infos
  = InferVStreams.Value tt ->
  exists vstream_infos,
    all_vstream_infos = InferVStreams.Value vstream_infos
    /\ Forall (fun p => p.1 ∈ vstream_infos) params.
Proof.
  unfold InferVStreams.check_params.
  destruct all_vstream_infos as [vstream_infos | s]; [| discriminate].
  case_bool_decide as Hs; [discriminate |]. intros _.
  exists vstream_infos. split; [reflexivity |].
  apply (verify_vstream_params_cases params vstream_infos).
  destruct (decide (InferVStreams.verify_vstream_params_in_vstream_infos
                      params vstream_infos = InferVStreams.HAILO_SUCCESS));
    [assumption | contradiction].
Qed.

(** X21.  When [InferVStreams::create] passes its checks and goes on to
    build the vstreams, all the queries it made succeeded and every network
    of the group is named as a whole or not at all: either all its input
    vstreams are keys of the input parameters and all its output vstreams
    keys of the output parameters (and it has some vstream), or none is, and
    then the group is not multi-context. *)
Theorem create_all_or_nothing {P : Type}
    (net_group : InferVStreams.ConfiguredNetworkGroup)
    (input_params output_params : list (string * P)) :
  InferVStreams.create_checks net_group input_params output_params
  = InferVStreams.Value tt ->
  exists network_infos,
    InferVStreams.get_network_infos net_group
    = InferVStreams.Value network_infos
    /\ Forall (network_all_or_nothing net_group input_params output_params)
              network_infos.
Proof.
  unfold InferVStreams.create_checks.
  destruct (InferVStreams.get_network_infos net_group)
    as [network_infos | s]; [| discriminate].
  destruct (InferVStreams.check_networks net_group input_params output_params
              network_infos 0 0) as [[ti to] | s] eqn:Hloop; [| discriminate].
  intros _. exists network_infos. split; [reflexivity |].
  apply (check_networks_Value _ _ _ _ _ _ _ _ Hloop).
Qed.

(** X22.  When [create] goes on to build the vstreams, the input parameters
    were all accounted for by the networks (as many vstream infos found as
    there are parameters) or each names an input vstream of the group; and
    the output parameters were all accounted for by the networks or each
    names an input vstream of the group: the output parameters too are
    looked up among the input vstream infos. *)
Theorem create_params_accounted {P : Type}
    (net_group : InferVStreams.ConfiguredNetworkGroup)
    (input_params output_params : list (string * P)) :
  InferVStreams.create_checks net_group input_params output_params
  = InferVStreams.Value tt ->
  exists network_infos,
    InferVStreams.get_network_infos net_group
    = InferVStreams.Value network_infos
    /\ (total_found input_params
                    (InferVStreams.get_input_vstream_infos net_group)
                    network_infos
        = N.of_nat (length input_params)
        \/ exists all_input_vstream_infos,
             InferVStreams.get_all_input_vstream_infos net_group
             = InferVStreams.Value all_input_vstream_infos
             /\ Forall (fun p => p.1 ∈ all_input_vstream_infos) input_params)
    /\ (total_found output_params
                    (InferVStreams.get_output_vstream_infos net_group)
                    network_infos
        = N.of_nat (length output_params)
        \/ exists all_input_vstream_infos,
             InferVStreams.get_all_input_vstream_infos net_group
             = InferVStreams.Value all_input_vstream_infos
             /\ Forall (fun p => p.1 ∈ all_input_vstream_infos)
                       output_params).
Proof.
  unfold InferVStreams.create_checks.
  destruct (InferVStreams.get_network_infos net_group)
    as [network_infos | s]; [| discriminate].
  destruct (InferVStreams.check_networks net_group input_params output_params
              network_infos 0 0) as [[ti to] | s] eqn:Hloop; [| discriminate].
  destruct (check_networks_Value _ _ _ _ _ _ _ _ Hloop) as (_ & -> & ->).
  rewrite !N.add_0_l. intros H. exists network_infos.
  split; [reflexivity |].
  destruct (N.eqb_spec
              (total_found input_params
                 (InferVStreams.get_input_vstream_infos net_group)
                 network_infos) (N.of_nat (length input_params)))
    as [Hin | Hin]; cbn [negb] in H.
  - split; [left; exact Hin |].
    destruct (N.eqb_spec
                (total_found output_params
                   (InferVStreams.get_output_vstream_infos net_group)
                   network_infos) (N.of_nat (length output_params)))
      as [Hout | Hout]; cbn [negb] in H; [left; exact Hout | right].
    apply check_params_Value, H.
  - destruct (InferVStreams.check_params input_params
                (InferVStreams.get_all_input_vstream_infos net_group))
      as [[] | s] eqn:Hcheck; [| discriminate].
    split; [right; apply check_params_Value, Hcheck |].
    destruct (N.eqb_spec
                (total_found output_params
                   (InferVStreams.get_output_vstream_infos net_group)
                   network_infos) (N.of_nat (length output_params)))
      as [Hout | Hout]; cbn [negb] in H; [left; exact Hout | right].
    apply check_params_Value, H.
Qed.

Lemma create_all_or_nothing_witness :
  let net_group :=
    InferVStreams.mkConfiguredNetworkGroup
      (InferVStreams.Value ["net/a"; "net/b"])
      (fun network => InferVStreams.Value
                        (if String.eqb network "net/a" then ["in0"]
                         else ["in1"]))
      (fun network => InferVStreams.Value
                        (if String.eqb network "net/a" then ["out0"]
                         else ["out1"]))
      (InferVStreams.Value ["in0"; "in1"])
      false in
  let input_params := [("in0", tt)] in
  let output_params := [("out0", tt)] in
  InferVStreams.create_checks net_group input_params output_params
  = InferVStreams.Value tt
  /\ Forall (network_all_or_nothing net_group input_params output_params)
            ["net/a"; "net/b"]
  /\ InferVStreams.create_checks net_group input_params []
     = InferVStreams.Unexpected InferVStreams.HAILO_INVALID_ARGUMENT.
Proof.
  intros net_group input_params output_params.
  assert (InferVStreams.create_checks net_group input_params output_params
          = InferVStreams.Value tt) as Hok by reflexivity.
  split; [exact Hok |]. split; [| reflexivity].
  destruct (create_all_or_nothing net_group input_params output_params Hok)
    as (network_infos & [= <-] & Hall).
  exact Hall.
Defined.

Lemma create_params_accounted_witness :
  let net_group :=
    InferVStreams.mkConfiguredNetworkGroup
      (InferVStreams.Value ["net/a"; "net/b"])
      (fun network => InferVStreams.Value
                        (if String.eqb network "net/a" then ["in0"]
                         else ["in1"]))
      (fun network => InferVStreams.Value
                        (if String.eqb network "net/a" then []
                         else ["out1"]))
      (InferVStreams.Value ["in0"; "in1"])
      false in
  let input_params := [("in0", tt)] in
  let output_params := [("in1", tt)] in
  InferVStreams.create_checks net_group input_params output_params
  = InferVStreams.Value tt
  /\ total_found output_params
                 (InferVStreams.get_output_vstream_infos net_group)
                 ["net/a"; "net/b"] = 0%N
  /\ exists all_input_vstream_infos,
       InferVStreams.get_all_input_vstream_infos net_group
       = InferVStreams.Value all_input_vstream_infos
       /\ Forall (fun p : string * unit => p.1 ∈ all_input_vstream_infos)
                 output_params.
Proof.
  intros net_group input_params output_params.
  assert (InferVStreams.create_checks net_group input_params output_params
          = InferVStreams.Value tt) as Hok by reflexivity.
  split; [exact Hok |]. split; [reflexivity |].
  destruct (create_params_accounted net_group input_params output_params Hok)
    as (network_infos & [= <-] & _ & [Hout | Hout]);
    [vm_compute in Hout; discriminate | exact Hout].
Defined.
